(** * soap-node-sql: where-clause translation, statement factory and field
      resolver, embedded from the TypeScript sources.

    Source files embedded here:
    - [src/sql.where.parser.ts]   (class SqlWhereParser)
    - [src/sql.utils.ts]          (class SqlUtils)
    - [src/sql.query-factory.ts]  (class SqlQueryFactory)
    - [src/sql.transformers.ts]   (SqlTransformers.toSql, arrayToString,
                                   stringToArray)
    - [src/sql.field-resolver.ts] (class SqlFieldResolver)

    Strings are sequences of 8-bit characters.  The [params] array that the
    parser mutates in place is threaded explicitly: every builder takes the
    array and returns it, grown by what it pushed.  A TypeError is the
    outcome [Throw].

    Extent of the value model: numbers are the integers JavaScript prints
    in full (magnitude below 10^21); an object is the list of its own
    properties, in enumeration order, and shadows nothing of
    [Object.prototype], whose members a lookup by name on the field
    resolver's mapping table finds; a function value is never called; a
    [Where] instance is the argument of [parse] only, the sub-criteria
    under [$and], [$or], [$not] and [$nor] are plain values. *)

Set Warnings "-register-all".
From Stdlib Require Import ZArith List String Ascii Bool Lia.
From Stdlib Require Import Numbers.DecimalString.
Import ListNotations.
Local Open Scope list_scope.
Local Open Scope string_scope.

(* ================================================================= *)
(** ** JavaScript values and the built-ins the sources call *)

Module Js.

(** The values a caller can hand to the parser as criteria or operands.
    Numbers are integers.  A [JDate] carries the two renderings the sources
    can observe: [iso] is what [toISOString()] returns, [text] what string
    coercion returns.  A [JFunc] is an opaque function value ([src] is its
    string coercion); the only one the parser can reach by itself is
    [Array.prototype.values].  Objects are own-property lists in enumeration
    order. *)
Inductive JsValue : Type :=
| JUndefined
| JNull
| JBool (b : bool)
| JNum (n : Z)
| JStr (s : string)
| JDate (iso : string) (text : string)
| JFunc (src : string)
| JArr (items : list JsValue)
| JObj (props : list (string * JsValue)).

(** Outcome of code that may raise a TypeError. *)
Inductive Res (A : Type) : Type :=
| Ok (a : A)
| Throw.
Arguments Ok {A} a.
Arguments Throw {A}.

Definition res_bind {A B} (r : Res A) (k : A -> Res B) : Res B :=
  match r with
  | Ok a => k a
  | Throw => Throw
  end.

Fixpoint res_all {A} (l : list (Res A)) : Res (list A) :=
  match l with
  | [] => Ok []
  | r :: rest =>
      res_bind r (fun a => res_bind (res_all rest) (fun t => Ok (a :: t)))
  end.

(** [if (v)] *)
Definition truthy (v : JsValue) : bool :=
  match v with
  | JUndefined | JNull => false
  | JBool b => b
  | JNum n => negb (n =? 0)%Z
  | JStr s => negb (s =? EmptyString)
  | JDate _ _ | JFunc _ | JArr _ | JObj _ => true
  end.

Inductive JsType := TUndefined | TObject | TBoolean | TNumber | TString | TFunction.

(** [typeof v] *)
Definition typeof (v : JsValue) : JsType :=
  match v with
  | JUndefined => TUndefined
  | JNull | JDate _ _ | JArr _ | JObj _ => TObject
  | JBool _ => TBoolean
  | JNum _ => TNumber
  | JStr _ => TString
  | JFunc _ => TFunction
  end.

Definition is_object_type (v : JsValue) : bool :=
  match typeof v with TObject => true | _ => false end.

(** [Array.isArray(v)] *)
Definition isArray (v : JsValue) : bool :=
  match v with JArr _ => true | _ => false end.

(** [v === null || v === undefined] *)
Definition is_nullish (v : JsValue) : bool :=
  match v with JUndefined | JNull => true | _ => false end.

(** The decimal text of an integer, which is what string coercion gives
    for a number of magnitude below 10^21. *)
Definition Z_to_string (z : Z) : string :=
  NilEmpty.string_of_int (Z.to_int z).

(** String coercion, as a template literal performs it. *)
Fixpoint ToString (v : JsValue) : string :=
  match v with
  | JUndefined => "undefined"
  | JNull => "null"
  | JBool true => "true"
  | JBool false => "false"
  | JNum n => Z_to_string n
  | JStr s => s
  | JDate _ text => text
  | JFunc src => src
  | JArr items =>
      String.concat ","
        (map (fun x => match x with
                       | JUndefined | JNull => EmptyString
                       | _ => ToString x
                       end) items)
  | JObj _ => "[object Object]"
  end.

(** [obj[k]] on an own-property list. *)
Fixpoint assoc {A} (k : string) (l : list (string * A)) : option A :=
  match l with
  | [] => None
  | (k', v) :: rest => if k =? k' then Some v else assoc k rest
  end.

(** [obj[k] = v]: an existing property keeps its place, a new one goes last. *)
Fixpoint assoc_set {A} (k : string) (v : A) (l : list (string * A)) : list (string * A) :=
  match l with
  | [] => [(k, v)]
  | (k', v') :: rest =>
      if k =? k' then (k, v) :: rest else (k', v') :: assoc_set k v rest
  end.

(** An array index: the canonical decimal text of an integer from 0 to
    2^32 - 2.  The properties of an object are enumerated with the array
    indices first, in ascending order, then the other keys in the order
    of their creation. *)
Definition array_index (k : string) : option N :=
  match NilEmpty.uint_of_string k with
  | Some u =>
      let n := N.of_uint u in
      if (NilEmpty.string_of_uint (N.to_uint n) =? k) && (n <=? 4294967294)%N
      then Some n
      else None
  | None => None
  end.

(** The place of a new array index: after the indices below it. *)
Fixpoint insert_index {A} (n : N) (k : string) (v : A) (l : list (string * A))
  : list (string * A) :=
  match l with
  | [] => [(k, v)]
  | (k', v') :: rest =>
      match array_index k' with
      | Some m =>
          if (m <? n)%N then (k', v') :: insert_index n k v rest
          else (k, v) :: l
      | None => (k, v) :: l
      end
  end.

(** A property defined on a copy, as an object spread does it: an existing
    key keeps its place, a new array index goes among the indices, any
    other new key goes last. *)
Definition define_property {A} (k : string) (v : A) (l : list (string * A))
  : list (string * A) :=
  match assoc k l, array_index k with
  | None, Some n => insert_index n k v l
  | _, _ => assoc_set k v l
  end.

Fixpoint index_entries (i : nat) (items : list JsValue) : list (string * JsValue) :=
  match items with
  | [] => []
  | v :: rest => (Z_to_string (Z.of_nat i), v) :: index_entries (S i) rest
  end.

(** [Object.entries(v)] for a value with [typeof v === 'object'] or a
    function. *)
Definition entries (v : JsValue) : list (string * JsValue) :=
  match v with
  | JObj props => props
  | JArr items => index_entries 0 items
  | _ => []
  end.

(** Property read [v.name], for the names the sources read ([path],
    [value], [values], [build]); raises on [null] and [undefined].  Arrays
    inherit [values] from their prototype. *)
Definition get_prop (v : JsValue) (name : string) : Res JsValue :=
  match v with
  | JUndefined | JNull => Throw
  | JObj props =>
      Ok (match assoc name props with Some x => x | None => JUndefined end)
  | JArr items =>
      if name =? "values" then Ok (JFunc "function values() { [native code] }")
      else if name =? "length" then Ok (JNum (Z.of_nat (List.length items)))
      else Ok (match assoc name (index_entries 0 items) with
               | Some x => x
               | None => JUndefined
               end)
  | JStr s =>
      if name =? "length" then Ok (JNum (Z.of_nat (String.length s)))
      else Ok JUndefined
  | _ => Ok JUndefined
  end.

(** *** JSON.stringify *)

Definition dquote : string := String (ascii_of_nat 34) EmptyString.

Definition hex_digit (n : nat) : ascii :=
  nth n ["0"; "1"; "2"; "3"; "4"; "5"; "6"; "7"; "8"; "9";
         "a"; "b"; "c"; "d"; "e"; "f"]%char "0"%char.

Definition json_escape_char (c : ascii) : string :=
  let n := nat_of_ascii c in
  if (n =? 34)%nat then "\" ++ dquote
  else if (n =? 92)%nat then "\\"
  else if (n =? 8)%nat then "\b"
  else if (n =? 9)%nat then "\t"
  else if (n =? 10)%nat then "\n"
  else if (n =? 12)%nat then "\f"
  else if (n =? 13)%nat then "\r"
  else if (n <? 32)%nat then
    "\u00" ++ String (hex_digit (n / 16)) (String (hex_digit (n mod 16)) EmptyString)
  else String c EmptyString.

Fixpoint json_escape (s : string) : string :=
  match s with
  | EmptyString => EmptyString
  | String c rest => json_escape_char c ++ json_escape rest
  end.

Definition json_quote (s : string) : string := dquote ++ json_escape s ++ dquote.

(** The JSON text of a value; [None] where [JSON.stringify] yields
    [undefined]. *)
Fixpoint json_text (v : JsValue) : option string :=
  match v with
  | JUndefined | JFunc _ => None
  | JNull => Some "null"
  | JBool true => Some "true"
  | JBool false => Some "false"
  | JNum n => Some (Z_to_string n)
  | JStr s => Some (json_quote s)
  | JDate iso _ => Some (json_quote iso)
  | JArr items =>
      Some ("[" ++ String.concat ","
                     (map (fun x => match json_text x with
                                    | Some t => t
                                    | None => "null"
                                    end) items) ++ "]")
  | JObj props =>
      Some ("{" ++ String.concat ","
                     (flat_map (fun kv => match json_text (snd kv) with
                                          | Some t => [json_quote (fst kv) ++ ":" ++ t]
                                          | None => []
                                          end) props) ++ "}")
  end.

Definition JSON_stringify (v : JsValue) : JsValue :=
  match json_text v with
  | Some t => JStr t
  | None => JUndefined
  end.

(** *** String methods *)

(** [s.startsWith(p)] *)
Definition startsWith (p s : string) : bool := String.prefix p s.

Fixpoint drop (n : nat) (s : string) : string :=
  match n, s with
  | O, _ => s
  | S k, String _ rest => drop k rest
  | S _, EmptyString => EmptyString
  end.

(** [s.replace(pat, rep)] with a string pattern: the first occurrence only. *)
Fixpoint replace_first (pat rep s : string) : string :=
  if String.prefix pat s then rep ++ drop (String.length pat) s
  else match s with
       | EmptyString => EmptyString
       | String c rest => String c (replace_first pat rep rest)
       end.

(** [s.replace(/c/g, rep)] for a single literal character [c]. *)
Fixpoint replace_char (c : ascii) (rep : string) (s : string) : string :=
  match s with
  | EmptyString => EmptyString
  | String d rest =>
      if Ascii.eqb d c then rep ++ replace_char c rep rest
      else String d (replace_char c rep rest)
  end.

(** The characters [.] does not match in a regular expression without the
    [s] flag (line feed and carriage return; the two Unicode separators lie
    outside 8-bit strings). *)
Definition is_line_terminator (c : ascii) : bool :=
  (nat_of_ascii c =? 10)%nat || (nat_of_ascii c =? 13)%nat.

(** Number of characters up to the first [close], provided no line
    terminator comes before it: where the lazy [.*?] of [/\[.*?\]/] stops. *)
Fixpoint close_index (close : ascii) (s : string) : option nat :=
  match s with
  | EmptyString => None
  | String c rest =>
      if Ascii.eqb c close then Some O
      else if is_line_terminator c then None
      else option_map S (close_index close rest)
  end.

(** [s.replace(/<open>.*?<close>/g, rep)]: leftmost, shortest,
    non-overlapping matches.  [skip] counts the characters of the current
    match still to be consumed. *)
Fixpoint replace_groups_from (open close : ascii) (rep : string)
         (skip : nat) (s : string) : string :=
  match s with
  | EmptyString => EmptyString
  | String c rest =>
      match skip with
      | S k => replace_groups_from open close rep k rest
      | O =>
          if Ascii.eqb c open then
            match close_index close rest with
            | Some n => rep ++ replace_groups_from open close rep (S n) rest
            | None => String c (replace_groups_from open close rep O rest)
            end
          else String c (replace_groups_from open close rep O rest)
      end
  end.

Definition replace_groups (open close : ascii) (rep : string) (s : string) : string :=
  replace_groups_from open close rep O s.

Definition upper_char (c : ascii) : ascii :=
  let n := nat_of_ascii c in
  if ((97 <=? n) && (n <=? 122))%nat then ascii_of_nat (n - 32) else c.

(** [s.toUpperCase()] on ASCII letters. *)
Fixpoint toUpperCase (s : string) : string :=
  match s with
  | EmptyString => EmptyString
  | String c rest => String (upper_char c) (toUpperCase rest)
  end.

Fixpoint count_char (c : ascii) (s : string) : nat :=
  match s with
  | EmptyString => O
  | String d rest => (if Ascii.eqb d c then 1 else 0) + count_char c rest
  end.

End Js.
Import Js.

(** The three supported dialects ([DatabaseType] of [sql.types.ts]). *)
Inductive DatabaseType := mysql | postgresql | sqlite.

(* ================================================================= *)
(** ** sql.where.parser.ts *)

Module SqlWhereParser.

Record ParsedWhereClause : Type := {
  sql : string;
  params : list JsValue;
  hasConditions : bool
}.

(** [{ sql: '', params: [], hasConditions: false }] *)
Definition no_conditions : ParsedWhereClause :=
  {| sql := EmptyString; params := []; hasConditions := false |}.

(** The condition objects a [Where] builder of @soapjs/soap hands over:
    [Condition { left, operator, right }],
    [ConditionWithManyKeys { left: string[], operator, right }],
    [VariedCondition { conditions, operator }] and
    [NestedCondition { result }]. *)
Inductive ConditionNode : Type :=
| Condition (left : string) (operator : string) (right : JsValue)
| ConditionWithManyKeys (left : list string) (operator : string) (right : JsValue)
| VariedCondition (conditions : list ConditionNode) (operator : string)
| NestedCondition (result : ConditionNode).

(** What [parse] receives: a plain value, or a [Where] instance (an object
    with a callable [build]) whose [build()] returns a condition or
    nothing. *)
Inductive WhereArg : Type :=
| WPlain (v : JsValue)
| WBuilder (built : option ConditionNode).

Definition nonempty (s : string) : bool := negb (s =? EmptyString).

(** The operator names of [type ComparisonOperator]. *)
Definition ComparisonOperator : list string :=
  ["eq"; "ne"; "gt"; "gte"; "lt"; "lte";
   "in"; "nin"; "like"; "nlike"; "regex"; "nregex";
   "exists"; "nexists"; "between"; "nbetween";
   "json_extract"; "json_path"; "full_text_search"; "array_contains";
   "text_search"].

Definition is_ComparisonOperator (operator : string) : bool :=
  existsb (String.eqb operator) ComparisonOperator.

(** The [params] accumulator, threaded through code that may raise. *)
Definition M (A : Type) : Type := list JsValue -> Res (A * list JsValue).

Definition ret {A} (a : A) : M A := fun ps => Ok (a, ps).
Definition bind {A B} (m : M A) (k : A -> M B) : M B :=
  fun ps => match m ps with
            | Ok (a, ps') => k a ps'
            | Throw => Throw
            end.
Definition throw {A} : M A := fun _ => Throw.
Definition lift {A} (r : Res A) : M A :=
  fun ps => match r with Ok a => Ok (a, ps) | Throw => Throw end.
(** [params.push(...vs)] *)
Definition push (vs : list JsValue) : M unit := fun ps => Ok (tt, (ps ++ vs)%list).

Notation "x <- m ;; k" := (bind m (fun x => k))
  (at level 61, m at next level, right associativity).
Notation "m ;;; k" := (bind m (fun _ => k))
  (at level 61, right associativity).

Definition items_of (v : JsValue) : list JsValue :=
  match v with JArr items => items | _ => [] end.

(** [values.map(() => '?').join(', ')] *)
Definition placeholders (values : list JsValue) : string :=
  String.concat ", " (map (fun _ => "?") values).

Definition is_quote_char (c : ascii) : bool :=
  let n := nat_of_ascii c in
  ((n =? 96) || (n =? 39) || (n =? 34))%nat.

(** The [replace] of [_escapeIdentifier]: every backtick, single quote and
    double quote of the identifier is kept and gets a backslash in front. *)
Fixpoint backslash_quotes (s : string) : string :=
  match s with
  | EmptyString => EmptyString
  | String c rest =>
      if is_quote_char c then String "\" (String c (backslash_quotes rest))
      else String c (backslash_quotes rest)
  end.

Definition _escapeIdentifier (identifier : string) : string :=
  "`" ++ backslash_quotes identifier ++ "`".

(** [_regexToLike]; [regex.replace] exists on strings only. *)
Definition regexToLike_string (regex : string) : string :=
  let s1 := replace_char "." "_" regex in
  let s2 := replace_char "*" "%" s1 in
  let s3 := replace_char "?" "_" s2 in
  let s4 := replace_groups "[" "]" "_" s3 in
  let s5 := replace_groups "(" ")" "_" s4 in
  let s6 := "%" ++ s5 in
  s6 ++ "%".

Definition _regexToLike (regex : JsValue) : Res string :=
  match regex with
  | JStr s => Ok (regexToLike_string s)
  | _ => Throw
  end.

Section Parser.

Variable _databaseType : DatabaseType.
(** [_tableAlias?: string] *)
Variable _tableAlias : option string.

Definition _getFieldReference (field : string) : string :=
  match _tableAlias with
  | Some a =>
      if nonempty a then a ++ "." ++ _escapeIdentifier field
      else _escapeIdentifier field
  | None => _escapeIdentifier field
  end.

(** *** Condition-model front end *)

Definition createCondition (field operator : string) (value : JsValue)
           (params : list JsValue) : string * list JsValue :=
  let fieldRef := _getFieldReference field in
  if operator =? "eq" then
    if is_nullish value then (fieldRef ++ " IS NULL", params)
    else (fieldRef ++ " = ?", (params ++ [value])%list)
  else if operator =? "ne" then
    if is_nullish value then (fieldRef ++ " IS NOT NULL", params)
    else (fieldRef ++ " != ?", (params ++ [value])%list)
  else if operator =? "gt" then (fieldRef ++ " > ?", (params ++ [value])%list)
  else if operator =? "gte" then (fieldRef ++ " >= ?", (params ++ [value])%list)
  else if operator =? "lt" then (fieldRef ++ " < ?", (params ++ [value])%list)
  else if operator =? "lte" then (fieldRef ++ " <= ?", (params ++ [value])%list)
  else if operator =? "in" then
    if negb (isArray value) || (List.length (items_of value) =? 0)%nat
    then ("1=0", params)
    else (fieldRef ++ " IN (" ++ placeholders (items_of value) ++ ")",
          (params ++ items_of value)%list)
  else if operator =? "nin" then
    if negb (isArray value) || (List.length (items_of value) =? 0)%nat
    then ("1=1", params)
    else (fieldRef ++ " NOT IN (" ++ placeholders (items_of value) ++ ")",
          (params ++ items_of value)%list)
  else if operator =? "like" then (fieldRef ++ " LIKE ?", (params ++ [value])%list)
  else (fieldRef ++ " = ?", (params ++ [value])%list).

(** [left.map(key => this.createCondition(key, operator, right, params))] *)
Fixpoint createConditions (keys : list string) (operator : string)
         (right : JsValue) (params : list JsValue) : list string * list JsValue :=
  match keys with
  | [] => ([], params)
  | key :: rest =>
      let '(c, params1) := createCondition key operator right params in
      let '(cs, params2) := createConditions rest operator right params1 in
      (c :: cs, params2)
  end.

Definition isVariedCondition (c : ConditionNode) : bool :=
  match c with VariedCondition _ operator => nonempty operator | _ => false end.
Definition isNestedCondition (c : ConditionNode) : bool :=
  match c with NestedCondition _ => true | _ => false end.
Definition isConditionWithManyKeys (c : ConditionNode) : bool :=
  match c with ConditionWithManyKeys _ operator _ => nonempty operator | _ => false end.
Definition isCondition (c : ConditionNode) : bool :=
  match c with
  | Condition left' operator _ => nonempty left' && nonempty operator
  | _ => false
  end.

(** The closing [return] of [parseCondition]. *)
Definition where_result (sql0 : string) (params0 : list JsValue) : ParsedWhereClause :=
  {| sql := if nonempty sql0 then "WHERE " ++ sql0 else EmptyString;
     params := params0;
     hasConditions := (0 <? String.length sql0)%nat |}.

Definition strip_where (r : ParsedWhereClause) : string :=
  replace_first "WHERE " EmptyString (sql r).

Fixpoint parseCondition (condition : ConditionNode) : ParsedWhereClause :=
  match condition with
  | VariedCondition conditions operator =>
      if isVariedCondition condition then
        let parsedConditions :=
          filter hasConditions (map parseCondition conditions) in
        if (List.length parsedConditions =? 0)%nat then no_conditions
        else
          let sqlParts := map (fun r => "(" ++ strip_where r ++ ")") parsedConditions in
          let params1 := flat_map params parsedConditions in
          let op := if operator =? "and" then "AND" else "OR" in
          where_result (String.concat (" " ++ op ++ " ") sqlParts) params1
      else where_result EmptyString []
  | NestedCondition result => parseCondition result
  | ConditionWithManyKeys left' operator right' =>
      if isConditionWithManyKeys condition then
        let '(conds, params1) := createConditions left' operator right' [] in
        where_result (String.concat " OR " conds) params1
      else where_result EmptyString []
  | Condition left' operator right' =>
      if isCondition condition then
        let '(s, params1) := createCondition left' operator right' [] in
        where_result s params1
      else where_result EmptyString []
  end.

(** *** Plain-criteria front end *)

Definition _buildComparison (field operator : string) (value : JsValue) : M string :=
  push [value] ;;;
  ret (field ++ " " ++ operator ++ " ?").

Definition _buildInCondition (field : string) (values : JsValue) (negate : bool)
  : M string :=
  if negb (isArray values) || (List.length (items_of values) =? 0)%nat then
    ret (if negate then "1=1" else "1=0")
  else
    let phs := placeholders (items_of values) in
    push (items_of values) ;;;
    let operator := if negate then "NOT IN" else "IN" in
    ret (field ++ " " ++ operator ++ " (" ++ phs ++ ")").

Definition _buildLikeCondition (field : string) (pattern : JsValue) (negate : bool)
  : M string :=
  push [pattern] ;;;
  let operator := if negate then "NOT LIKE" else "LIKE" in
  ret (field ++ " " ++ operator ++ " ?").

Definition _buildRegexCondition (field : string) (pattern : JsValue) (negate : bool)
  : M string :=
  likePattern <- lift (_regexToLike pattern) ;;
  _buildLikeCondition field (JStr likePattern) negate.

Definition _buildExistsCondition (field : string) (value : JsValue) (negate : bool)
  : M string :=
  if truthy value then
    ret (if negate then field ++ " IS NULL" else field ++ " IS NOT NULL")
  else
    ret (if negate then field ++ " IS NOT NULL" else field ++ " IS NULL").

Definition _buildBetweenCondition (field : string) (values : JsValue) (negate : bool)
  : M string :=
  if negb (isArray values) || negb (List.length (items_of values) =? 2)%nat then
    ret (if negate then "1=1" else "1=0")
  else
    push [nth 0 (items_of values) JUndefined; nth 1 (items_of values) JUndefined] ;;;
    let operator := if negate then "NOT BETWEEN" else "BETWEEN" in
    ret (field ++ " " ++ operator ++ " ? AND ?").

Definition _createJsonExtractCondition (field : string) (path value : JsValue)
  : M string :=
  let fieldRef := _getFieldReference field in
  match _databaseType with
  | postgresql =>
      push [value] ;;; ret (fieldRef ++ "->>'" ++ ToString path ++ "' = ?")
  | mysql =>
      push [value] ;;;
      ret ("JSON_EXTRACT(" ++ fieldRef ++ ", '" ++ ToString path ++ "') = ?")
  | sqlite =>
      push [value] ;;;
      ret ("json_extract(" ++ fieldRef ++ ", '" ++ ToString path ++ "') = ?")
  end.

Definition _createJsonPathCondition (field : string) (path : JsValue) : M string :=
  let fieldRef := _getFieldReference field in
  match _databaseType with
  | postgresql => ret (fieldRef ++ " @> ?")
  | _ => _createJsonExtractCondition field path JNull
  end.

Definition _createFullTextSearchCondition (field : string) (searchTerm : JsValue)
  : M string :=
  let fieldRef := _getFieldReference field in
  match _databaseType with
  | postgresql =>
      push [searchTerm] ;;;
      ret ("to_tsvector('english', " ++ fieldRef ++ ") @@ plainto_tsquery('english', ?)")
  | mysql =>
      push [searchTerm] ;;;
      ret ("MATCH(" ++ fieldRef ++ ") AGAINST(? IN BOOLEAN MODE)")
  | sqlite =>
      push [searchTerm] ;;; ret (fieldRef ++ " MATCH ?")
  end.

Definition _createArrayContainsCondition (field : string) (values : JsValue)
  : M string :=
  let fieldRef := _getFieldReference field in
  match _databaseType with
  | postgresql => push [values] ;;; ret (fieldRef ++ " @> ?")
  | mysql =>
      push [JSON_stringify values] ;;; ret ("JSON_CONTAINS(" ++ fieldRef ++ ", ?)")
  | sqlite =>
      push [JSON_stringify values] ;;;
      ret ("json_extract(" ++ fieldRef ++ ", '$') = ?")
  end.

Definition _createTextSearchCondition (field : string) (searchTerm : JsValue)
  : M string :=
  let fieldRef := _getFieldReference field in
  push [JStr ("%" ++ ToString searchTerm ++ "%")] ;;;
  ret (fieldRef ++ " LIKE ?").

(** A builder's string, as the [string | null] the dispatchers return. *)
Definition some (m : M string) : M (option string) :=
  s <- m ;; ret (Some s).

Definition _parseFieldOperator (field operator : string) (value : JsValue)
  : M (option string) :=
  let fieldRef := _getFieldReference field in
  if operator =? "eq" then some (_buildComparison fieldRef "=" value)
  else if operator =? "ne" then some (_buildComparison fieldRef "!=" value)
  else if operator =? "gt" then some (_buildComparison fieldRef ">" value)
  else if operator =? "gte" then some (_buildComparison fieldRef ">=" value)
  else if operator =? "lt" then some (_buildComparison fieldRef "<" value)
  else if operator =? "lte" then some (_buildComparison fieldRef "<=" value)
  else if operator =? "in" then some (_buildInCondition fieldRef value false)
  else if operator =? "nin" then some (_buildInCondition fieldRef value true)
  else if operator =? "like" then some (_buildLikeCondition fieldRef value false)
  else if operator =? "nlike" then some (_buildLikeCondition fieldRef value true)
  else if operator =? "regex" then some (_buildRegexCondition fieldRef value false)
  else if operator =? "nregex" then some (_buildRegexCondition fieldRef value true)
  else if operator =? "exists" then some (_buildExistsCondition fieldRef value false)
  else if operator =? "nexists" then some (_buildExistsCondition fieldRef value true)
  else if operator =? "between" then some (_buildBetweenCondition fieldRef value false)
  else if operator =? "nbetween" then some (_buildBetweenCondition fieldRef value true)
  else if operator =? "json_extract" then
    some (path <- lift (get_prop value "path") ;;
          v <- lift (get_prop value "value") ;;
          _createJsonExtractCondition field path v)
  else if operator =? "json_path" then some (_createJsonPathCondition field value)
  else if operator =? "full_text_search" then
    some (v <- lift (get_prop value "value") ;;
          _createFullTextSearchCondition field v)
  else if operator =? "array_contains" then
    some (vs <- lift (get_prop value "values") ;;
          _createArrayContainsCondition field vs)
  else if operator =? "text_search" then
    some (v <- lift (get_prop value "value") ;;
          _createTextSearchCondition field v)
  else ret None.

(** [if (condition) { conditions.push(condition); }] *)
Definition push_condition (condition : option string) (conditions : list string)
  : list string :=
  match condition with
  | Some c => if nonempty c then (conditions ++ [c])%list else conditions
  | None => conditions
  end.

Fixpoint fieldOperators_loop (field : string) (operators : list (string * JsValue))
         (conditions : list string) : M (list string) :=
  match operators with
  | [] => ret conditions
  | (operator, value) :: rest =>
      condition <- _parseFieldOperator field operator value ;;
      fieldOperators_loop field rest (push_condition condition conditions)
  end.

Definition _parseFieldOperators (field : string) (operators : JsValue)
  : M (option string) :=
  conditions <- fieldOperators_loop field (entries operators) [] ;;
  ret (if (0 <? List.length conditions)%nat
       then Some (String.concat " AND " conditions)
       else None).

Definition _parseSimpleCondition (field : string) (value : JsValue) : M string :=
  let fieldRef := _getFieldReference field in
  match value with
  | JNull => ret (fieldRef ++ " IS NULL")
  | JUndefined => ret (fieldRef ++ " IS NULL")
  | _ => _buildComparison fieldRef "=" value
  end.

Section Recursion.

(** [this.parse], as the combinators call it on their sub-criteria. *)
Variable parse_rec : JsValue -> Res ParsedWhereClause.

Definition _parseLogicalOperator (logicalOp : string) (conditions : JsValue)
  : M string :=
  match conditions with
  | JArr items =>
      results <- lift (res_all (map parse_rec items)) ;;
      let parsedConditions := filter hasConditions results in
      match parsedConditions with
      | [] => ret EmptyString
      | [only] => ret (strip_where only)
      | _ =>
          let sqlParts := map (fun r => "(" ++ strip_where r ++ ")") parsedConditions in
          push (flat_map params parsedConditions) ;;;
          ret (String.concat (" " ++ logicalOp ++ " ") sqlParts)
      end
  | _ => throw
  end.

Definition _parseNotCondition (condition : JsValue) : M string :=
  parsed <- lift (parse_rec condition) ;;
  if negb (hasConditions parsed) then ret EmptyString
  else
    push (params parsed) ;;;
    ret ("NOT (" ++ strip_where parsed ++ ")").

Definition _parseOperatorCondition (operator : string) (value : JsValue)
  : M (option string) :=
  if operator =? "$and" then some (_parseLogicalOperator "AND" value)
  else if operator =? "$or" then some (_parseLogicalOperator "OR" value)
  else if operator =? "$not" then some (_parseNotCondition value)
  else if operator =? "$nor" then some (_parseLogicalOperator "AND NOT" value)
  else ret None.

Definition _parseCondition (key : string) (value : JsValue) : M (option string) :=
  if startsWith "$" key then _parseOperatorCondition key value
  else if is_object_type value && negb (is_nullish value) && negb (isArray value)
  then _parseFieldOperators key value
  else some (_parseSimpleCondition key value).

(** The loop of [parseCriteria] over the entries of an object ... *)
Fixpoint criteria_props (props : list (string * JsValue))
         (conditions : list string) : M (list string) :=
  match props with
  | [] => ret conditions
  | (key, value) :: rest =>
      condition <- _parseCondition key value ;;
      criteria_props rest (push_condition condition conditions)
  end.

(** ... and over those of an array, whose keys are its indices. *)
Fixpoint criteria_items (i : nat) (items : list JsValue)
         (conditions : list string) : M (list string) :=
  match items with
  | [] => ret conditions
  | value :: rest =>
      condition <- _parseCondition (Z_to_string (Z.of_nat i)) value ;;
      criteria_items (S i) rest (push_condition condition conditions)
  end.

Definition criteria_result (conditions : list string) (params0 : list JsValue)
  : ParsedWhereClause :=
  {| sql := if (0 <? List.length conditions)%nat
            then "WHERE " ++ String.concat " AND " conditions
            else EmptyString;
     params := params0;
     hasConditions := (0 <? List.length conditions)%nat |}.

Definition parseCriteria (criteria : JsValue) : Res ParsedWhereClause :=
  if negb (truthy criteria) || negb (is_object_type criteria) then Ok no_conditions
  else
    match
      match criteria with
      | JObj props => criteria_props props [] []
      | JArr items => criteria_items 0 items [] []
      | _ => Ok ([], [])
      end
    with
    | Ok (conditions, params0) => Ok (criteria_result conditions params0)
    | Throw => Throw
    end.

(** [where.build] of a plain value. *)
Definition build_prop (where' : JsValue) : JsValue :=
  match get_prop where' "build" with
  | Ok b => b
  | Throw => JUndefined
  end.

(** [parse] on a plain value.  No plain value has a callable [build] (a
    [Where] instance is a [WBuilder]), so after the first two tests only the
    closing [return] is left. *)
Definition parse_plain (where' : JsValue) : Res ParsedWhereClause :=
  if negb (truthy where') then Ok no_conditions
  else if is_object_type where' && negb (truthy (build_prop where'))
  then parseCriteria where'
  else Ok no_conditions.

End Recursion.

Fixpoint parse_value (where' : JsValue) : Res ParsedWhereClause :=
  parse_plain parse_value where'.

Definition parse (where' : WhereArg) : Res ParsedWhereClause :=
  match where' with
  | WPlain v => parse_value v
  | WBuilder built =>
      match built with
      | None => Ok no_conditions
      | Some condition => Ok (parseCondition condition)
      end
  end.

End Parser.

End SqlWhereParser.

(* ================================================================= *)
(** ** sql.utils.ts *)

Module SqlUtils.

(** [l.push(x)] *)
Definition snoc {A} (l : list A) (x : A) : list A := (l ++ [x])%list.

(** [identifier.replace(/q/g, 'qq')] *)
Definition double_char (q : ascii) (s : string) : string :=
  replace_char q (String q (String q EmptyString)) s.

Definition backtick : ascii := ascii_of_nat 96.
Definition dquote_char : ascii := ascii_of_nat 34.

(** [escapeIdentifier(identifier, databaseType?)] *)
Definition escapeIdentifier (identifier : string) (databaseType : option DatabaseType)
  : string :=
  if identifier =? EmptyString then EmptyString
  else
    match databaseType with
    | Some mysql =>
        String backtick (double_char backtick identifier ++ String backtick EmptyString)
    | Some postgresql =>
        dquote ++ double_char dquote_char identifier ++ dquote
    | Some sqlite =>
        dquote ++ double_char dquote_char identifier ++ dquote
    | None =>
        dquote ++ double_char dquote_char identifier ++ dquote
    end.

(** [toSqlValue]; [SqlTransformers.toSql] of sql.transformers.ts has the
    same body. *)
Definition toSqlValue (value : JsValue) (databaseType : DatabaseType) : JsValue :=
  match value with
  | JNull | JUndefined => JNull
  | JDate iso _ =>
      match databaseType with
      | mysql => JStr (replace_first "T" " " (String.substring 0 19 iso))
      | sqlite => JStr iso
      | postgresql => JStr iso
      end
  | JBool b =>
      match databaseType with
      | mysql => JNum (if b then 1 else 0)
      | sqlite => JNum (if b then 1 else 0)
      | postgresql => value
      end
  | JObj _ => JSON_stringify value
  | _ => value
  end.

Definition qmarks (values : list JsValue) : string :=
  String.concat ", " (map (fun _ => "?") values).

(** One pass of the inner loop of [buildWhereClause] over the operators of
    an object value; [value] is the whole object. *)
Definition where_operator (databaseType : DatabaseType) (key : string)
           (value : JsValue) (operator : string) (operatorValue : JsValue)
           (acc : list string * list JsValue) : list string * list JsValue :=
  let '(clauses, params) := acc in
  let col := escapeIdentifier key (Some databaseType) in
  let cmp op :=
    (snoc clauses (col ++ " " ++ op ++ " ?"),
     (params ++ [toSqlValue operatorValue databaseType])%list) in
  if operator =? "$gte" then cmp ">="
  else if operator =? "$lte" then cmp "<="
  else if operator =? "$gt" then cmp ">"
  else if operator =? "$lt" then cmp "<"
  else if operator =? "$ne" then cmp "!="
  else if operator =? "$in" then
    match operatorValue with
    | JArr items =>
        (snoc clauses (col ++ " IN (" ++ qmarks items ++ ")"),
         (params ++ map (fun v => toSqlValue v databaseType) items)%list)
    | _ => acc
    end
  else if operator =? "$nin" then
    match operatorValue with
    | JArr items =>
        (snoc clauses (col ++ " NOT IN (" ++ qmarks items ++ ")"),
         (params ++ map (fun v => toSqlValue v databaseType) items)%list)
    | _ => acc
    end
  else if operator =? "$like" then cmp "LIKE"
  else
    (snoc clauses (col ++ " = ?"),
     (params ++ [toSqlValue value databaseType])%list).

(** The body of the outer loop of [buildWhereClause] for one entry. *)
Definition where_entry (databaseType : DatabaseType)
           (acc : list string * list JsValue) (entry : string * JsValue)
  : list string * list JsValue :=
  let '(clauses, params) := acc in
  let '(key, value) := entry in
  let col := escapeIdentifier key (Some databaseType) in
  match value with
  | JNull | JUndefined => (snoc clauses (col ++ " IS NULL"), params)
  | JArr items =>
      if (List.length items =? 0)%nat then (snoc clauses ("1 = 0"), params)
      else (snoc clauses (col ++ " IN (" ++ qmarks items ++ ")"),
            (params ++ items)%list)
  | JObj props =>
      fold_left (fun a ov => where_operator databaseType key value (fst ov) (snd ov) a)
                props acc
  | _ =>
      (snoc clauses (col ++ " = ?"),
       (params ++ [toSqlValue value databaseType])%list)
  end.

(** [buildWhereClause(conditions, databaseType)], returning [(sql, params)]. *)
Definition buildWhereClause (conditions : list (string * JsValue))
           (databaseType : DatabaseType) : string * list JsValue :=
  let '(clauses, params) := fold_left (where_entry databaseType) conditions ([], []) in
  let sql := if (0 <? List.length clauses)%nat
             then String.concat " AND " clauses
             else "1 = 1" in
  (sql, params).

(** [orderBy]: a record of directions or an array of field names. *)
Inductive OrderBy : Type :=
| OrderRecord (directions : list (string * string))
| OrderFields (fields : list string).

Definition buildOrderByClause (orderBy : OrderBy) : string :=
  match orderBy with
  | OrderFields fields =>
      String.concat ", " (map (fun field => escapeIdentifier field None) fields)
  | OrderRecord directions =>
      String.concat ", "
        (map (fun fd => escapeIdentifier (fst fd) None ++ " " ++ snd fd) directions)
  end.

Definition buildLimitClause (limit offset : option Z) : string :=
  match limit, offset with
  | None, None => EmptyString
  | Some l, Some o => "LIMIT " ++ Z_to_string o ++ ", " ++ Z_to_string l
  | Some l, None => "LIMIT " ++ Z_to_string l
  | None, Some _ => EmptyString
  end.

(** [escapeString(value)]: [NULL] for null and undefined; [value.replace]
    exists on strings only. *)
Definition escapeString (value : JsValue) : Res string :=
  match value with
  | JNull | JUndefined => Ok "NULL"
  | JStr s => Ok ("'" ++ double_char "'" s ++ "'")
  | _ => Throw
  end.

(** The [replace] of [convertPlaceholders]: the callback numbers the
    question marks from [paramIndex] on. *)
Fixpoint number_placeholders (paramIndex : nat) (sql : string) : string :=
  match sql with
  | EmptyString => EmptyString
  | String c rest =>
      if Ascii.eqb c "?" then
        "$" ++ Z_to_string (Z.of_nat paramIndex)
            ++ number_placeholders (S paramIndex) rest
      else String c (number_placeholders paramIndex rest)
  end.

(** [convertPlaceholders(sql, databaseType)] *)
Definition convertPlaceholders (sql : string) (databaseType : DatabaseType) : string :=
  match databaseType with
  | postgresql => number_placeholders 1 sql
  | _ => sql
  end.

(** The class [a-zA-Z0-9_]. *)
Definition is_name_char (c : ascii) : bool :=
  let n := nat_of_ascii c in
  (((97 <=? n) && (n <=? 122)) || ((65 <=? n) && (n <=? 90))
   || ((48 <=? n) && (n <=? 57)) || (n =? 95))%nat.

Fixpoint keep_chars (f : ascii -> bool) (s : string) : string :=
  match s with
  | EmptyString => EmptyString
  | String c rest =>
      if f c then String c (keep_chars f rest) else keep_chars f rest
  end.

(** [sanitizeName(name)] *)
Definition sanitizeName (name : string) : string :=
  if name =? EmptyString then EmptyString
  else keep_chars is_name_char name.

End SqlUtils.

(* ================================================================= *)
(** ** sql.query-factory.ts *)

Module SqlQueryFactory.

Import SqlWhereParser.

Record QueryOptions : Type := {
  table : string;
  fields : option (list string);
  where_ : option (list (string * JsValue));
  orderBy : option SqlUtils.OrderBy;
  limit : option Z;
  offset : option Z;
  groupBy : option (list string);
  having : option (list (string * JsValue))
}.

(** [FindParams] of @soapjs/soap, destructured by [createFindQuery]; an
    absent member is [None] ([JUndefined] for [sort]). *)
Record FindParams : Type := {
  fp_limit : option Z;
  fp_offset : option Z;
  fp_sort : JsValue;
  fp_where : option WhereArg;
  fp_projection : option (list (string * JsValue))
}.

(** The [DbQuery] a factory method returns; [filter] is [None] for [{}]. *)
Record DbQuery : Type := {
  q_sql : string;
  q_params : list JsValue;
  q_filter : option ParsedWhereClause;
  q_options : option Z * option Z * JsValue * option (list (string * JsValue))
}.

(** A [ParsedWhereClause] seen as the plain object it is: its own
    properties in creation order. *)
Definition as_record (w : ParsedWhereClause) : list (string * JsValue) :=
  [("sql", JStr (sql w)); ("params", JArr (params w));
   ("hasConditions", JBool (hasConditions w))].

(** [convertSortToOrderBy(sort)] *)
Definition convertSortToOrderBy (sort : JsValue) : list (string * string) :=
  if negb (truthy sort) || negb (is_object_type sort) then []
  else
    fold_left
      (fun orderBy0 fd =>
         match snd fd with
         | JNum direction =>
             if (direction =? 1)%Z then assoc_set (fst fd) "ASC" orderBy0
             else if (direction =? -1)%Z then assoc_set (fst fd) "DESC" orderBy0
             else orderBy0
         | JStr direction =>
             let upperDirection := toUpperCase direction in
             if (upperDirection =? "ASC") || (upperDirection =? "DESC")
             then assoc_set (fst fd) upperDirection orderBy0
             else orderBy0
         | _ => orderBy0
         end)
      (entries sort) [].

Definition where_truthy (w : WhereArg) : bool :=
  match w with
  | WPlain v => truthy v
  | WBuilder _ => true
  end.

Record InsertOptions : Type := {
  i_table : string;
  i_data : option (list (string * JsValue));
  i_ignore : bool;
  i_onDuplicateKeyUpdate : option (list (string * JsValue))
}.

Record UpdateOptions : Type := {
  u_table : string;
  u_data : option (list (string * JsValue));
  u_where : option (list (string * JsValue));
  u_limit : option Z
}.

Record DeleteOptions : Type := {
  d_table : string;
  d_where : option (list (string * JsValue));
  d_limit : option Z
}.

(** The [options] argument of [buildFindQuery] and [buildFindOneQuery]. *)
Record FindOptions : Type := {
  o_fields : option (list string);
  o_orderBy : option SqlUtils.OrderBy;
  o_limit : option Z;
  o_offset : option Z;
  o_groupBy : option (list string);
  o_having : option (list (string * JsValue))
}.

(** What [createUpdateQuery] returns. *)
Record UpdateDbQuery : Type := {
  uq_sql : string;
  uq_params : list JsValue;
  uq_filter : list (string * JsValue);
  uq_update : list (string * JsValue)
}.

(** [{ ...acc, ...curr }] *)
Definition spread (acc curr : list (string * JsValue)) : list (string * JsValue) :=
  fold_left (fun a kv => define_property (fst kv) (snd kv) a) curr acc.

(** [limit && ...] on an optional number. *)
Definition limit_truthy (limit0 : option Z) : bool :=
  match limit0 with
  | Some l => negb (l =? 0)%Z
  | None => false
  end.

Section Factory.

Variable databaseType : DatabaseType.

Definition esc (identifier : string) : string :=
  SqlUtils.escapeIdentifier identifier (Some databaseType).

(** [buildSelectQuery(options)], returning [(sql, params)]. *)
Definition buildSelectQuery (options : QueryOptions) : string * list JsValue :=
  let sql0 := "SELECT " in
  let sql1 :=
    match fields options with
    | Some (f :: fs) => sql0 ++ String.concat ", " (map esc (f :: fs))
    | _ => sql0 ++ "*"
    end in
  let sql2 := sql1 ++ " FROM " ++ esc (table options) in
  let '(sql3, params3) :=
    match where_ options with
    | Some (e :: es) =>
        let '(wsql, wparams) := SqlUtils.buildWhereClause (e :: es) databaseType in
        (sql2 ++ " WHERE " ++ wsql, wparams)
    | _ => (sql2, [])
    end in
  let sql4 :=
    match groupBy options with
    | Some (g :: gs) => sql3 ++ " GROUP BY " ++ String.concat ", " (map esc (g :: gs))
    | _ => sql3
    end in
  let '(sql5, params5) :=
    match having options with
    | Some (e :: es) =>
        let '(hsql, hparams) := SqlUtils.buildWhereClause (e :: es) databaseType in
        (sql4 ++ " HAVING " ++ hsql, (params3 ++ hparams)%list)
    | _ => (sql4, params3)
    end in
  let sql6 :=
    match orderBy options with
    | Some ob =>
        let orderByClause := SqlUtils.buildOrderByClause ob in
        if nonempty orderByClause then sql5 ++ " ORDER BY " ++ orderByClause else sql5
    | None => sql5
    end in
  let limitClause := SqlUtils.buildLimitClause (limit options) (offset options) in
  let sql7 := if nonempty limitClause then sql6 ++ " " ++ limitClause else sql6 in
  (sql7, params5).

(** [createFindQuery(params, ...args)]; [tableName] is [args[0]]. *)
Definition createFindQuery (params0 : FindParams) (tableName : option string)
  : Res DbQuery :=
  let tableName1 :=
    match tableName with
    | Some t => if nonempty t then t else "default_table"
    | None => "default_table"
    end in
  let orderBy0 :=
    if truthy (fp_sort params0)
    then Some (SqlUtils.OrderRecord (convertSortToOrderBy (fp_sort params0)))
    else None in
  res_bind
    (match fp_where params0 with
     | Some w =>
         if where_truthy w
         then res_bind (parse databaseType None w) (fun c => Ok (Some c))
         else Ok None
     | None => Ok None
     end)
    (fun whereClause =>
       let queryOptions :=
         {| table := tableName1;
            fields := option_map (map fst) (fp_projection params0);
            where_ := option_map as_record whereClause;
            orderBy := orderBy0;
            limit := fp_limit params0;
            offset := fp_offset params0;
            groupBy := None;
            having := None |} in
       let '(rsql, rparams) := buildSelectQuery queryOptions in
       Ok {| q_sql := rsql;
             q_params := rparams;
             q_filter := whereClause;
             q_options := (fp_limit params0, fp_offset params0,
                           fp_sort params0, fp_projection params0) |}).

(** [fields.map(field => `${escapeIdentifier(field)} = ?`).join(', ')] *)
Definition assignments (fields0 : list string) : string :=
  String.concat ", " (map (fun field => esc field ++ " = ?") fields0).

(** [buildInsertQuery(options)]; [Throw] is its [Error] on missing data. *)
Definition buildInsertQuery (options : InsertOptions) : Res (string * list JsValue) :=
  match i_data options with
  | Some (e :: es) =>
      let data := e :: es in
      let fields0 := map fst data in
      let values := map snd data in
      let sql0 := "INSERT " in
      let sql1 := if i_ignore options then sql0 ++ "IGNORE " else sql0 in
      let sql2 := sql1 ++ "INTO " ++ esc (i_table options) ++ " (" in
      let sql3 := sql2 ++ String.concat ", " (map esc fields0) in
      let sql4 := sql3 ++ ") VALUES (" ++ SqlUtils.qmarks values ++ ")" in
      match i_onDuplicateKeyUpdate options with
      | Some (u :: us) =>
          let upd := u :: us in
          match databaseType with
          | mysql =>
              Ok (sql4 ++ " ON DUPLICATE KEY UPDATE " ++ assignments (map fst upd),
                  (values ++ map snd upd)%list)
          | postgresql =>
              Ok (sql4 ++ " ON CONFLICT DO UPDATE SET " ++ assignments (map fst upd),
                  (values ++ map snd upd)%list)
          | sqlite =>
              Ok (sql4 ++ " ON CONFLICT DO UPDATE SET " ++ assignments (map fst upd),
                  (values ++ map snd upd)%list)
          end
      | _ =>
          match databaseType with
          | postgresql => Ok (sql4 ++ " RETURNING id", values)
          | _ => Ok (sql4, values)
          end
      end
  | _ => Throw
  end.

(** [buildUpdateQuery(options)]; [Throw] is its [Error] on missing data. *)
Definition buildUpdateQuery (options : UpdateOptions) : Res (string * list JsValue) :=
  match u_data options with
  | Some (e :: es) =>
      let data := e :: es in
      let sql0 := "UPDATE " ++ esc (u_table options) ++ " SET " in
      let sql1 := sql0 ++ assignments (map fst data) in
      let '(sql2, params2) :=
        match u_where options with
        | Some (w :: ws) =>
            let '(wsql, wparams) := SqlUtils.buildWhereClause (w :: ws) databaseType in
            (sql1 ++ " WHERE " ++ wsql, (map snd data ++ wparams)%list)
        | _ => (sql1, map snd data)
        end in
      let sql3 :=
        match databaseType with
        | mysql =>
            if limit_truthy (u_limit options)
            then sql2 ++ " LIMIT " ++ match u_limit options with
                                      | Some l => Z_to_string l
                                      | None => EmptyString
                                      end
            else sql2
        | _ => sql2
        end in
      Ok (sql3, params2)
  | _ => Throw
  end.

(** [buildDeleteQuery(options)] *)
Definition buildDeleteQuery (options : DeleteOptions) : string * list JsValue :=
  let sql0 := "DELETE FROM " ++ esc (d_table options) in
  let '(sql1, params1) :=
    match d_where options with
    | Some (w :: ws) =>
        let '(wsql, wparams) := SqlUtils.buildWhereClause (w :: ws) databaseType in
        (sql0 ++ " WHERE " ++ wsql, wparams)
    | _ => (sql0, [])
    end in
  let sql2 :=
    match databaseType with
    | mysql =>
        if limit_truthy (d_limit options)
        then sql1 ++ " LIMIT " ++ match d_limit options with
                                  | Some l => Z_to_string l
                                  | None => EmptyString
                                  end
        else sql1
    | _ => sql1
    end in
  (sql2, params1).

(** [buildCountQuery(options)] *)
Definition buildCountQuery (options : QueryOptions) : string * list JsValue :=
  let sql0 := "SELECT COUNT(*) as count" in
  let sql1 := sql0 ++ " FROM " ++ esc (table options) in
  let '(sql2, params2) :=
    match where_ options with
    | Some (e :: es) =>
        let '(wsql, wparams) := SqlUtils.buildWhereClause (e :: es) databaseType in
        (sql1 ++ " WHERE " ++ wsql, wparams)
    | _ => (sql1, [])
    end in
  let sql3 :=
    match groupBy options with
    | Some (g :: gs) => sql2 ++ " GROUP BY " ++ String.concat ", " (map esc (g :: gs))
    | _ => sql2
    end in
  match having options with
  | Some (e :: es) =>
      let '(hsql, hparams) := SqlUtils.buildWhereClause (e :: es) databaseType in
      (sql3 ++ " HAVING " ++ hsql, (params2 ++ hparams)%list)
  | _ => (sql3, params2)
  end.

(** [buildFindQuery(collection, criteria?, options?)] *)
Definition buildFindQuery (collection : string)
           (criteria : option (list (string * JsValue)))
           (options : option FindOptions) : string * list JsValue :=
  buildSelectQuery
    {| table := collection;
       fields := match options with Some o => o_fields o | None => None end;
       where_ := criteria;
       orderBy := match options with Some o => o_orderBy o | None => None end;
       limit := match options with Some o => o_limit o | None => None end;
       offset := match options with Some o => o_offset o | None => None end;
       groupBy := match options with Some o => o_groupBy o | None => None end;
       having := match options with Some o => o_having o | None => None end |}.

(** [buildFindOneQuery(collection, criteria?, options?)] *)
Definition buildFindOneQuery (collection : string)
           (criteria : option (list (string * JsValue)))
           (options : option FindOptions) : string * list JsValue :=
  buildSelectQuery
    {| table := collection;
       fields := match options with Some o => o_fields o | None => None end;
       where_ := criteria;
       orderBy := match options with Some o => o_orderBy o | None => None end;
       limit := Some 1%Z;
       offset := None;
       groupBy := None;
       having := None |}.

(** The [where.reduce] of [createUpdateQuery]: every clause is parsed and
    spread over the accumulator. *)
Fixpoint combine_where (acc : list (string * JsValue)) (where' : list WhereArg)
  : Res (list (string * JsValue)) :=
  match where' with
  | [] => Ok acc
  | curr :: rest =>
      res_bind (parse databaseType None curr)
               (fun parsed => combine_where (spread acc (as_record parsed)) rest)
  end.

(** [createUpdateQuery(updates, where, methods, ...args)]; [Throw] is the
    [Error] on arrays of different lengths, or one raised further down. *)
Definition createUpdateQuery (updates : list (list (string * JsValue)))
           (where' : list WhereArg) (methods : list JsValue)
           (tableName : option string) : Res UpdateDbQuery :=
  if negb (List.length updates =? List.length where')%nat
     || negb (List.length updates =? List.length methods)%nat
  then Throw
  else
    let tableName1 :=
      match tableName with
      | Some t => if nonempty t then t else "default_table"
      | None => "default_table"
      end in
    let combinedUpdate := fold_left spread updates [] in
    res_bind (combine_where [] where')
      (fun combinedWhere =>
         let queryOptions :=
           {| u_table := tableName1;
              u_data := Some combinedUpdate;
              u_where := match assoc "sql" combinedWhere with
                         | Some _ => Some combinedWhere
                         | None => None
                         end;
              u_limit := None |} in
         res_bind (buildUpdateQuery queryOptions)
           (fun result =>
              Ok {| uq_sql := fst result;
                    uq_params := snd result;
                    uq_filter := combinedWhere;
                    uq_update := combinedUpdate |})).

End Factory.

End SqlQueryFactory.

(* ================================================================= *)
(** ** sql.field-resolver.ts *)

Module SqlFieldResolver.

(** [PropertyInfo] of @soapjs/soap, as the resolver reads it:
    [transformer?.to] and [transformer?.from] are the two optional
    functions. *)
Record PropertyInfo : Type := {
  name : string;
  type : string;
  transformer_to : option (JsValue -> JsValue);
  transformer_from : option (JsValue -> JsValue);
  nullable : option bool
}.

(** The ['sql:field'] metadata a decorated property carries. *)
Record FieldMetadata : Type := {
  domainField : option string;
  m_type : option string;
  m_transformer : option (JsValue -> JsValue);
  reverseTransformer : option (JsValue -> JsValue);
  m_nullable : option bool
}.

(** A model class: the own property names of its prototype, each with its
    metadata when it has any. *)
Definition ModelClass : Type := list (string * option FieldMetadata).

Record FieldMappingConfig : Type := {
  modelClass : option ModelClass;
  modelFieldMappings : option (list (string * PropertyInfo))
}.

(** The mapping table [Record<string, PropertyInfo>]: the own properties of
    a plain object. *)
Definition Mappings : Type := list (string * PropertyInfo).

(** What a plain object inherits from [Object.prototype], each member with
    the [name] it carries: a method is named after its key, [constructor]
    is the function [Object], and [__proto__] is the prototype object
    itself, which has no [name]. *)
Definition object_prototype_names : list (string * option string) :=
  [("constructor", Some "Object");
   ("__defineGetter__", Some "__defineGetter__");
   ("__defineSetter__", Some "__defineSetter__");
   ("hasOwnProperty", Some "hasOwnProperty");
   ("__lookupGetter__", Some "__lookupGetter__");
   ("__lookupSetter__", Some "__lookupSetter__");
   ("isPrototypeOf", Some "isPrototypeOf");
   ("propertyIsEnumerable", Some "propertyIsEnumerable");
   ("toString", Some "toString");
   ("valueOf", Some "valueOf");
   ("__proto__", None);
   ("toLocaleString", Some "toLocaleString")].

(** What [mappings[key]] finds on the mapping table: an own entry, a member
    of [Object.prototype] (with its [name], when it has one), or nothing. *)
Inductive FieldLookup : Type :=
| OwnMapping (mapping : PropertyInfo)
| PrototypeMember (member_name : option string)
| NoMapping.

Definition or_else (o : option string) (d : string) : string :=
  match o with
  | Some s => if s =? EmptyString then d else s
  | None => d
  end.

Definition resolveDecoratorMappings (cls : ModelClass) : Mappings :=
  fold_left
    (fun mappings pm =>
       match snd pm with
       | Some metadata =>
           assoc_set (or_else (domainField metadata) (fst pm))
             {| name := fst pm;
                type := or_else (m_type metadata) "string";
                transformer_to := m_transformer metadata;
                transformer_from := reverseTransformer metadata;
                nullable := m_nullable metadata |}
             mappings
       | None => mappings
       end)
    cls [].

Section Resolver.

Variable config : FieldMappingConfig.
Variable databaseType : DatabaseType.

(** [SqlTransformers.fromSql]: it rests on [JSON.parse] and on date
    parsing, two built-ins; the resolver takes it as given. *)
Variable fromSql : JsValue -> DatabaseType -> JsValue.

(** [SqlTransformers.toSql] *)
Definition toSql : JsValue -> DatabaseType -> JsValue := SqlUtils.toSqlValue.

Definition getFieldMappings : Mappings :=
  match modelClass config with
  | Some cls => resolveDecoratorMappings cls
  | None =>
      match modelFieldMappings config with
      | Some m => m
      | None => []
      end
  end.

(** [getFieldMapping(domainField)] is [mappings[domainField]], a lookup
    that also sees what the mapping object inherits. *)
Definition getFieldMapping (domainField0 : string) : FieldLookup :=
  match assoc domainField0 getFieldMappings with
  | Some mapping => OwnMapping mapping
  | None =>
      match assoc domainField0 object_prototype_names with
      | Some member_name => PrototypeMember member_name
      | None => NoMapping
      end
  end.



(** An inherited member is a truthy [mapping] with no [transformer]. *)
Definition transformToDatabase (domainField0 : string) (value : JsValue) : JsValue :=
  match getFieldMapping domainField0 with
  | NoMapping => toSql value databaseType
  | OwnMapping mapping =>
      match transformer_to mapping with
      | Some to => toSql (to value) databaseType
      | None => toSql value databaseType
      end
  | PrototypeMember _ => toSql value databaseType
  end.


Definition is_undefined (v : JsValue) : bool :=
  match v with JUndefined => true | _ => false end.

Definition transformObjectToDatabase (domainObject : list (string * JsValue))
  : list (string * JsValue) :=
  fold_left
    (fun databaseObject dm =>
       match assoc (fst dm) domainObject with
       | Some value =>
           let transformedValue := transformToDatabase (fst dm) value in
           if negb (is_undefined transformedValue)
           then assoc_set (name (snd dm)) transformedValue databaseObject
           else databaseObject
       | None => databaseObject
       end)
    getFieldMappings [].


(** The errors [validateMappings] reports for one entry. *)
Definition mapping_errors (all : Mappings) (dm : string * PropertyInfo) : list string :=
  let domainField0 := fst dm in
  let mapping := snd dm in
  let missing_name :=
    if name mapping =? EmptyString
    then ["Field mapping for '" ++ domainField0 ++ "' is missing database field name"]
    else [] in
  let missing_type :=
    if type mapping =? EmptyString
    then ["Field mapping for '" ++ domainField0 ++ "' is missing SQL type"]
    else [] in
  let duplicate :=
    if (1 <? List.length (filter (fun m => String.eqb (name (snd m)) (name mapping)) all))%nat
    then ["Duplicate database field name '" ++ name mapping ++ "' found in mappings"]
    else [] in
  List.app missing_name (List.app missing_type duplicate).

(** [validateMappings()] *)
Definition validateMappings : list string :=
  flat_map (mapping_errors getFieldMappings) getFieldMappings.

End Resolver.

End SqlFieldResolver.

(* ================================================================= *)
(** ** sql.transformers.ts *)

Module SqlTransformers.

(** White space as [trim] sees it in 8-bit text: tab, line feed, vertical
    tab, form feed, carriage return, space, no-break space. *)
Definition is_space (c : ascii) : bool :=
  let n := nat_of_ascii c in
  (((9 <=? n) && (n <=? 13)) || (n =? 32) || (n =? 160))%nat.

Fixpoint trim_start (s : string) : string :=
  match s with
  | EmptyString => EmptyString
  | String c rest => if is_space c then trim_start rest else s
  end.

Fixpoint trim_end (s : string) : string :=
  match s with
  | EmptyString => EmptyString
  | String c rest =>
      let rest' := trim_end rest in
      if is_space c && (rest' =? EmptyString) then EmptyString
      else String c rest'
  end.

(** [s.trim()] *)
Definition trim (s : string) : string := trim_end (trim_start s).

(** [s.split(sep)] for a one-character separator. *)
Fixpoint split_on (sep : ascii) (s : string) : list string :=
  match s with
  | EmptyString => [EmptyString]
  | String c rest =>
      if Ascii.eqb c sep then EmptyString :: split_on sep rest
      else match split_on sep rest with
           | x :: xs => String c x :: xs
           | [] => [String c EmptyString]
           end
  end.

(** [arrayToString(value)]: [value.join(',')] is the string coercion of an
    array. *)
Definition arrayToString (value : JsValue) : string :=
  if negb (isArray value) then EmptyString else ToString value.

(** [stringToArray(value)] *)
Definition stringToArray (value : JsValue) : list string :=
  match value with
  | JStr s =>
      filter (fun item => (0 <? String.length item)%nat)
             (map trim (split_on "," s))
  | _ => []
  end.

End SqlTransformers.

(* ================================================================= *)
(** ** Properties stated over the embedding *)

Module Spec.

Import SqlWhereParser.

(** Positional placeholders of a statement: its question marks, the way
    [SqlUtils.convertPlaceholders] and [buildParameterizedQuery] find them
    ([/\?/g]). *)
Definition placeholder_count (s : string) : nat := count_char "?" s.

(** The invariant of a parsed clause: as many placeholders as parameters. *)
Definition balanced (r : ParsedWhereClause) : Prop :=
  placeholder_count (sql r) = List.length (params r).

(** The field names a condition tree mentions. *)
Fixpoint condition_fields (c : ConditionNode) : list string :=
  match c with
  | Condition l _ _ => [l]
  | ConditionWithManyKeys ls _ _ => ls
  | VariedCondition cs _ => flat_map condition_fields cs
  | NestedCondition r => condition_fields r
  end.

(** A name with no question mark in it. *)
Definition plain_name (s : string) : Prop := placeholder_count s = 0.

Definition plain_alias (alias : option string) : Prop :=
  match alias with
  | Some a => plain_name a
  | None => True
  end.

(** [hasConditions] tells whether [sql] is non-empty, and a non-empty [sql]
    starts with the keyword. *)
Definition well_formed (r : ParsedWhereClause) : Prop :=
  (hasConditions r = true <-> sql r <> EmptyString) /\
  (sql r <> EmptyString -> String.prefix "WHERE " (sql r) = true).

(** The operators [createCondition] has a case for. *)
Definition basic_operators : list string :=
  ["eq"; "ne"; "gt"; "gte"; "lt"; "lte"; "in"; "nin"; "like"].

(** An [in]/[nin] operand that is no array, or an empty one. *)
Definition no_members (v : JsValue) : Prop :=
  match v with
  | JArr (_ :: _) => False
  | _ => True
  end.

(** A [between]/[nbetween] operand that is not an array of exactly two
    elements. *)
Definition no_range (v : JsValue) : Prop :=
  match v with
  | JArr [_; _] => False
  | _ => True
  end.

(** *** The LIKE pattern of a regular expression: each [.], [*], [?] is
    replaced, then every bracket group, then every parenthesis group, and
    the result is wrapped in [%].  What may stand inside a group is the
    parameter [inner]. *)

Definition subst_char (c : ascii) : ascii :=
  if Ascii.eqb c "." then "_"%char
  else if Ascii.eqb c "*" then "%"%char
  else if Ascii.eqb c "?" then "_"%char
  else c.

Fixpoint map_chars (f : ascii -> ascii) (s : string) : string :=
  match s with
  | EmptyString => EmptyString
  | String c rest => String (f c) (map_chars f rest)
  end.

(** The inside of a group: characters that [inner] admits, none of them
    the closing character. *)
Fixpoint group_body (inner : ascii -> bool) (close : ascii) (s : string) : Prop :=
  match s with
  | EmptyString => True
  | String c rest =>
      c <> close /\ inner c = true /\ group_body inner close rest
  end.

(** An opening character that starts no group: whatever follows it, cut at
    a closing character, is not the inside of a group. *)
Definition unclosed (inner : ascii -> bool) (close : ascii) (s : string) : Prop :=
  forall body rest, s = body ++ String close rest -> ~ group_body inner close body.

(** [collapsed inner open close s t]: [t] is [s] with every group, read
    from the left, replaced by one underscore. *)
Inductive collapsed (inner : ascii -> bool) (open close : ascii)
  : string -> string -> Prop :=
| collapsed_end : collapsed inner open close EmptyString EmptyString
| collapsed_char c s t :
    c <> open ->
    collapsed inner open close s t ->
    collapsed inner open close (String c s) (String c t)
| collapsed_group body rest t :
    group_body inner close body ->
    collapsed inner open close rest t ->
    collapsed inner open close (String open (body ++ String close rest)) (String "_" t)
| collapsed_open s t :
    unclosed inner close s ->
    collapsed inner open close s t ->
    collapsed inner open close (String open s) (String open t).

Definition rewritten (inner : ascii -> bool) (regex pattern : string) : Prop :=
  exists u v,
    collapsed inner "[" "]" (map_chars subst_char regex) u /\
    collapsed inner "(" ")" u v /\
    pattern = "%" ++ v ++ "%".

(** In the specification's words, every bracket group and every
    parenthesis group: any characters may stand between the opening
    character and the first closing character after it. *)
Definition any_char (c : ascii) : bool := true.

Definition like_pattern (regex pattern : string) : Prop :=
  rewritten any_char regex pattern.

(** The narrower reading: a group lies on one line, no line terminator
    stands between its opening and its closing character. *)
Definition on_one_line (c : ascii) : bool := negb (is_line_terminator c).

Definition like_pattern_of_lines (regex pattern : string) : Prop :=
  rewritten on_one_line regex pattern.

(** A regular expression none of whose characters is a line terminator. *)
Fixpoint single_line (s : string) : Prop :=
  match s with
  | EmptyString => True
  | String c rest => is_line_terminator c = false /\ single_line rest
  end.

(** *** A field reference of the where parser, in words: the identifier
    between backticks, a backslash before each backtick, single quote and
    double quote in it, after [alias.] when a non-empty alias is set. *)











(** *** Vocabulary of the further properties *)

(** The operators of the plain-criteria front end that read nothing but
    their operand. *)
Definition total_operators : list string :=
  ["eq"; "ne"; "gt"; "gte"; "lt"; "lte"; "in"; "nin"; "like"; "nlike";
   "exists"; "nexists"; "between"; "nbetween"].

(** A criteria entry with no combinator: a field with a plain name, whose
    value is a literal or an object of such operators. *)
Definition flat_entry (kv : string * JsValue) : Prop :=
  Js.startsWith "$" (fst kv) = false /\
  plain_name (fst kv) /\
  match snd kv with
  | JObj ops => Forall (fun ov => In (fst ov) total_operators) ops
  | _ => True
  end.

(** Every occurrence of [q] in [s] is one of an adjacent pair. *)
Inductive paired (q : ascii) : string -> Prop :=
| paired_end : paired q EmptyString
| paired_pair s : paired q s -> paired q (String q (String q s))
| paired_other c s : c <> q -> paired q s -> paired q (String c s).

(** No character of [s] satisfies [f]. *)
Fixpoint free_of (f : ascii -> bool) (s : string) : Prop :=
  match s with
  | EmptyString => True
  | String c rest => f c = false /\ free_of f rest
  end.

(** All characters of [s] satisfy [f]. *)
Fixpoint all_chars (f : ascii -> bool) (s : string) : Prop :=
  match s with
  | EmptyString => True
  | String c rest => f c = true /\ all_chars f rest
  end.

Definition is_regex_meta (c : ascii) : bool :=
  Ascii.eqb c "." || Ascii.eqb c "*" || Ascii.eqb c "?".

(** Placeholders of what a dispatcher returns ([null] has none). *)
Definition clause_placeholders (o : option string) : nat :=
  match o with
  | Some s => placeholder_count s
  | None => 0
  end.

(** Placeholders of a list of clauses. *)
Definition clauses_placeholders (l : list string) : nat :=
  list_sum (map placeholder_count l).

(** An operator of [SqlUtils.buildWhereClause] that adds no clause: a
    membership test whose operand is no array. *)
Definition silent_operator (ov : string * JsValue) : Prop :=
  (fst ov = "$in" \/ fst ov = "$nin") /\ isArray (snd ov) = false.

(** An entry that adds no clause: an operator object with such operators
    only, or with none. *)
Definition silent_entry (kv : string * JsValue) : Prop :=
  match snd kv with
  | JObj operators => Forall silent_operator operators
  | _ => False
  end.

(** A clause that cannot be taken for the fallback [1 = 1]: the
    always-false [1 = 0], or a text that does not start with the digit. *)
Definition proper_clause (c : string) : Prop :=
  c <> EmptyString /\ (c = "1 = 0" \/ String.prefix "1" c = false).

(** The quoting character [SqlUtils.escapeIdentifier] uses. *)
Definition quote_of (databaseType : option DatabaseType) : ascii :=
  match databaseType with
  | Some mysql => SqlUtils.backtick
  | _ => SqlUtils.dquote_char
  end.

(** A value a driver can bind under the dialect: not undefined, no plain
    object, no Date, and no boolean outside PostgreSQL. *)
Definition bindable (databaseType : DatabaseType) (v : JsValue) : Prop :=
  match v with
  | JUndefined | JObj _ | JDate _ _ => False
  | JBool _ => databaseType = postgresql
  | _ => True
  end.

(** Names without question marks, for the optional members of the
    statement builders' options. *)
Definition plain_names (l : option (list string)) : Prop :=
  match l with
  | Some names => Forall plain_name names
  | None => True
  end.

Definition plain_record (r : option (list (string * JsValue))) : Prop :=
  match r with
  | Some entries0 => Forall (fun kv => plain_name (fst kv)) entries0
  | None => True
  end.

Definition plain_order (o : option SqlUtils.OrderBy) : Prop :=
  match o with
  | Some (SqlUtils.OrderRecord directions) =>
      Forall (fun fd => plain_name (fst fd) /\ plain_name (snd fd)) directions
  | Some (SqlUtils.OrderFields names) => Forall plain_name names
  | None => True
  end.

Definition plain_query (o : SqlQueryFactory.QueryOptions) : Prop :=
  plain_name (SqlQueryFactory.table o) /\
  plain_names (SqlQueryFactory.fields o) /\
  plain_record (SqlQueryFactory.where_ o) /\
  plain_order (SqlQueryFactory.orderBy o) /\
  plain_names (SqlQueryFactory.groupBy o) /\
  plain_record (SqlQueryFactory.having o).

(** An item that survives [stringToArray] unchanged: not empty, no comma,
    no white space at either end. *)
Definition clean_item (s : string) : Prop :=
  s <> EmptyString /\
  free_of (fun c => Ascii.eqb c ",") s /\
  SqlTransformers.trim s = s.

End Spec.

(* ================================================================= *)
(** ** Proofs *)

Import SqlWhereParser.

(** *** Shape of a parsed clause *)

Lemma nonempty_true_iff (s : string) : nonempty s = true <-> s <> EmptyString.
Proof.
  unfold nonempty. destruct (String.eqb_spec s EmptyString) as [-> | Hne].
  - split; [discriminate | congruence].
  - split; [intros _; exact Hne | reflexivity].
Qed.

Lemma length_pos_nonempty (s : string) :
  (0 <? String.length s)%nat = nonempty s.
Proof. destruct s; reflexivity. Qed.

Lemma prefix_where (s : string) : String.prefix "WHERE " ("WHERE " ++ s) = true.
Proof. cbn. now destruct s. Qed.

Lemma no_conditions_well_formed : Spec.well_formed no_conditions.
Proof.
  split; cbn.
  - split; [discriminate | congruence].
  - congruence.
Qed.

Lemma where_result_well_formed (s : string) (ps : list JsValue) :
  Spec.well_formed (where_result s ps).
Proof.
  unfold where_result, Spec.well_formed.
  destruct s as [| c s];
    cbn [sql hasConditions nonempty negb String.eqb String.length Nat.ltb Nat.leb].
  - split; [split; [discriminate | congruence] | congruence].
  - split; [split; [discriminate | reflexivity] |].
    intros _. apply prefix_where.
Qed.

Lemma criteria_result_well_formed (cs : list string) (ps : list JsValue) :
  Spec.well_formed (criteria_result cs ps).
Proof.
  unfold criteria_result, Spec.well_formed.
  destruct cs as [| c cs]; cbn [List.length Nat.ltb Nat.leb sql hasConditions].
  - split; [split; [discriminate | congruence] | congruence].
  - split; [split; [discriminate | reflexivity] |].
    intros _. apply prefix_where.
Qed.

Lemma parseCondition_well_formed (alias : option string) (c : ConditionNode) :
  Spec.well_formed (parseCondition alias c).
Proof.
  induction c as [l op r | ls op r | cs op | c IH]; cbn [parseCondition].
  - destruct (isCondition _); [| apply where_result_well_formed].
    destruct (createCondition alias l op r []) as [s ps].
    apply where_result_well_formed.
  - destruct (isConditionWithManyKeys _); [| apply where_result_well_formed].
    destruct (createConditions alias ls op r []) as [s ps].
    apply where_result_well_formed.
  - destruct (isVariedCondition _); [| apply where_result_well_formed].
    destruct (List.length _ =? 0)%nat.
    + apply no_conditions_well_formed.
    + apply where_result_well_formed.
  - exact IH.
Qed.

Lemma parse_value_unfold (db : DatabaseType) (alias : option string) (v : JsValue) :
  parse_value db alias v = parse_plain db alias (parse_value db alias) v.
Proof. destruct v; reflexivity. Qed.

Lemma parseCriteria_well_formed (db : DatabaseType) (alias : option string)
      (rec : JsValue -> Res ParsedWhereClause) (v : JsValue) (r : ParsedWhereClause) :
  parseCriteria db alias rec v = Ok r -> Spec.well_formed r.
Proof.
  unfold parseCriteria.
  destruct (negb (truthy v) || negb (is_object_type v)).
  - intros [= <-]. apply no_conditions_well_formed.
  - destruct (match v with
              | JObj props => criteria_props db alias rec props [] []
              | JArr items => criteria_items db alias rec 0 items [] []
              | _ => Ok ([], [])
              end) as [[cs ps] |]; [| discriminate].
    intros [= <-]. apply criteria_result_well_formed.
Qed.

Lemma parse_value_well_formed (db : DatabaseType) (alias : option string)
      (v : JsValue) (r : ParsedWhereClause) :
  parse_value db alias v = Ok r -> Spec.well_formed r.
Proof.
  rewrite parse_value_unfold. unfold parse_plain.
  destruct (negb (truthy v)).
  - intros [= <-]. apply no_conditions_well_formed.
  - destruct (is_object_type v && negb (truthy (build_prop v))).
    + apply parseCriteria_well_formed.
    + intros [= <-]. apply no_conditions_well_formed.
Qed.

Lemma parse_falsy (db : DatabaseType) (alias : option string) (v : JsValue) :
  truthy v = false -> parse db alias (WPlain v) = Ok no_conditions.
Proof.
  intros Hv. cbn [parse]. rewrite parse_value_unfold. unfold parse_plain.
  now rewrite Hv.
Qed.

(** C10. Whatever [parse], [parseCriteria] or [parseCondition] returns has
    [hasConditions] true exactly when [sql] is non-empty, and a non-empty
    [sql] starts with the keyword WHERE followed by a space; [parseCondition]
    always returns; on a falsy input, and on a builder that builds nothing,
    [parse] and [parseCriteria] return exactly the empty clause. *)
Theorem parsed_clause_well_formed
        (db : DatabaseType) (alias : option string) :
  (forall w r, parse db alias w = Ok r -> Spec.well_formed r) /\
  (forall v r,
      parseCriteria db alias (parse_value db alias) v = Ok r -> Spec.well_formed r) /\
  (forall c, Spec.well_formed (parseCondition alias c)) /\
  (forall v, truthy v = false ->
             parse db alias (WPlain v) = Ok no_conditions /\
             parseCriteria db alias (parse_value db alias) v = Ok no_conditions) /\
  parse db alias (WBuilder None) = Ok no_conditions.
Proof.
  repeat split.
  - destruct w as [v | [c |]]; cbn [parse] in H.
    + eapply parse_value_well_formed; eauto.
    + injection H as <-. apply parseCondition_well_formed.
    + injection H as <-. apply no_conditions_well_formed.
  - destruct w as [v | [c |]]; cbn [parse] in H.
    + eapply parse_value_well_formed; eauto.
    + injection H as <-. apply parseCondition_well_formed.
    + injection H as <-. apply no_conditions_well_formed.
  - destruct w as [v | [c |]]; cbn [parse] in H; intros Hs.
    + eapply parse_value_well_formed; eauto.
    + injection H as <-. now apply parseCondition_well_formed.
    + injection H as <-. now apply no_conditions_well_formed.
  - eapply parseCriteria_well_formed; eauto.
  - eapply parseCriteria_well_formed; eauto.
  - intros Hs. eapply parseCriteria_well_formed; eauto.
  - apply parseCondition_well_formed.
  - apply parseCondition_well_formed.
  - apply parseCondition_well_formed.
  - now apply parse_falsy.
  - unfold parseCriteria. now rewrite H.
Qed.

Lemma parsed_clause_well_formed_witness :
  Spec.well_formed
    {| sql := "WHERE `name` = ?"; params := [JStr "John"]; hasConditions := true |} /\
  Spec.well_formed
    {| sql := "WHERE `0` = ?"; params := [JNum 5]; hasConditions := true |} /\
  parse sqlite None (WPlain (JNum 0)) = Ok no_conditions.
Proof.
  pose proof (parsed_clause_well_formed mysql None) as (Hp & Hc & _ & _ & _).
  pose proof (parsed_clause_well_formed sqlite None) as (_ & _ & _ & Hf & _).
  split; [| split].
  - apply (Hp (WPlain (JObj [("name", JStr "John")]))). reflexivity.
  - apply (Hc (JArr [JNum 5])). reflexivity.
  - apply (Hf (JNum 0)). reflexivity.
Defined.

(** *** Placeholders and parameters *)

(** C1. Under [$and] with a single effective sub-condition the
    sub-condition's text is returned before its parameters are appended: the
    clause has one placeholder and no parameter, and the invariant is
    broken.  Under [$not], and under [$and] with two sub-conditions, the
    parameters follow and the invariant holds. *)
Theorem single_subcondition_loses_params :
  let single :=
    {| sql := "WHERE `status` = ?"; params := []; hasConditions := true |} in
  let negated :=
    {| sql := "WHERE NOT (`status` = ?)";
       params := [JStr "active"];
       hasConditions := true |} in
  let both :=
    {| sql := "WHERE (`status` = ?) AND (`age` = ?)";
       params := [JStr "active"; JNum 25];
       hasConditions := true |} in
  parse mysql None
        (WPlain (JObj [("$and", JArr [JObj [("status", JStr "active")]])]))
  = Ok single /\
  ~ Spec.balanced single /\
  parse mysql None (WPlain (JObj [("$not", JObj [("status", JStr "active")])]))
  = Ok negated /\
  Spec.balanced negated /\
  parse mysql None
        (WPlain (JObj [("$and", JArr [JObj [("status", JStr "active")];
                                      JObj [("age", JNum 25)]])]))
  = Ok both /\
  Spec.balanced both.
Proof.
  cbv zeta. repeat split.
  unfold Spec.balanced. cbn. discriminate.
Qed.

(** *** The invariant in the Condition-model front end *)

Lemma count_append (c : ascii) (a b : string) :
  count_char c (a ++ b) = count_char c a + count_char c b.
Proof. induction a as [| x a IH]; cbn; [reflexivity | rewrite IH; lia]. Qed.

Lemma list_sum_cons (x : nat) (l : list nat) : list_sum (x :: l) = x + list_sum l.
Proof. reflexivity. Qed.

Lemma count_concat (c : ascii) (sep : string) (l : list string) :
  count_char c sep = 0 ->
  count_char c (String.concat sep l) = list_sum (map (count_char c) l).
Proof.
  intros Hsep. induction l as [| x l IH]; [reflexivity |].
  destruct l as [| y l].
  - cbn. lia.
  - change (String.concat sep (x :: y :: l))
      with (x ++ sep ++ String.concat sep (y :: l)).
    rewrite !count_append, IH, Hsep. cbn [map]. rewrite !list_sum_cons. lia.
Qed.

Lemma count_placeholders (l : list JsValue) :
  Spec.placeholder_count (placeholders l) = List.length l.
Proof.
  unfold Spec.placeholder_count, placeholders.
  rewrite count_concat by reflexivity. rewrite map_map.
  induction l as [| x l IH]; [reflexivity |].
  cbn [map List.length]. rewrite list_sum_cons, IH. reflexivity.
Qed.

Lemma count_backslash_quotes (s : string) :
  count_char "?" (backslash_quotes s) = count_char "?" s.
Proof.
  induction s as [| c s IH]; [reflexivity |].
  cbn [backslash_quotes]. destruct (is_quote_char c) eqn:Hq; cbn; now rewrite IH.
Qed.

Lemma count_field_reference (alias : option string) (field : string) :
  Spec.plain_alias alias -> Spec.plain_name field ->
  Spec.placeholder_count (_getFieldReference alias field) = 0.
Proof.
  unfold Spec.plain_alias, Spec.plain_name, Spec.placeholder_count.
  intros Ha Hf. unfold _getFieldReference, _escapeIdentifier.
  destruct alias as [a |]; [destruct (nonempty a) |];
    rewrite ?count_append, ?count_backslash_quotes, ?Ha, ?Hf; reflexivity.
Qed.

Lemma createCondition_balanced
      (alias : option string) (field op : string) (v : JsValue)
      (ps : list JsValue) :
  Spec.plain_alias alias -> Spec.plain_name field ->
  Spec.placeholder_count (fst (createCondition alias field op v ps))
  + List.length ps
  = List.length (snd (createCondition alias field op v ps)).
Proof.
  intros Ha Hf. pose proof (count_field_reference alias field Ha Hf) as Hr.
  unfold Spec.placeholder_count in *. unfold createCondition.
  repeat match goal with
         | |- context [if ?b then _ else _] => destruct b
         end;
    cbn [fst snd];
    rewrite ?count_append, ?length_app, ?Hr;
    try (pose proof (count_placeholders (items_of v)) as Hp;
         unfold Spec.placeholder_count in Hp; rewrite Hp);
    cbn; lia.
Qed.

Lemma createConditions_balanced
      (alias : option string) (keys : list string) (op : string) (v : JsValue)
      (ps : list JsValue) :
  Spec.plain_alias alias -> Forall Spec.plain_name keys ->
  list_sum (map Spec.placeholder_count
                (fst (createConditions alias keys op v ps)))
  + List.length ps
  = List.length (snd (createConditions alias keys op v ps)).
Proof.
  intros Ha Hk. revert ps. induction Hk as [| key keys Hkey _ IH]; intros ps.
  - reflexivity.
  - cbn [createConditions].
    pose proof (createCondition_balanced alias key op v ps Ha Hkey) as H1.
    destruct (createCondition alias key op v ps) as [c ps1]. cbn [fst snd] in H1.
    specialize (IH ps1).
    destruct (createConditions alias keys op v ps1) as [cs ps2].
    cbn [fst snd map] in *. rewrite list_sum_cons. lia.
Qed.

Lemma where_result_balanced (s : string) (ps : list JsValue) :
  Spec.placeholder_count s = List.length ps -> Spec.balanced (where_result s ps).
Proof.
  unfold Spec.balanced, where_result, Spec.placeholder_count. cbn [sql params].
  destruct s; cbn [nonempty negb String.eqb]; [trivial |].
  now rewrite count_append.
Qed.

Lemma prefix_drop (p s : string) :
  String.prefix p s = true -> s = p ++ drop (String.length p) s.
Proof.
  revert s. induction p as [| c p IH]; intros s; [reflexivity |].
  destruct s as [| d s]; cbn; [discriminate |].
  destruct (ascii_dec c d) as [-> | ?]; [| discriminate].
  intros H. f_equal. now apply IH.
Qed.

Lemma replace_first_prefix (pat rep s : string) :
  String.prefix pat s = true ->
  replace_first pat rep s = rep ++ drop (String.length pat) s.
Proof. intros H. destruct s; cbn [replace_first]; now rewrite H. Qed.

Lemma count_strip_where (r : ParsedWhereClause) :
  Spec.well_formed r -> hasConditions r = true ->
  Spec.placeholder_count (strip_where r) = Spec.placeholder_count (sql r).
Proof.
  intros [Hiff Hpre] Hc. apply Hiff in Hc. specialize (Hpre Hc).
  unfold strip_where, Spec.placeholder_count.
  rewrite (replace_first_prefix _ _ _ Hpre).
  rewrite (prefix_drop _ _ Hpre) at 2. now rewrite !count_append.
Qed.

Lemma ConditionNode_nested_ind (P : ConditionNode -> Prop) :
  (forall l op r, P (Condition l op r)) ->
  (forall ls op r, P (ConditionWithManyKeys ls op r)) ->
  (forall cs op, Forall P cs -> P (VariedCondition cs op)) ->
  (forall c, P c -> P (NestedCondition c)) ->
  forall c, P c.
Proof.
  intros HC HM HV HN.
  exact (fix IH (c : ConditionNode) : P c :=
           match c with
           | Condition l op r => HC l op r
           | ConditionWithManyKeys ls op r => HM ls op r
           | VariedCondition cs op =>
               HV cs op
                  ((fix go (l : list ConditionNode) : Forall P l :=
                      match l with
                      | [] => Forall_nil P
                      | x :: xs => Forall_cons x (IH x) (go xs)
                      end) cs)
           | NestedCondition r => HN r (IH r)
           end).
Qed.

Lemma varied_parts_balanced (sep : string) (rs : list ParsedWhereClause) :
  Spec.placeholder_count sep = 0 ->
  Forall (fun r => Spec.balanced r /\ Spec.well_formed r /\ hasConditions r = true) rs ->
  Spec.placeholder_count
    (String.concat sep (map (fun r => "(" ++ strip_where r ++ ")") rs))
  = List.length (flat_map params rs).
Proof.
  intros Hsep Hrs. unfold Spec.placeholder_count in *.
  rewrite count_concat by exact Hsep. rewrite map_map.
  induction Hrs as [| r rs (Hb & Hw & Hc) _ IH]; [reflexivity |].
  cbn [map flat_map]. rewrite list_sum_cons, length_app, <- IH.
  rewrite !count_append.
  pose proof (count_strip_where r Hw Hc) as Hs.
  unfold Spec.balanced in Hb. unfold Spec.placeholder_count in *.
  rewrite Hs, Hb. cbn. lia.
Qed.

(** X1. In the Condition-model front end the invariant holds at every
    nesting depth, for field names and an alias that hold no question
    mark. *)
Lemma condition_model_balanced (alias : option string) (c : ConditionNode) :
  Spec.plain_alias alias ->
  Forall Spec.plain_name (Spec.condition_fields c) ->
  Spec.balanced (parseCondition alias c).
Proof.
  intros Ha. induction c as [l op r | ls op r | cs op IH | c IH]
    using ConditionNode_nested_ind; intros Hf; cbn [parseCondition].
  - destruct (isCondition _); [| now apply where_result_balanced].
    pose proof (createCondition_balanced alias l op r [] Ha) as H.
    cbn [Spec.condition_fields] in Hf. inversion Hf; subst.
    destruct (createCondition alias l op r []) as [s ps]. cbn [fst snd] in H.
    apply where_result_balanced. rewrite <- H by assumption. cbn. lia.
  - destruct (isConditionWithManyKeys _); [| now apply where_result_balanced].
    pose proof (createConditions_balanced alias ls op r [] Ha Hf) as H.
    destruct (createConditions alias ls op r []) as [cs ps]. cbn [fst snd] in H.
    apply where_result_balanced. unfold Spec.placeholder_count in *.
    rewrite count_concat by reflexivity. rewrite <- H.
    cbn [List.length]. now rewrite Nat.add_0_r.
  - destruct (isVariedCondition _); [| now apply where_result_balanced].
    destruct (List.length _ =? 0)%nat; [reflexivity |].
    apply where_result_balanced. apply varied_parts_balanced.
    + now destruct (String.eqb op "and").
    + cbn [Spec.condition_fields] in Hf.
      clear -IH Hf. induction IH as [| c cs Hc _ IHcs]; cbn; [constructor |].
      cbn [flat_map] in Hf. apply Forall_app in Hf. destruct Hf as [Hf1 Hf2].
      destruct (hasConditions (parseCondition alias c)) eqn:Hh.
      * constructor; [| now apply IHcs].
        repeat split; auto; apply parseCondition_well_formed.
      * now apply IHcs.
  - apply IH. exact Hf.
Qed.

(** *** The two front ends *)

(** C2. The operator [nlike] on the same field and value: the
    Condition-model front end has no case for it and emits an equality, the
    plain-criteria front end emits NOT LIKE.  The same happens for
    [between]. *)
Theorem front_ends_disagree_on_nlike :
  parse mysql None (WBuilder (Some (Condition "name" "nlike" (JStr "John%"))))
  = Ok {| sql := "WHERE `name` = ?"; params := [JStr "John%"]; hasConditions := true |} /\
  parse mysql None (WPlain (JObj [("name", JObj [("nlike", JStr "John%")])]))
  = Ok {| sql := "WHERE `name` NOT LIKE ?";
          params := [JStr "John%"];
          hasConditions := true |} /\
  parse mysql None
        (WBuilder (Some (Condition "age" "between" (JArr [JNum 18; JNum 65]))))
  = Ok {| sql := "WHERE `age` = ?";
          params := [JArr [JNum 18; JNum 65]];
          hasConditions := true |} /\
  parse mysql None (WPlain (JObj [("age", JObj [("between", JArr [JNum 18; JNum 65])])]))
  = Ok {| sql := "WHERE `age` BETWEEN ? AND ?";
          params := [JNum 18; JNum 65];
          hasConditions := true |}.
Proof. repeat split. Qed.

(** C7. In the plain-criteria front end the operator form of [ne] (and of
    [eq]) binds a null operand as a parameter; the literal form and the
    Condition-model front end emit IS NULL and IS NOT NULL with no
    parameter. *)
Theorem plain_ne_null_binds_parameter :
  parse mysql None (WPlain (JObj [("deleted_at", JObj [("ne", JNull)])]))
  = Ok {| sql := "WHERE `deleted_at` != ?"; params := [JNull]; hasConditions := true |} /\
  parse mysql None (WPlain (JObj [("deleted_at", JObj [("eq", JUndefined)])]))
  = Ok {| sql := "WHERE `deleted_at` = ?";
          params := [JUndefined];
          hasConditions := true |} /\
  parse mysql None (WBuilder (Some (Condition "deleted_at" "ne" JNull)))
  = Ok {| sql := "WHERE `deleted_at` IS NOT NULL"; params := []; hasConditions := true |} /\
  parse mysql None (WPlain (JObj [("deleted_at", JNull)]))
  = Ok {| sql := "WHERE `deleted_at` IS NULL"; params := []; hasConditions := true |}.
Proof. repeat split. Qed.

(** Where null and undefined are handled: the literal form of the
    plain-criteria front end and the [eq] and [ne] cases of the
    Condition-model front end, in every dialect. *)
Lemma null_and_undefined_handled
      (alias : option string) (field : string) (v : JsValue) (ps : list JsValue) :
  is_nullish v = true ->
  _parseSimpleCondition alias field v ps
  = Ok (_getFieldReference alias field ++ " IS NULL", ps) /\
  createCondition alias field "eq" v ps
  = (_getFieldReference alias field ++ " IS NULL", ps) /\
  createCondition alias field "ne" v ps
  = (_getFieldReference alias field ++ " IS NOT NULL", ps).
Proof.
  intros Hv. destruct v; try discriminate; repeat split.
Qed.

(** *** Statement factory *)

Import SqlQueryFactory.

(** What [SqlUtils.buildWhereClause] makes of a parsed clause handed over
    as its [conditions]: the clause's three properties become three column
    tests. *)
Lemma buildWhereClause_of_parsed_clause (db : DatabaseType) (c : ParsedWhereClause) :
  SqlUtils.buildWhereClause (as_record c) db
  = (SqlUtils.escapeIdentifier "sql" (Some db) ++ " = ? AND " ++
     (match params c with
      | [] => "1 = 0"
      | _ => SqlUtils.escapeIdentifier "params" (Some db) ++
             " IN (" ++ SqlUtils.qmarks (params c) ++ ")"
      end) ++ " AND " ++
     SqlUtils.escapeIdentifier "hasConditions" (Some db) ++ " = ?",
     (JStr (sql c) :: params c ++
      [SqlUtils.toSqlValue (JBool (hasConditions c)) db])%list).
Proof.
  destruct c as [s ps hc]. unfold SqlUtils.buildWhereClause, as_record.
  cbn [sql params hasConditions fold_left SqlUtils.where_entry].
  destruct ps as [| p ps]; cbn [List.length Nat.eqb SqlUtils.snoc app Nat.ltb Nat.leb];
    destruct db; reflexivity.
Qed.

(** C3. A find request whose where input translates to the predicate
    [`name` = ?] with the parameter list [John]: the statement's WHERE
    fragment tests three columns named after the properties of the parsed
    clause, and the parameter array starts with the clause's text. *)
Theorem createFindQuery_where_fragment :
  parse mysql None (WPlain (JObj [("name", JStr "John")]))
  = Ok {| sql := "WHERE `name` = ?"; params := [JStr "John"]; hasConditions := true |} /\
  createFindQuery mysql
    {| fp_limit := None; fp_offset := None; fp_sort := JUndefined;
       fp_where := Some (WPlain (JObj [("name", JStr "John")]));
       fp_projection := None |}
    (Some "users")
  = Ok {| q_sql := "SELECT * FROM `users` WHERE `sql` = ? AND `params` IN (?) AND `hasConditions` = ?";
          q_params := [JStr "WHERE `name` = ?"; JStr "John"; JNum 1];
          q_filter := Some {| sql := "WHERE `name` = ?";
                              params := [JStr "John"];
                              hasConditions := true |};
          q_options := (None, None, JUndefined, None) |}.
Proof. split; reflexivity. Qed.


(** *** Unknown operators *)

Ltac split_orb :=
  repeat match goal with
         | H : (_ || _) = false |- _ =>
             apply orb_false_elim in H; destruct H
         end.

Ltac rewrite_eqbs :=
  repeat match goal with
         | H : String.eqb _ _ = false |- _ => rewrite H; clear H
         end.

Lemma unknown_field_operator
      (db : DatabaseType) (alias : option string) (field op : string)
      (v : JsValue) (ps : list JsValue) :
  is_ComparisonOperator op = false ->
  _parseFieldOperator db alias field op v ps = Ok (None, ps).
Proof.
  unfold is_ComparisonOperator, ComparisonOperator. cbn [existsb]. intros H.
  split_orb. unfold _parseFieldOperator. rewrite_eqbs. reflexivity.
Qed.

Lemma unknown_condition_operator
      (alias : option string) (field op : string) (v : JsValue) (ps : list JsValue) :
  is_ComparisonOperator op = false ->
  createCondition alias field op v ps
  = (_getFieldReference alias field ++ " = ?", (ps ++ [v])%list).
Proof.
  unfold is_ComparisonOperator, ComparisonOperator. cbn [existsb]. intros H.
  split_orb. unfold createCondition. rewrite_eqbs. reflexivity.
Qed.

Lemma getFieldReference_nonempty (alias : option string) (field s : string) :
  nonempty (_getFieldReference alias field ++ s) = true.
Proof.
  unfold _getFieldReference, _escapeIdentifier.
  destruct alias as [a |]; [destruct a as [| c a] |]; reflexivity.
Qed.

(** A key that starts with a dollar sign and is none of the four
    combinators yields no clause either. *)
Lemma unknown_combinator
      (rec : JsValue -> Res ParsedWhereClause) (key : string)
      (v : JsValue) (ps : list JsValue) :
  existsb (String.eqb key) ["$and"; "$or"; "$not"; "$nor"] = false ->
  _parseOperatorCondition rec key v ps = Ok (None, ps).
Proof.
  cbn [existsb]. intros H. split_orb.
  unfold _parseOperatorCondition. rewrite_eqbs. reflexivity.
Qed.

(** C4, as the code has it. An operator outside [ComparisonOperator]: the
    plain-criteria front end emits no clause, leaves the parameters as they
    are and does not raise, so a criteria object with only that operator
    parses to the empty clause; the Condition-model front end falls back to
    an equality on the field and binds the value. *)
Theorem unknown_operator_translation
        (db : DatabaseType) (alias : option string) (field op : string)
        (v : JsValue) (ps : list JsValue) :
  is_ComparisonOperator op = false ->
  _parseFieldOperator db alias field op v ps = Ok (None, ps) /\
  (startsWith "$" field = false ->
   parse db alias (WPlain (JObj [(field, JObj [(op, v)])])) = Ok no_conditions) /\
  createCondition alias field op v ps
  = (_getFieldReference alias field ++ " = ?", (ps ++ [v])%list) /\
  (field <> EmptyString -> op <> EmptyString ->
   parse db alias (WBuilder (Some (Condition field op v)))
   = Ok {| sql := "WHERE " ++ _getFieldReference alias field ++ " = ?";
           params := [v];
           hasConditions := true |}).
Proof.
  intros Hop. split; [| split; [| split]].
  - now apply unknown_field_operator.
  - intros Hfield. cbn [parse]. rewrite parse_value_unfold.
    unfold parse_plain, build_prop, get_prop. cbn [truthy negb is_object_type typeof assoc].
    destruct (String.eqb "build" field); cbn [truthy negb andb]; [reflexivity |].
    unfold parseCriteria.
    cbn [truthy negb is_object_type typeof orb criteria_props].
    unfold bind at 1. unfold _parseCondition. rewrite Hfield.
    cbn [is_object_type typeof is_nullish isArray negb andb].
    unfold _parseFieldOperators, entries. cbn [fieldOperators_loop].
    unfold bind. rewrite (unknown_field_operator db alias field op v [] Hop).
    reflexivity.
  - now apply unknown_condition_operator.
  - intros Hf Ho. cbn [parse parseCondition isCondition].
    apply nonempty_true_iff in Hf, Ho. rewrite Hf, Ho. cbn [andb].
    rewrite (unknown_condition_operator alias field op v [] Hop).
    unfold where_result. rewrite length_pos_nonempty.
    now rewrite getFieldReference_nonempty.
Qed.

Lemma unknown_operator_translation_witness :
  _parseFieldOperator mysql None "age" "unknown" (JNum 25) [] = Ok (None, []) /\
  parse mysql None (WPlain (JObj [("age", JObj [("unknown", JNum 25)])]))
  = Ok no_conditions /\
  createCondition None "age" "unknown" (JNum 25) [] = ("`age` = ?", [JNum 25]) /\
  parse mysql None (WBuilder (Some (Condition "age" "unknown" (JNum 25))))
  = Ok {| sql := "WHERE `age` = ?"; params := [JNum 25]; hasConditions := true |}.
Proof.
  pose proof (unknown_operator_translation mysql None "age" "unknown" (JNum 25) []
                eq_refl) as (H1 & H2 & H3 & H4).
  split; [exact H1 | split; [| split]].
  - apply H2. reflexivity.
  - exact H3.
  - apply H4; discriminate.
Defined.

(** C4 as stated fails in the Condition-model front end: the unknown
    operator yields a clause and a parameter. *)
Lemma unknown_operator_condition_model_emits_clause :
  parse mysql None (WBuilder (Some (Condition "age" "unknown" (JNum 25))))
  = Ok {| sql := "WHERE `age` = ?"; params := [JNum 25]; hasConditions := true |} /\
  parse mysql None (WBuilder (Some (Condition "age" "unknown" (JNum 25))))
  <> Ok no_conditions.
Proof. split; [reflexivity | discriminate]. Qed.

(** *** Field references *)













(** *** Composition of a whole clause *)









(** The plain-criteria front end: [rec] is the parser the combinators call
    on their sub-criteria. *)
Section Combinators.

Variable db : DatabaseType.
Variable alias : option string.
Variable rec : JsValue -> Res ParsedWhereClause.










End Combinators.





(** *** Empty memberships and malformed ranges *)

Lemma no_members_test (v : JsValue) :
  Spec.no_members v ->
  negb (isArray v) || (List.length (items_of v) =? 0)%nat = true.
Proof. destruct v as [| | | | | | | [| x xs] |]; cbn; tauto. Qed.

Lemma no_range_test (v : JsValue) :
  Spec.no_range v ->
  negb (isArray v) || negb (List.length (items_of v) =? 2)%nat = true.
Proof.
  destruct v as [| | | | | | | [| x [| y [| z zs]]] |]; cbn; tauto.
Qed.

Lemma parse_single_operator
      (db : DatabaseType) (alias : option string) (field op : string)
      (v : JsValue) (s : string) (ps : list JsValue) :
  startsWith "$" field = false ->
  field <> "build" ->
  nonempty s = true ->
  _parseFieldOperator db alias field op v [] = Ok (Some s, ps) ->
  parse db alias (WPlain (JObj [(field, JObj [(op, v)])]))
  = Ok {| sql := "WHERE " ++ s; params := ps; hasConditions := true |}.
Proof.
  intros Hfield Hbuild Hs Hop. cbn [parse]. rewrite parse_value_unfold.
  unfold parse_plain, build_prop, get_prop.
  cbn [truthy negb is_object_type typeof assoc].
  destruct (String.eqb_spec "build" field) as [E | _]; [congruence |].
  cbn [truthy negb andb]. unfold parseCriteria.
  cbn [truthy negb is_object_type typeof orb criteria_props].
  unfold bind at 1. unfold _parseCondition. rewrite Hfield.
  cbn [is_object_type typeof is_nullish isArray negb andb].
  unfold _parseFieldOperators, entries. cbn [fieldOperators_loop].
  unfold bind. rewrite Hop.
  cbn [push_condition]. rewrite Hs. cbn [ret app List.length Nat.ltb Nat.leb].
  cbn [String.concat push_condition nonempty]. rewrite Hs.
  reflexivity.
Qed.

(** X23. In the plain-criteria front end an [in] operand that is no array
    or an empty one gives [1=0], and [nin] gives [1=1]; a [between] operand
    that is not an array of exactly two elements gives [1=0], and
    [nbetween] gives [1=1]; the parameters stay as they were and nothing is
    raised.  A criteria object holding just that operator parses to the
    predicate after WHERE, with an empty parameter list.  [createCondition]
    does the same for [in] and [nin], and so does a parsed condition of a
    builder. *)
Theorem empty_membership_and_malformed_range
        (db : DatabaseType) (alias : option string) (field : string)
        (v : JsValue) (ps : list JsValue) :
  (Spec.no_members v ->
   _parseFieldOperator db alias field "in" v ps = Ok (Some "1=0", ps) /\
   _parseFieldOperator db alias field "nin" v ps = Ok (Some "1=1", ps) /\
   createCondition alias field "in" v ps = ("1=0", ps) /\
   createCondition alias field "nin" v ps = ("1=1", ps)) /\
  (Spec.no_range v ->
   _parseFieldOperator db alias field "between" v ps = Ok (Some "1=0", ps) /\
   _parseFieldOperator db alias field "nbetween" v ps = Ok (Some "1=1", ps)) /\
  (startsWith "$" field = false -> field <> "build" ->
   (Spec.no_members v ->
    parse db alias (WPlain (JObj [(field, JObj [("in", v)])]))
    = Ok {| sql := "WHERE 1=0"; params := []; hasConditions := true |} /\
    parse db alias (WPlain (JObj [(field, JObj [("nin", v)])]))
    = Ok {| sql := "WHERE 1=1"; params := []; hasConditions := true |}) /\
   (Spec.no_range v ->
    parse db alias (WPlain (JObj [(field, JObj [("between", v)])]))
    = Ok {| sql := "WHERE 1=0"; params := []; hasConditions := true |} /\
    parse db alias (WPlain (JObj [(field, JObj [("nbetween", v)])]))
    = Ok {| sql := "WHERE 1=1"; params := []; hasConditions := true |})) /\
  (field <> EmptyString -> Spec.no_members v ->
   parse db alias (WBuilder (Some (Condition field "in" v)))
   = Ok {| sql := "WHERE 1=0"; params := []; hasConditions := true |} /\
   parse db alias (WBuilder (Some (Condition field "nin" v)))
   = Ok {| sql := "WHERE 1=1"; params := []; hasConditions := true |}).
Proof.
  assert (Hin : forall qs, Spec.no_members v ->
            _parseFieldOperator db alias field "in" v qs = Ok (Some "1=0", qs) /\
            _parseFieldOperator db alias field "nin" v qs = Ok (Some "1=1", qs)).
  { intros qs Hv. apply no_members_test in Hv.
    unfold _parseFieldOperator; cbn [String.eqb Ascii.eqb Bool.eqb].
    unfold some, bind, _buildInCondition. rewrite Hv. now split. }
  assert (Hbt : forall qs, Spec.no_range v ->
            _parseFieldOperator db alias field "between" v qs = Ok (Some "1=0", qs) /\
            _parseFieldOperator db alias field "nbetween" v qs = Ok (Some "1=1", qs)).
  { intros qs Hv. apply no_range_test in Hv.
    unfold _parseFieldOperator; cbn [String.eqb Ascii.eqb Bool.eqb].
    unfold some, bind, _buildBetweenCondition. rewrite Hv. now split. }
  split; [| split; [| split]].
  4:{ intros Hfield Hv. apply nonempty_true_iff in Hfield.
      apply no_members_test in Hv.
      cbn [parse parseCondition isCondition]. rewrite Hfield.
      unfold createCondition. cbn [String.eqb Ascii.eqb Bool.eqb nonempty negb andb].
      rewrite Hv. split; reflexivity. }
  - intros Hv. destruct (Hin ps Hv) as [H1 H2]. repeat split; trivial.
    + apply no_members_test in Hv. unfold createCondition.
      cbn [String.eqb Ascii.eqb Bool.eqb]. now rewrite Hv.
    + apply no_members_test in Hv. unfold createCondition.
      cbn [String.eqb Ascii.eqb Bool.eqb]. now rewrite Hv.
  - apply Hbt.
  - intros Hfield Hbuild. split; intros Hv.
    + destruct (Hin [] Hv) as [H1 H2].
      split; apply parse_single_operator; trivial.
    + destruct (Hbt [] Hv) as [H1 H2].
      split; apply parse_single_operator; trivial.
Qed.

Lemma empty_membership_and_malformed_range_witness :
  _parseFieldOperator mysql None "status" "in" (JArr []) [] = Ok (Some "1=0", []) /\
  _parseFieldOperator mysql None "status" "nbetween" (JArr []) []
  = Ok (Some "1=1", []) /\
  parse mysql None (WPlain (JObj [("status", JObj [("nin", JArr [])])]))
  = Ok {| sql := "WHERE 1=1"; params := []; hasConditions := true |} /\
  parse mysql None (WPlain (JObj [("status", JObj [("between", JArr [])])]))
  = Ok {| sql := "WHERE 1=0"; params := []; hasConditions := true |}.
Proof.
  pose proof (empty_membership_and_malformed_range mysql None "status" (JArr []) [])
    as (Hin & Hbt & Hparse & _).
  assert (Hb : "status" <> "build") by discriminate.
  destruct (Hparse eq_refl Hb) as (Hpin & Hpbt).
  split; [exact (proj1 (Hin I)) | split; [exact (proj2 (Hbt I)) | split]].
  - exact (proj2 (Hpin I)).
  - exact (proj1 (Hpbt I)).
Defined.

(** C6. A malformed range handed over by a [Where] builder: the
    Condition-model front end has no case for [between] and [nbetween], so
    the operand is bound whole under an equality, where the plain-criteria
    front end gives the constant predicates [1=0] and [1=1] with no
    parameter.  The empty membership is handled alike in both front
    ends. *)
Theorem malformed_range_in_condition_model_binds_operand :
  parse mysql None (WBuilder (Some (Condition "age" "between" (JArr [JNum 18]))))
  = Ok {| sql := "WHERE `age` = ?"; params := [JArr [JNum 18]]; hasConditions := true |} /\
  parse mysql None (WPlain (JObj [("age", JObj [("between", JArr [JNum 18])])]))
  = Ok {| sql := "WHERE 1=0"; params := []; hasConditions := true |} /\
  parse mysql None (WBuilder (Some (Condition "age" "nbetween" (JStr "18-65"))))
  = Ok {| sql := "WHERE `age` = ?"; params := [JStr "18-65"]; hasConditions := true |} /\
  parse mysql None (WPlain (JObj [("age", JObj [("nbetween", JStr "18-65")])]))
  = Ok {| sql := "WHERE 1=1"; params := []; hasConditions := true |} /\
  parse mysql None (WBuilder (Some (Condition "status" "in" (JArr []))))
  = Ok {| sql := "WHERE 1=0"; params := []; hasConditions := true |} /\
  parse mysql None (WPlain (JObj [("status", JObj [("in", JArr [])])]))
  = Ok {| sql := "WHERE 1=0"; params := []; hasConditions := true |}.
Proof. repeat split. Qed.

(** *** Agreement of the front ends on the basic operators *)

Lemma parse_condition_leaf
      (db : DatabaseType) (alias : option string) (field op : string)
      (v : JsValue) (s : string) (ps : list JsValue) :
  field <> EmptyString -> op <> EmptyString ->
  nonempty s = true ->
  createCondition alias field op v [] = (s, ps) ->
  parse db alias (WBuilder (Some (Condition field op v)))
  = Ok {| sql := "WHERE " ++ s; params := ps; hasConditions := true |}.
Proof.
  intros Hf Ho Hs Hc. cbn [parse parseCondition isCondition].
  apply nonempty_true_iff in Hf, Ho. rewrite Hf, Ho. cbn [andb].
  rewrite Hc. unfold where_result. rewrite length_pos_nonempty. now rewrite Hs.
Qed.

Lemma basic_operator_fragments
      (db : DatabaseType) (alias : option string) (field op : string)
      (v : JsValue) :
  In op Spec.basic_operators ->
  is_nullish v = false ->
  exists s ps,
    nonempty s = true /\
    _parseFieldOperator db alias field op v [] = Ok (Some s, ps) /\
    createCondition alias field op v [] = (s, ps).
Proof.
  intros Hop Hv. unfold Spec.basic_operators in Hop. cbn [In] in Hop.
  assert (Hne : forall t, nonempty (_getFieldReference alias field ++ t) = true)
    by apply getFieldReference_nonempty.
  unfold _parseFieldOperator, createCondition.
  repeat (destruct Hop as [<- | Hop]); [.. | contradiction];
    cbn [String.eqb Ascii.eqb Bool.eqb]; rewrite ?Hv;
    unfold some, bind, _buildComparison, _buildLikeCondition, _buildInCondition,
      push, ret; cbn [app].
  all: try (eexists; eexists; split; [apply Hne |]; split; reflexivity).
  all: destruct (negb (isArray v) || (List.length (items_of v) =? 0)%nat);
    eexists; eexists; (split; [| split; reflexivity]); try reflexivity; apply Hne.
Qed.

(** X2. Where the two front ends do agree: the nine operators
    [createCondition] has a case for, on an operand that is neither null
    nor undefined. *)
Lemma front_ends_agree_on_basic_operators
      (db : DatabaseType) (alias : option string) (field op : string)
      (v : JsValue) :
  In op Spec.basic_operators ->
  is_nullish v = false ->
  startsWith "$" field = false -> field <> "build" -> field <> EmptyString ->
  parse db alias (WPlain (JObj [(field, JObj [(op, v)])]))
  = parse db alias (WBuilder (Some (Condition field op v))).
Proof.
  intros Hop Hv Hdollar Hbuild Hfield.
  destruct (basic_operator_fragments db alias field op v Hop Hv)
    as (s & ps & Hs & Hplain & Hcond).
  rewrite (parse_single_operator db alias field op v s ps); trivial.
  rewrite (parse_condition_leaf db alias field op v s ps); trivial.
  unfold Spec.basic_operators in Hop. cbn [In] in Hop.
  repeat (destruct Hop as [<- | Hop]); try discriminate. contradiction.
Qed.

(** *** Regular expressions rewritten to LIKE patterns *)

Lemma append_assoc (a b c : string) : (a ++ b) ++ c = a ++ (b ++ c).
Proof. induction a as [| x a IH]; cbn; congruence. Qed.

Lemma append_length (a b : string) :
  String.length (a ++ b) = String.length a + String.length b.
Proof. induction a as [| x a IH]; cbn; congruence. Qed.

Section Groups.

Variable inner : ascii -> bool.
Variables open close : ascii.

Lemma skip_prefix (rep pre rest : string) :
  replace_groups_from open close rep (String.length pre) (pre ++ rest)
  = replace_groups_from open close rep 0 rest.
Proof.
  induction pre as [| c pre IH]; cbn [String.length append].
  - destruct rest; reflexivity.
  - cbn [replace_groups_from]. exact IH.
Qed.

Lemma close_index_Some (s : string) (k : nat) :
  close_index close s = Some k ->
  exists body rest,
    s = body ++ String close rest /\ String.length body = k /\
    Spec.group_body Spec.on_one_line close body.
Proof.
  revert k. induction s as [| c s IH]; intros k; cbn [close_index]; [discriminate |].
  destruct (Ascii.eqb_spec c close) as [-> | Hc].
  - intros [= <-]. exists EmptyString, s. now repeat split.
  - destruct (is_line_terminator c) eqn:Hlt; [discriminate |].
    destruct (close_index close s) as [j |] eqn:Hj; [| discriminate].
    intros [= <-]. destruct (IH j eq_refl) as (body & rest & -> & Hlen & Hbody).
    exists (String c body), rest. cbn. unfold Spec.on_one_line at 1.
    rewrite Hlt. repeat split; auto.
Qed.

Lemma close_index_group (body rest : string) :
  Spec.group_body Spec.on_one_line close body ->
  close_index close (body ++ String close rest) = Some (String.length body).
Proof.
  induction body as [| c body IH]; cbn [Spec.group_body append close_index String.length].
  - intros _. now rewrite Ascii.eqb_refl.
  - intros (Hc & Hlt & Hbody).
    apply Ascii.eqb_neq in Hc. unfold Spec.on_one_line in Hlt.
    apply negb_true_iff in Hlt. rewrite Hc, Hlt, (IH Hbody). reflexivity.
Qed.

Lemma close_index_None (s : string) :
  close_index close s = None -> Spec.unclosed Spec.on_one_line close s.
Proof.
  intros Hnone body rest -> Hbody.
  rewrite (close_index_group body rest Hbody) in Hnone. discriminate.
Qed.

Lemma group_split_unique (b1 b2 r1 r2 : string) :
  Spec.group_body inner close b1 -> Spec.group_body inner close b2 ->
  b1 ++ String close r1 = b2 ++ String close r2 ->
  b1 = b2 /\ r1 = r2.
Proof.
  revert b2. induction b1 as [| c b1 IH]; intros [| d b2]; cbn.
  - intros _ _ [= ->]. now split.
  - intros _ (Hd & _) [= E _]. congruence.
  - intros (Hc & _) _ [= E _]. congruence.
  - intros (_ & _ & H1) (_ & _ & H2) [= -> E].
    destruct (IH b2 H1 H2 E) as [-> ->]. now split.
Qed.

(** The code's replacement computes the collapse of the groups that lie
    on one line ... *)
Lemma replace_groups_collapsed (s : string) :
  Spec.collapsed Spec.on_one_line open close s (replace_groups open close "_" s).
Proof.
  unfold replace_groups.
  remember (String.length s) as n eqn:Hn.
  revert s Hn. induction n as [n IH] using lt_wf_ind. intros s Hn.
  destruct s as [| c s]; [constructor |].
  cbn [replace_groups_from].
  destruct (Ascii.eqb_spec c open) as [-> | Hc].
  - destruct (close_index close s) as [k |] eqn:Hk.
    + destruct (close_index_Some s k Hk) as (body & rest & -> & Hlen & Hbody).
      cbn [append].
      replace (S k) with (String.length (body ++ String close EmptyString)).
      2:{ rewrite append_length. cbn. lia. }
      replace (body ++ String close rest)
        with ((body ++ String close EmptyString) ++ rest)
        by (rewrite append_assoc; reflexivity).
      rewrite skip_prefix.
      rewrite append_assoc. cbn [append].
      apply Spec.collapsed_group; [exact Hbody |].
      apply (IH (String.length rest)); [| reflexivity].
      subst n. cbn. rewrite append_length. cbn. lia.
    + apply Spec.collapsed_open; [now apply close_index_None |].
      apply (IH (String.length s)); [subst n; cbn; lia | reflexivity].
  - apply Spec.collapsed_char; [exact Hc |].
    apply (IH (String.length s)); [subst n; cbn; lia | reflexivity].
Qed.

(** ... and the collapse of a string is unique, whatever may stand inside
    a group. *)
Lemma collapsed_unique (s t1 t2 : string) :
  Spec.collapsed inner open close s t1 -> Spec.collapsed inner open close s t2 ->
  t1 = t2.
Proof.
  intros H1. revert t2.
  induction H1 as [| c s t Hc _ IH | body rest t Hbody _ IH | s t Hun _ IH];
    intros t2 H2; inversion H2; subst; try congruence.
  - f_equal. now apply IH.
  - match goal with
    | E : _ ++ String close _ = _ ++ String close _ |- _ =>
        apply group_split_unique in E; trivial; destruct E as [-> ->]
    end.
    f_equal. now apply IH.
  - exfalso. match goal with
             | H : Spec.unclosed inner close _ |- _ => eapply H; eauto
             end.
  - exfalso. eapply Hun; eauto.
  - f_equal. now apply IH.
Qed.

End Groups.

(** On text without line terminators the two readings of a group
    coincide. *)
Lemma group_body_single_line (close : ascii) (s : string) :
  Spec.single_line s ->
  Spec.group_body Spec.any_char close s -> Spec.group_body Spec.on_one_line close s.
Proof.
  induction s as [| c s IH]; [trivial |].
  intros [Hc Hs] (Hne & _ & Hbody). cbn. unfold Spec.on_one_line at 1.
  rewrite Hc. repeat split; auto.
Qed.

Lemma group_body_any (close : ascii) (s : string) :
  Spec.group_body Spec.on_one_line close s -> Spec.group_body Spec.any_char close s.
Proof.
  induction s as [| c s IH]; [trivial |].
  intros (Hne & _ & Hbody). cbn. repeat split; auto.
Qed.

Lemma single_line_append (a b : string) :
  Spec.single_line (a ++ b) <-> Spec.single_line a /\ Spec.single_line b.
Proof.
  induction a as [| c a IH]; cbn; [tauto |]. rewrite IH. tauto.
Qed.

Lemma collapsed_single_line (open close : ascii) (s t : string) :
  Spec.single_line s ->
  Spec.collapsed Spec.on_one_line open close s t ->
  Spec.collapsed Spec.any_char open close s t /\ Spec.single_line t.
Proof.
  intros Hs H. induction H as [| c s t Hc _ IH | body rest t Hbody _ IH | s t Hun _ IH].
  - split; [constructor | exact I].
  - destruct Hs as [Hc' Hs]. destruct (IH Hs) as [H1 H2].
    split; [now constructor | now split].
  - destruct Hs as [Ho Hs]. apply single_line_append in Hs.
    destruct Hs as [Hb [Hcl Hrest]]. destruct (IH Hrest) as [H1 H2].
    split; [| now split].
    apply Spec.collapsed_group; [now apply group_body_any | exact H1].
  - destruct Hs as [Ho Hs]. destruct (IH Hs) as [H1 H2].
    split; [| now split].
    apply Spec.collapsed_open; [| exact H1].
    intros body rest E Hbody. apply (Hun body rest E).
    apply group_body_single_line; [| exact Hbody].
    rewrite E in Hs. apply single_line_append in Hs. tauto.
Qed.

Lemma replace_chars_subst (s : string) :
  replace_char "?" "_" (replace_char "*" "%" (replace_char "." "_" s))
  = Spec.map_chars Spec.subst_char s.
Proof.
  induction s as [| c s IH]; [reflexivity |].
  cbn [replace_char Spec.map_chars]. unfold Spec.subst_char at 1.
  destruct (Ascii.eqb c ".") eqn:E1.
  - cbn. now rewrite IH.
  - cbn [replace_char]. destruct (Ascii.eqb c "*") eqn:E2.
    + cbn. now rewrite IH.
    + cbn [replace_char]. destruct (Ascii.eqb c "?") eqn:E3.
      * cbn. now rewrite IH.
      * now rewrite IH.
Qed.

Lemma rewritten_unique (inner : ascii -> bool) (regex t1 t2 : string) :
  Spec.rewritten inner regex t1 -> Spec.rewritten inner regex t2 -> t1 = t2.
Proof.
  intros (u1 & v1 & Hu1 & Hv1 & ->) (u2 & v2 & Hu2 & Hv2 & ->).
  rewrite (collapsed_unique _ _ _ _ _ _ Hu1 Hu2) in Hv1.
  now rewrite (collapsed_unique _ _ _ _ _ _ Hv1 Hv2).
Qed.

Lemma regexToLike_of_lines (regex : string) :
  Spec.like_pattern_of_lines regex (regexToLike_string regex).
Proof.
  unfold Spec.like_pattern_of_lines, Spec.rewritten, regexToLike_string.
  rewrite replace_chars_subst.
  eexists. eexists. split; [apply replace_groups_collapsed |].
  split; [apply replace_groups_collapsed | reflexivity].
Qed.

Lemma like_pattern_of_lines_iff (regex t : string) :
  Spec.like_pattern_of_lines regex t <-> t = regexToLike_string regex.
Proof.
  split.
  - intros H. exact (rewritten_unique _ _ _ _ H (regexToLike_of_lines regex)).
  - intros ->. apply regexToLike_of_lines.
Qed.

Lemma single_line_map_chars (s : string) :
  Spec.single_line s -> Spec.single_line (Spec.map_chars Spec.subst_char s).
Proof.
  induction s as [| c s IH]; [trivial |].
  intros [Hc Hs]. cbn [Spec.map_chars Spec.single_line]. split; [| now apply IH].
  unfold Spec.subst_char.
  destruct (Ascii.eqb c "."); [reflexivity |].
  destruct (Ascii.eqb c "*"); [reflexivity |].
  destruct (Ascii.eqb c "?"); [reflexivity | exact Hc].
Qed.

(** On a regular expression without line terminators the code computes
    the pattern of the specification's words. *)
Lemma like_pattern_single_line (regex t : string) :
  Spec.single_line regex ->
  (Spec.like_pattern regex t <-> t = regexToLike_string regex).
Proof.
  intros Hs.
  assert (Hcode : Spec.like_pattern regex (regexToLike_string regex)).
  { destruct (regexToLike_of_lines regex) as (u & v & Hu & Hv & E).
    apply single_line_map_chars in Hs.
    destruct (collapsed_single_line _ _ _ _ Hs Hu) as [Hu' Hsu].
    destruct (collapsed_single_line _ _ _ _ Hsu Hv) as [Hv' _].
    exists u, v. auto. }
  split.
  - intros H. exact (rewritten_unique _ _ _ _ H Hcode).
  - intros ->. exact Hcode.
Qed.

Lemma parseFieldOperator_regex_raises
      (db : DatabaseType) (alias : option string) (field : string)
      (v : JsValue) (ps : list JsValue) :
  (forall s, v <> JStr s) ->
  _parseFieldOperator db alias field "regex" v ps = Throw /\
  _parseFieldOperator db alias field "nregex" v ps = Throw.
Proof.
  intros Hv. unfold _parseFieldOperator. cbn [String.eqb Ascii.eqb Bool.eqb].
  destruct v as [| | b | n | s | iso text | src | items | props];
    try (split; reflexivity).
  exfalso. now apply (Hv s).
Qed.

(** C8, as the code has it. In the plain-criteria front end, for a pattern
    that is a string: the LIKE pattern is the expression with [.], [*] and
    [?] replaced, every bracket group and then every parenthesis group that
    lies on one line collapsed to an underscore, the whole wrapped in
    percent signs, and it is the only such text; on an expression without
    line terminators that is the pattern of the specification's words.  The
    [regex] and [nregex] operators hand the pattern to the [like] and
    [nlike] builders, which bind it as the one parameter; the expression
    [John.*] becomes [%John_%%].  A pattern that is no string raises. *)
Theorem regex_rewritten_to_like
        (db : DatabaseType) (alias : option string) (field regex : string)
        (negate : bool) (ps : list JsValue) (v : JsValue) :
  (forall t, Spec.like_pattern_of_lines regex t <-> t = regexToLike_string regex) /\
  (Spec.single_line regex ->
   forall t, Spec.like_pattern regex t <-> t = regexToLike_string regex) /\
  _buildRegexCondition field (JStr regex) negate ps
  = _buildLikeCondition field (JStr (regexToLike_string regex)) negate ps /\
  _parseFieldOperator db alias field "regex" (JStr regex) ps
  = _parseFieldOperator db alias field "like" (JStr (regexToLike_string regex)) ps /\
  _parseFieldOperator db alias field "nregex" (JStr regex) ps
  = _parseFieldOperator db alias field "nlike" (JStr (regexToLike_string regex)) ps /\
  _parseFieldOperator db alias field "regex" (JStr regex) ps
  = Ok (Some (_getFieldReference alias field ++ " LIKE ?"),
        (ps ++ [JStr (regexToLike_string regex)])%list) /\
  _parseFieldOperator db alias field "nregex" (JStr regex) ps
  = Ok (Some (_getFieldReference alias field ++ " NOT LIKE ?"),
        (ps ++ [JStr (regexToLike_string regex)])%list) /\
  (startsWith "$" field = false -> field <> "build" ->
   parse db alias (WPlain (JObj [(field, JObj [("regex", JStr regex)])]))
   = Ok {| sql := "WHERE " ++ _getFieldReference alias field ++ " LIKE ?";
           params := [JStr (regexToLike_string regex)];
           hasConditions := true |} /\
   parse db alias (WPlain (JObj [(field, JObj [("nregex", JStr regex)])]))
   = Ok {| sql := "WHERE " ++ _getFieldReference alias field ++ " NOT LIKE ?";
           params := [JStr (regexToLike_string regex)];
           hasConditions := true |}) /\
  ((forall s, v <> JStr s) ->
   _parseFieldOperator db alias field "regex" v ps = Throw /\
   _parseFieldOperator db alias field "nregex" v ps = Throw) /\
  regexToLike_string "John.*" = "%John_%%" /\
  parse db None (WPlain (JObj [("name", JObj [("regex", JStr "John.*")])]))
  = Ok {| sql := "WHERE `name` LIKE ?";
          params := [JStr "%John_%%"];
          hasConditions := true |}.
Proof.
  split; [intros t; apply like_pattern_of_lines_iff |].
  split; [intros Hs t; now apply like_pattern_single_line |].
  do 5 (split; [reflexivity |]).
  split.
  { intros Hfield Hbuild.
    split; apply parse_single_operator; trivial;
      try apply getFieldReference_nonempty; reflexivity. }
  split; [apply parseFieldOperator_regex_raises |].
  split; reflexivity.
Qed.

Lemma regex_rewritten_to_like_witness :
  Spec.like_pattern "John.*" "%John_%%" /\
  parse postgresql (Some "u") (WPlain (JObj [("name", JObj [("nregex", JStr "J(oh)n")])]))
  = Ok {| sql := "WHERE u.`name` NOT LIKE ?";
          params := [JStr "%J_n%"];
          hasConditions := true |} /\
  _parseFieldOperator mysql None "name" "regex" (JNum 5) [] = Throw.
Proof.
  pose proof (regex_rewritten_to_like postgresql (Some "u") "name" "J(oh)n" false []
                (JNum 5)) as (_ & _ & _ & _ & _ & _ & _ & Hparse & _).
  pose proof (regex_rewritten_to_like mysql None "name" "John.*" false [] (JNum 5))
    as (_ & Hwords & _ & _ & _ & _ & _ & _ & Hraise & _).
  split; [| split].
  - apply Hwords; [cbn; tauto | reflexivity].
  - apply Hparse; [reflexivity | discriminate].
  - apply Hraise. discriminate.
Defined.

(** C8 as stated fails: a bracket group with a line feed inside is a
    bracket group, so the pattern of the specification's words is [%_%];
    the code leaves the group as it is, because the dot of its regular
    expression matches no line terminator.  And a pattern that is no
    string is not rewritten at all: parsing raises. *)
Lemma regex_group_across_lines_is_kept :
  let regex := String "[" (String "a" (String (ascii_of_nat 10) "b]")) in
  Spec.like_pattern regex "%_%" /\
  regexToLike_string regex = "%" ++ regex ++ "%" /\
  ~ Spec.like_pattern regex (regexToLike_string regex) /\
  parse mysql None (WPlain (JObj [("name", JObj [("regex", JStr regex)])]))
  = Ok {| sql := "WHERE `name` LIKE ?";
          params := [JStr ("%" ++ regex ++ "%")];
          hasConditions := true |} /\
  parse mysql None (WPlain (JObj [("name", JObj [("regex", JNum 5)])])) = Throw.
Proof.
  cbv zeta.
  assert (Hspec : Spec.like_pattern
                    (String "[" (String "a" (String (ascii_of_nat 10) "b]"))) "%_%").
  { exists "_", "_". split; [| split; [| reflexivity]].
    - apply (Spec.collapsed_group Spec.any_char "[" "]"
               (String "a" (String (ascii_of_nat 10) "b")) EmptyString EmptyString).
      + cbn. repeat split; discriminate.
      + constructor.
    - apply Spec.collapsed_char; [discriminate | constructor]. }
  split; [exact Hspec |]. split; [reflexivity |].
  split; [| split; reflexivity].
  intros H. pose proof (rewritten_unique _ _ _ _ H Hspec) as E. discriminate E.
Qed.


(** *** Field resolver *)

Import SqlFieldResolver.

Lemma in_assoc_set {A} (k k' : string) (v v' : A) (l : list (string * A)) :
  In (k, v) (assoc_set k' v' l) -> (k = k' /\ v = v') \/ In (k, v) l.
Proof.
  induction l as [| [k0 v0] l IH]; cbn.
  - intros [[= <- <-] | []]. now left.
  - destruct (String.eqb k' k0).
    + intros [[= <- <-] | H]; [now left | right; now right].
    + intros [[= <- <-] | H]; [right; now left |].
      destruct (IH H) as [? | ?]; [now left | right; now right].
Qed.






(* ================================================================= *)
(** ** Further properties of the embedded code *)

(** *** Decimal rendering *)

Lemma count_string_of_uint (c : ascii) (u : Decimal.uint) :
  existsb (Ascii.eqb c) ["0"; "1"; "2"; "3"; "4"; "5"; "6"; "7"; "8"; "9"]%char
  = false ->
  count_char c (NilEmpty.string_of_uint u) = 0.
Proof.
  cbn [existsb]. intros H. split_orb.
  induction u as [| u IH | u IH | u IH | u IH | u IH | u IH | u IH | u IH | u IH | u IH];
    cbn [NilEmpty.string_of_uint count_char]; [reflexivity | ..];
    rewrite IH, Ascii.eqb_sym;
    match goal with
    | E : Ascii.eqb c ?d = false |- context [Ascii.eqb c ?d] => now rewrite E
    end.
Qed.

Lemma count_Z_to_string (c : ascii) (z : Z) :
  existsb (Ascii.eqb c)
          ["0"; "1"; "2"; "3"; "4"; "5"; "6"; "7"; "8"; "9"; "-"]%char = false ->
  count_char c (Z_to_string z) = 0.
Proof.
  intros H.
  assert (Hd : existsb (Ascii.eqb c)
                 ["0"; "1"; "2"; "3"; "4"; "5"; "6"; "7"; "8"; "9"]%char = false).
  { cbn [existsb] in *. split_orb.
    repeat match goal with E : Ascii.eqb _ _ = false |- _ => rewrite E; clear E end.
    reflexivity. }
  assert (Hm : Ascii.eqb "-" c = false).
  { cbn [existsb] in H. split_orb. now rewrite Ascii.eqb_sym. }
  unfold Z_to_string. destruct (Z.to_int z) as [u | u];
    cbn [NilEmpty.string_of_int count_char];
    rewrite ?Hm, (count_string_of_uint c u Hd); reflexivity.
Qed.

(** *** The invariant in the Condition-model front end, at work *)

Lemma condition_model_balanced_witness :
  Spec.balanced
    (parseCondition (Some "u")
       (VariedCondition
          [Condition "a" "eq" (JNum 0);
           NestedCondition
             (ConditionWithManyKeys ["x"; "y"] "in" (JArr [JNum 1; JNum 2]))]
          "and")).
Proof.
  apply condition_model_balanced.
  - reflexivity.
  - repeat constructor.
Defined.

Lemma front_ends_agree_on_basic_operators_witness :
  parse sqlite (Some "u") (WPlain (JObj [("age", JObj [("gte", JNum 18)])]))
  = parse sqlite (Some "u") (WBuilder (Some (Condition "age" "gte" (JNum 18)))).
Proof.
  apply front_ends_agree_on_basic_operators.
  - cbn. tauto.
  - reflexivity.
  - reflexivity.
  - discriminate.
  - discriminate.
Defined.

(** *** What a rewritten regular expression holds *)

Lemma free_of_append (f : ascii -> bool) (a b : string) :
  Spec.free_of f a -> Spec.free_of f b -> Spec.free_of f (a ++ b).
Proof. induction a as [| c a IH]; cbn; [trivial | intuition]. Qed.

Lemma free_of_replace_groups (f : ascii -> bool) (open close : ascii)
      (rep s : string) (k : nat) :
  Spec.free_of f rep -> Spec.free_of f s ->
  Spec.free_of f (replace_groups_from open close rep k s).
Proof.
  intros Hrep. revert k. induction s as [| c s IH]; intros k Hs; [exact I |].
  destruct Hs as [Hc Hs]. cbn [replace_groups_from].
  destruct k as [| k]; [| now apply IH].
  destruct (Ascii.eqb c open).
  - destruct (close_index close s).
    + apply free_of_append; [exact Hrep | now apply IH].
    + split; [exact Hc | now apply IH].
  - split; [exact Hc | now apply IH].
Qed.

Lemma free_of_subst (s : string) :
  Spec.free_of Spec.is_regex_meta (Spec.map_chars Spec.subst_char s).
Proof.
  induction s as [| c s IH]; [exact I |].
  cbn [Spec.map_chars Spec.free_of]. split; [| exact IH].
  unfold Spec.subst_char, Spec.is_regex_meta.
  destruct (Ascii.eqb c ".") eqn:E1; [reflexivity |].
  destruct (Ascii.eqb c "*") eqn:E2; [reflexivity |].
  destruct (Ascii.eqb c "?") eqn:E3; [reflexivity |].
  now rewrite E1, E2, E3.
Qed.

(** X3. Whatever the regular expression, the LIKE pattern starts and ends
    with a percent sign and holds no dot, no star and no question mark. *)
Theorem regexToLike_wrapped_and_free_of_metacharacters (regex : string) :
  exists body,
    regexToLike_string regex = "%" ++ body ++ "%" /\
    Spec.free_of Spec.is_regex_meta body /\
    Spec.placeholder_count (regexToLike_string regex) = 0.
Proof.
  unfold regexToLike_string. rewrite replace_chars_subst.
  set (body := replace_groups "(" ")" "_"
                 (replace_groups "[" "]" "_" (Spec.map_chars Spec.subst_char regex))).
  assert (Hbody : Spec.free_of Spec.is_regex_meta body).
  { unfold body, replace_groups.
    apply free_of_replace_groups; [now split |].
    apply free_of_replace_groups; [now split |].
    apply free_of_subst. }
  exists body. split; [| split; [exact Hbody |]].
  - change ("%" ++ body) with (String "%" body). cbn [append]. reflexivity.
  - unfold Spec.placeholder_count. change ("%" ++ body) with (String "%" body).
    cbn [append count_char]. rewrite count_append.
    assert (H0 : count_char "?" body = 0).
    { clear -Hbody. induction body as [| c b IH]; [reflexivity |].
      destruct Hbody as [Hc Hb]. cbn [count_char]. rewrite (IH Hb).
      unfold Spec.is_regex_meta in Hc. apply orb_false_elim in Hc.
      destruct Hc as [_ Hc]. now rewrite Hc. }
    rewrite H0. reflexivity.
Qed.

(** *** Criteria without combinators *)

Lemma parseFieldOperator_total
      (db : DatabaseType) (alias : option string) (field op : string)
      (v : JsValue) (ps : list JsValue) :
  Spec.plain_alias alias -> Spec.plain_name field ->
  In op Spec.total_operators ->
  exists s ps',
    _parseFieldOperator db alias field op v ps = Ok (Some s, ps') /\
    Spec.placeholder_count s + List.length ps = List.length ps'.
Proof.
  intros Ha Hf Hop. pose proof (count_field_reference alias field Ha Hf) as Hr.
  pose proof (count_placeholders (items_of v)) as Hp.
  unfold Spec.placeholder_count in *.
  unfold Spec.total_operators in Hop. cbn [In] in Hop.
  unfold _parseFieldOperator.
  repeat (destruct Hop as [<- | Hop]); [.. | contradiction];
    cbn [String.eqb Ascii.eqb Bool.eqb];
    unfold some, bind, _buildComparison, _buildLikeCondition, _buildInCondition,
      _buildExistsCondition, _buildBetweenCondition, push, ret;
    repeat match goal with
           | |- context [if ?b then _ else _] => destruct b
           end;
    eexists; eexists; (split; [reflexivity |]);
    rewrite ?count_append, ?length_app, ?Hr, ?Hp; cbn; lia.
Qed.

Lemma clauses_push_condition (c : option string) (conds : list string) :
  Spec.clauses_placeholders (push_condition c conds)
  = Spec.clauses_placeholders conds + Spec.clause_placeholders c.
Proof.
  unfold Spec.clauses_placeholders, push_condition, Spec.clause_placeholders.
  destruct c as [s |]; [| lia].
  destruct s as [| a s]; cbn [nonempty negb String.eqb]; [cbn; lia |].
  rewrite map_app, list_sum_app. cbn. lia.
Qed.

Lemma clauses_concat (sep : string) (conds : list string) :
  Spec.placeholder_count sep = 0 ->
  Spec.placeholder_count (String.concat sep conds) = Spec.clauses_placeholders conds.
Proof. intros H. now apply count_concat. Qed.

Lemma fieldOperators_loop_total
      (db : DatabaseType) (alias : option string) (field : string)
      (ops : list (string * JsValue)) :
  Spec.plain_alias alias -> Spec.plain_name field ->
  Forall (fun ov => In (fst ov) Spec.total_operators) ops ->
  forall conds ps,
  exists conds' ps',
    fieldOperators_loop db alias field ops conds ps = Ok (conds', ps') /\
    Spec.clauses_placeholders conds' + List.length ps
    = Spec.clauses_placeholders conds + List.length ps'.
Proof.
  intros Ha Hf Hops. induction Hops as [| [op v] ops Hop _ IH]; intros conds ps.
  - exists conds, ps. now split.
  - cbn [fieldOperators_loop]. unfold bind at 1.
    destruct (parseFieldOperator_total db alias field op v ps Ha Hf Hop)
      as (s & ps1 & Hs & Hcount).
    rewrite Hs.
    destruct (IH (push_condition (Some s) conds) ps1) as (conds' & ps' & Hl & Hc).
    exists conds', ps'. split; [exact Hl |].
    rewrite clauses_push_condition in Hc. cbn [Spec.clause_placeholders] in Hc. lia.
Qed.

Lemma parseCondition_flat
      (db : DatabaseType) (alias : option string)
      (rec : JsValue -> Res ParsedWhereClause)
      (kv : string * JsValue) (ps : list JsValue) :
  Spec.plain_alias alias -> Spec.flat_entry kv ->
  exists c ps',
    _parseCondition db alias rec (fst kv) (snd kv) ps = Ok (c, ps') /\
    Spec.clause_placeholders c + List.length ps = List.length ps'.
Proof.
  intros Ha (Hd & Hf & Hv). destruct kv as [key value]. cbn [fst snd] in *.
  pose proof (count_field_reference alias key Ha Hf) as Hr.
  unfold Spec.placeholder_count in Hr.
  unfold _parseCondition. rewrite Hd.
  assert (Hsimple : forall v, is_object_type v && negb (is_nullish v) && negb (isArray v) = false ->
            exists c ps',
              some (_parseSimpleCondition alias key v) ps = Ok (c, ps') /\
              Spec.clause_placeholders c + List.length ps = List.length ps').
  { intros v _. unfold some, bind, _parseSimpleCondition, _buildComparison, push, ret.
    destruct v; eexists; eexists; (split; [reflexivity |]);
      unfold Spec.clause_placeholders, Spec.placeholder_count;
      rewrite ?count_append, ?length_app, ?Hr; cbn; lia. }
  destruct value as [| | b | n | s | iso text | src | items | ops];
    try (apply Hsimple; reflexivity).
  - (* a Date: an object without entries *)
    cbn [is_object_type typeof is_nullish isArray negb andb].
    exists None, ps. split; reflexivity.
  - (* an operator object *)
    cbn [is_object_type typeof is_nullish isArray negb andb].
    unfold _parseFieldOperators, entries. unfold bind.
    destruct (fieldOperators_loop_total db alias key ops Ha Hf Hv [] ps)
      as (conds & ps' & Hl & Hc).
    rewrite Hl. unfold ret.
    destruct conds as [| c conds].
    + exists None, ps'. split; [reflexivity |].
      cbn in Hc |- *. lia.
    + exists (Some (String.concat " AND " (c :: conds))), ps'.
      split; [reflexivity |].
      cbn [Spec.clause_placeholders].
      rewrite clauses_concat by reflexivity.
      change (Spec.clauses_placeholders []) with 0 in Hc. lia.
Qed.

Lemma criteria_props_flat
      (db : DatabaseType) (alias : option string)
      (rec : JsValue -> Res ParsedWhereClause)
      (props : list (string * JsValue)) :
  Spec.plain_alias alias -> Forall Spec.flat_entry props ->
  forall conds ps,
  exists conds' ps',
    criteria_props db alias rec props conds ps = Ok (conds', ps') /\
    Spec.clauses_placeholders conds' + List.length ps
    = Spec.clauses_placeholders conds + List.length ps'.
Proof.
  intros Ha Hprops. induction Hprops as [| [key value] props Hkv _ IH]; intros conds ps.
  - exists conds, ps. now split.
  - cbn [criteria_props]. unfold bind at 1.
    destruct (parseCondition_flat db alias rec (key, value) ps Ha Hkv)
      as (c & ps1 & Hc & Hcount). cbn [fst snd] in Hc. rewrite Hc.
    destruct (IH (push_condition c conds) ps1) as (conds' & ps' & Hl & Hn).
    exists conds', ps'. split; [exact Hl |].
    rewrite clauses_push_condition in Hn. lia.
Qed.

Lemma criteria_result_balanced (conds : list string) (ps : list JsValue) :
  Spec.clauses_placeholders conds = List.length ps ->
  Spec.balanced (criteria_result conds ps).
Proof.
  intros H. unfold Spec.balanced, criteria_result. cbn [sql params].
  destruct conds as [| c conds].
  - cbn in *. exact H.
  - cbn [List.length Nat.ltb Nat.leb]. unfold Spec.placeholder_count.
    rewrite count_append. rewrite <- H.
    pose proof (clauses_concat " AND " (c :: conds) eq_refl) as Hc.
    unfold Spec.placeholder_count in Hc. rewrite Hc. reflexivity.
Qed.

(** X4. A criteria object without combinators, whose field names and alias
    hold no question mark and whose operator objects use the fourteen
    operators that only read their operand, always parses, in every
    dialect, and the parsed clause has as many placeholders as
    parameters. *)
Theorem flat_criteria_parse_balanced
        (db : DatabaseType) (alias : option string)
        (props : list (string * JsValue)) :
  Spec.plain_alias alias ->
  Forall Spec.flat_entry props ->
  exists r, parse db alias (WPlain (JObj props)) = Ok r /\ Spec.balanced r.
Proof.
  intros Ha Hprops. cbn [parse]. rewrite parse_value_unfold.
  unfold parse_plain. cbn [truthy negb is_object_type typeof andb].
  destruct (negb (truthy (build_prop (JObj props)))).
  - unfold parseCriteria. cbn [truthy negb is_object_type typeof orb].
    destruct (criteria_props_flat db alias (parse_value db alias) props Ha Hprops [] [])
      as (conds & ps & Hl & Hn).
    rewrite Hl. eexists. split; [reflexivity |].
    apply criteria_result_balanced. cbn in Hn. lia.
  - exists no_conditions. split; reflexivity.
Qed.

Lemma flat_criteria_parse_balanced_witness :
  exists r,
    parse postgresql (Some "u")
          (WPlain (JObj [("name", JStr "John");
                         ("age", JObj [("gte", JNum 18); ("lte", JNum 65)]);
                         ("tags", JObj [("in", JArr [JNum 1; JNum 2])]);
                         ("gone", JNull)]))
    = Ok r /\ Spec.balanced r.
Proof.
  apply flat_criteria_parse_balanced.
  - reflexivity.
  - repeat constructor; cbn; tauto.
Defined.

(** *** sql.utils.ts: escaping *)

Lemma double_char_injective (q : ascii) (a b : string) :
  SqlUtils.double_char q a = SqlUtils.double_char q b -> a = b.
Proof.
  unfold SqlUtils.double_char. revert b.
  induction a as [| c a IH]; intros [| d b]; cbn [replace_char].
  - reflexivity.
  - destruct (Ascii.eqb d q); discriminate.
  - destruct (Ascii.eqb c q); discriminate.
  - destruct (Ascii.eqb_spec c q) as [-> | Hc];
      destruct (Ascii.eqb_spec d q) as [-> | Hd]; cbn [append].
    + intros [= E]. f_equal. now apply IH.
    + intros [= E _]. congruence.
    + intros [= E _]. congruence.
    + intros [= -> E]. f_equal. now apply IH.
Qed.

Lemma append_char_injective (a b : string) (x : ascii) :
  a ++ String x EmptyString = b ++ String x EmptyString -> a = b.
Proof.
  revert b. induction a as [| c a IH]; intros [| d b]; cbn [append].
  - reflexivity.
  - intros [= _ E]. destruct b; discriminate.
  - intros [= _ E]. destruct a; discriminate.
  - intros [= -> E]. f_equal. now apply IH.
Qed.

Lemma escapeIdentifier_shape (identifier : string) (db : option DatabaseType) :
  identifier <> EmptyString ->
  SqlUtils.escapeIdentifier identifier db
  = String (Spec.quote_of db)
           (SqlUtils.double_char (Spec.quote_of db) identifier
            ++ String (Spec.quote_of db) EmptyString).
Proof.
  intros Hne. unfold SqlUtils.escapeIdentifier.
  destruct (String.eqb_spec identifier EmptyString) as [E | _]; [contradiction |].
  destruct db as [[| |] |]; reflexivity.
Qed.

(** X5. For a given dialect [escapeIdentifier] never maps two different
    identifiers to the same text. *)
Theorem escapeIdentifier_injective
        (db : option DatabaseType) (a b : string) :
  a <> b -> SqlUtils.escapeIdentifier a db <> SqlUtils.escapeIdentifier b db.
Proof.
  intros Hab E. apply Hab.
  destruct (String.eqb_spec a EmptyString) as [Ha | Ha];
    destruct (String.eqb_spec b EmptyString) as [Hb | Hb].
  - congruence.
  - rewrite (escapeIdentifier_shape b db Hb) in E. subst a.
    unfold SqlUtils.escapeIdentifier in E. cbn in E. discriminate.
  - rewrite (escapeIdentifier_shape a db Ha) in E. subst b.
    unfold SqlUtils.escapeIdentifier in E. cbn in E. discriminate.
  - rewrite (escapeIdentifier_shape a db Ha), (escapeIdentifier_shape b db Hb) in E.
    injection E as E. apply append_char_injective in E.
    now apply double_char_injective in E.
Qed.

Lemma escapeIdentifier_injective_witness :
  SqlUtils.escapeIdentifier "a`b" (Some mysql)
  <> SqlUtils.escapeIdentifier "a``b" (Some mysql).
Proof. apply escapeIdentifier_injective. discriminate. Defined.

Lemma double_char_paired (q : ascii) (s : string) :
  Spec.paired q (SqlUtils.double_char q s).
Proof.
  unfold SqlUtils.double_char.
  induction s as [| c s IH]; cbn [replace_char]; [constructor |].
  destruct (Ascii.eqb_spec c q) as [-> | Hc]; cbn [append].
  - now apply Spec.paired_pair.
  - now apply Spec.paired_other.
Qed.


(** X7. [escapeString] raises on a value that is neither a string, null nor
    undefined; two different strings never get the same literal, the
    quotes of a literal are paired, and no string gets the literal NULL
    that null and undefined get. *)
Theorem escapeString_literals (v : JsValue) (s1 s2 : string) :
  (SqlUtils.escapeString v = Throw <->
   is_nullish v = false /\ (forall s, v <> JStr s)) /\
  (s1 <> s2 -> SqlUtils.escapeString (JStr s1) <> SqlUtils.escapeString (JStr s2)) /\
  (exists body,
      SqlUtils.escapeString (JStr s1) = Ok (String "'" (body ++ "'")) /\
      Spec.paired "'" body) /\
  SqlUtils.escapeString (JStr s1) <> SqlUtils.escapeString JNull.
Proof.
  split; [| split; [| split]].
  - destruct v as [| | b | n | s | iso text | src | items | props];
      cbn [SqlUtils.escapeString is_nullish];
      try solve [split; [discriminate | intros [H _]; discriminate H]];
      try solve [split; [intros _; split; [reflexivity | intros ?; discriminate]
                        | reflexivity]].
    split; [discriminate | intros [_ H]; exfalso; apply (H s); reflexivity].
  - intros Hne E. apply Hne. cbn in E. injection E as E.
    apply append_char_injective in E. now apply double_char_injective in E.
  - exists (SqlUtils.double_char "'" s1). split; [reflexivity | apply double_char_paired].
  - cbn. discriminate.
Qed.

Lemma escapeString_literals_witness :
  SqlUtils.escapeString (JStr "O'Brien") <> SqlUtils.escapeString (JStr "O''Brien") /\
  SqlUtils.escapeString (JNum 5) = Throw.
Proof.
  pose proof (escapeString_literals (JNum 5) "O'Brien" "O''Brien") as (Hthrow & Hinj & _).
  split.
  - apply Hinj. discriminate.
  - apply Hthrow. split; [reflexivity | discriminate].
Defined.

(** *** sql.utils.ts: values *)

(** X8. [toSqlValue] returns a value the driver can bind (never undefined,
    never a plain object or a Date, a boolean only under PostgreSQL), and
    applying it a second time changes nothing. *)
Theorem toSqlValue_bindable_idempotent (v : JsValue) (db : DatabaseType) :
  Spec.bindable db (SqlUtils.toSqlValue v db) /\
  SqlUtils.toSqlValue (SqlUtils.toSqlValue v db) db = SqlUtils.toSqlValue v db.
Proof.
  destruct v as [| | b | n | s | iso text | src | items | props];
    destruct db; cbn; auto.
Qed.

(** *** sql.utils.ts: the where builder *)

Lemma count_double_char (q : ascii) (s : string) :
  Ascii.eqb q "?" = false ->
  count_char "?" (SqlUtils.double_char q s) = count_char "?" s.
Proof.
  intros Hq. unfold SqlUtils.double_char.
  induction s as [| c s IH]; [reflexivity |]. cbn [replace_char count_char].
  destruct (Ascii.eqb_spec c q) as [-> | Hc].
  - cbn [append count_char]. rewrite Hq, IH. reflexivity.
  - cbn [count_char]. now rewrite IH.
Qed.

Lemma count_escapeIdentifier (identifier : string) (db : option DatabaseType) :
  Spec.plain_name identifier ->
  Spec.placeholder_count (SqlUtils.escapeIdentifier identifier db) = 0.
Proof.
  unfold Spec.plain_name, Spec.placeholder_count. intros H.
  unfold SqlUtils.escapeIdentifier. destruct (identifier =? EmptyString); [reflexivity |].
  destruct db as [[| |] |]; unfold dquote;
    cbn [append count_char]; rewrite ?count_append, count_double_char, H;
    reflexivity.
Qed.

Lemma count_qmarks (l : list JsValue) :
  Spec.placeholder_count (SqlUtils.qmarks l) = List.length l.
Proof. exact (count_placeholders l). Qed.

Lemma clauses_snoc (clauses : list string) (c : string) :
  Spec.clauses_placeholders (SqlUtils.snoc clauses c)
  = Spec.clauses_placeholders clauses + Spec.placeholder_count c.
Proof.
  unfold Spec.clauses_placeholders, SqlUtils.snoc.
  rewrite map_app, list_sum_app. cbn. lia.
Qed.

Lemma where_operator_balanced
      (db : DatabaseType) (key : string) (value : JsValue)
      (operator : string) (operatorValue : JsValue)
      (acc : list string * list JsValue) :
  Spec.plain_name key ->
  Spec.clauses_placeholders (fst acc) = List.length (snd acc) ->
  let acc' := SqlUtils.where_operator db key value operator operatorValue acc in
  Spec.clauses_placeholders (fst acc') = List.length (snd acc').
Proof.
  intros Hk Hacc. destruct acc as [clauses params0]. cbn [fst snd] in Hacc.
  pose proof (count_escapeIdentifier key (Some db) Hk) as He.
  unfold SqlUtils.where_operator. cbv zeta.
  repeat match goal with
         | |- context [if String.eqb ?a ?b then _ else _] =>
             destruct (String.eqb a b)
         end;
    try (destruct operatorValue);
    cbn [fst snd]; trivial;
    rewrite clauses_snoc, length_app; unfold Spec.placeholder_count in *;
    rewrite ?count_append, ?He, ?length_map;
    try (pose proof (count_qmarks items) as Hq;
         unfold Spec.placeholder_count in Hq; rewrite Hq);
    cbn; lia.
Qed.

Lemma where_entry_balanced
      (db : DatabaseType) (acc : list string * list JsValue)
      (entry : string * JsValue) :
  Spec.plain_name (fst entry) ->
  Spec.clauses_placeholders (fst acc) = List.length (snd acc) ->
  let acc' := SqlUtils.where_entry db acc entry in
  Spec.clauses_placeholders (fst acc') = List.length (snd acc').
Proof.
  intros Hk Hacc. destruct entry as [key value]. cbn [fst] in Hk.
  pose proof (count_escapeIdentifier key (Some db) Hk) as He.
  unfold SqlUtils.where_entry.
  destruct value as [| | b | n | s | iso text | src | items | props].
  9:{ (* an operator object *)
      destruct acc as [clauses params0]. cbv zeta.
      assert (H : forall ops a,
                 Spec.clauses_placeholders (fst a) = List.length (snd a) ->
                 let a' := fold_left
                             (fun a0 ov =>
                                SqlUtils.where_operator db key (JObj props)
                                                        (fst ov) (snd ov) a0) ops a in
                 Spec.clauses_placeholders (fst a') = List.length (snd a')).
      { induction ops as [| ov ops IH]; intros a Ha; [exact Ha |].
        cbn [fold_left]. apply IH. now apply where_operator_balanced. }
      now apply H. }
  all: destruct acc as [clauses params0]; cbn [fst snd] in *; cbv zeta;
    try (destruct (List.length items =? 0)%nat); cbn [fst snd];
    rewrite clauses_snoc, ?length_app; unfold Spec.placeholder_count in *;
    rewrite ?count_append, ?He;
    try (pose proof (count_qmarks items) as Hq;
         unfold Spec.placeholder_count in Hq; rewrite Hq);
    cbn; lia.
Qed.

Lemma where_fold_balanced
      (db : DatabaseType) (conditions : list (string * JsValue))
      (acc : list string * list JsValue) :
  Forall (fun kv => Spec.plain_name (fst kv)) conditions ->
  Spec.clauses_placeholders (fst acc) = List.length (snd acc) ->
  let acc' := fold_left (SqlUtils.where_entry db) conditions acc in
  Spec.clauses_placeholders (fst acc') = List.length (snd acc').
Proof.
  intros Hc. revert acc. induction Hc as [| kv conditions Hkv _ IH]; intros acc Hacc.
  - exact Hacc.
  - cbn [fold_left]. apply IH. now apply where_entry_balanced.
Qed.

Lemma where_clause_balanced
      (conditions : list (string * JsValue)) (db : DatabaseType) :
  Forall (fun kv => Spec.plain_name (fst kv)) conditions ->
  Spec.placeholder_count (fst (SqlUtils.buildWhereClause conditions db))
  = List.length (snd (SqlUtils.buildWhereClause conditions db)).
Proof.
  intros Hc. unfold SqlUtils.buildWhereClause.
  pose proof (where_fold_balanced db conditions ([], []) Hc eq_refl) as H.
  cbv zeta in H.
  destruct (fold_left (SqlUtils.where_entry db) conditions ([], []))
    as [clauses params0].
  cbn [fst snd] in *. destruct clauses as [| c clauses].
  - cbn in *. exact H.
  - cbn [List.length Nat.ltb Nat.leb]. rewrite <- H.
    now apply clauses_concat.
Qed.

(** X9. The predicate [SqlUtils.buildWhereClause] builds from a record
    whose column names hold no question mark has exactly as many
    placeholders as the parameter list has values. *)
Theorem buildWhereClause_balanced
        (conditions : list (string * JsValue)) (db : DatabaseType) :
  Forall (fun kv => Spec.plain_name (fst kv)) conditions ->
  Spec.placeholder_count (fst (SqlUtils.buildWhereClause conditions db))
  = List.length (snd (SqlUtils.buildWhereClause conditions db)).
Proof. exact (where_clause_balanced conditions db). Qed.

Lemma buildWhereClause_balanced_witness :
  Spec.placeholder_count
    (fst (SqlUtils.buildWhereClause
            [("age", JObj [("$gte", JNum 18); ("$in", JArr [JNum 1; JNum 2])]);
             ("tags", JArr []); ("gone", JNull); ("name", JStr "J")] mysql))
  = List.length
      (snd (SqlUtils.buildWhereClause
              [("age", JObj [("$gte", JNum 18); ("$in", JArr [JNum 1; JNum 2])]);
               ("tags", JArr []); ("gone", JNull); ("name", JStr "J")] mysql)).
Proof.
  apply buildWhereClause_balanced. repeat constructor.
Defined.

Lemma column_clause_proper (key : string) (db : DatabaseType) (tail : string) :
  Spec.proper_clause (SqlUtils.escapeIdentifier key (Some db) ++ String " " tail).
Proof.
  unfold SqlUtils.escapeIdentifier. destruct (key =? EmptyString).
  - split; [discriminate | right; reflexivity].
  - destruct db; (split; [discriminate | right; reflexivity]).
Qed.

Lemma proper_concat (c : string) (cs : list string) :
  Spec.proper_clause c ->
  String.concat " AND " (c :: cs) <> "1 = 1" /\
  nonempty (String.concat " AND " (c :: cs)) = true.
Proof.
  intros [Hne [-> | Hc]].
  - destruct cs; split; (discriminate || reflexivity).
  - destruct c as [| ch c]; [contradiction |].
    split; [| destruct cs; reflexivity].
    intros E. cbn [String.prefix] in Hc.
    assert (Hch : ch = "1"%char) by (destruct cs; cbn in E; congruence).
    subst ch. cbn in Hc. destruct c; discriminate.
Qed.

(** A loop whose steps either leave the clauses as they are or add proper
    clauses. *)
Lemma fold_adds_clauses {X : Type}
      (step : list string * list JsValue -> X -> list string * list JsValue)
      (silent : X -> Prop) :
  (forall a x,
      (silent x /\ step a x = a) \/
      (~ silent x /\
       exists cs, cs <> [] /\ Forall Spec.proper_clause cs /\
                  fst (step a x) = (fst a ++ cs)%list)) ->
  forall l a,
    (Forall silent l /\ fold_left step l a = a) \/
    (~ Forall silent l /\
     exists cs, cs <> [] /\ Forall Spec.proper_clause cs /\
                fst (fold_left step l a) = (fst a ++ cs)%list).
Proof.
  intros Hstep. induction l as [| x l IH]; intros a.
  - left. split; [constructor | reflexivity].
  - cbn [fold_left].
    destruct (Hstep a x) as [[Hx Ea] | [Hx (cs1 & Hne1 & Hgood1 & E1)]].
    + rewrite Ea. destruct (IH a) as [[Hl El] | [Hl Hgrow]].
      * left. split; [now constructor | exact El].
      * right. split; [| exact Hgrow].
        intros H. inversion H; subst. contradiction.
    + right. split; [intros H; inversion H; subst; contradiction |].
      destruct (IH (step a x)) as [[Hl El] | [Hl (cs2 & Hne2 & Hgood2 & E2)]].
      * rewrite El. now exists cs1.
      * exists (cs1 ++ cs2)%list. split; [| split].
        -- destruct cs1; [contradiction | discriminate].
        -- apply Forall_app. now split.
        -- rewrite E2, E1. now rewrite <- List.app_assoc.
Qed.

Lemma where_operator_adds
      (db : DatabaseType) (key : string) (value : JsValue)
      (a : list string * list JsValue) (ov : string * JsValue) :
  (Spec.silent_operator ov /\
   SqlUtils.where_operator db key value (fst ov) (snd ov) a = a) \/
  (~ Spec.silent_operator ov /\
   exists cs, cs <> [] /\ Forall Spec.proper_clause cs /\
              fst (SqlUtils.where_operator db key value (fst ov) (snd ov) a)
              = (fst a ++ cs)%list).
Proof.
  destruct ov as [op opv]. destruct a as [cl pa]. cbn [fst snd].
  unfold Spec.silent_operator, SqlUtils.where_operator, SqlUtils.snoc.
  cbn [fst snd]. cbv zeta.
  assert (Hadd : forall c rest,
             Spec.proper_clause c ->
             exists cs, cs <> [] /\ Forall Spec.proper_clause cs /\
                        fst ((cl ++ [c])%list, rest : list JsValue) = (cl ++ cs)%list).
  { intros c rest Hc. exists [c]. split; [discriminate |].
    split; [now constructor | reflexivity]. }
  repeat match goal with
         | |- context [String.eqb op ?k] =>
             destruct (String.eqb_spec op k) as [-> | ?]
         end.
  all: try (right; split;
            [ intros [[E | E] _]; first [discriminate E | contradiction]
            | apply Hadd; apply column_clause_proper ]).
  all: destruct opv as [| | flag | num | text | iso text | src | items | props];
    try (left; split; [split; [auto | reflexivity] | reflexivity]).
  all: right; split;
    [ intros [_ E]; discriminate E
    | apply Hadd; apply column_clause_proper ].
Qed.

Lemma where_entry_adds
      (db : DatabaseType) (a : list string * list JsValue)
      (kv : string * JsValue) :
  (Spec.silent_entry kv /\ SqlUtils.where_entry db a kv = a) \/
  (~ Spec.silent_entry kv /\
   exists cs, cs <> [] /\ Forall Spec.proper_clause cs /\
              fst (SqlUtils.where_entry db a kv) = (fst a ++ cs)%list).
Proof.
  destruct kv as [key value]. destruct a as [cl pa].
  unfold Spec.silent_entry, SqlUtils.where_entry, SqlUtils.snoc. cbn [fst snd].
  cbv zeta.
  assert (Hadd : forall c rest,
             Spec.proper_clause c ->
             exists cs, cs <> [] /\ Forall Spec.proper_clause cs /\
                        fst ((cl ++ [c])%list, rest : list JsValue) = (cl ++ cs)%list).
  { intros c rest Hc. exists [c]. split; [discriminate |].
    split; [now constructor | reflexivity]. }
  destruct value as [| | b | n | t | iso text | src | items | props].
  9:{ exact (fold_adds_clauses
               (fun a0 ov =>
                  SqlUtils.where_operator db key (JObj props) (fst ov) (snd ov) a0)
               Spec.silent_operator
               (fun a0 ov => where_operator_adds db key (JObj props) a0 ov)
               props (cl, pa)). }
  all: right; split; [intros [] |].
  all: try (destruct (List.length items =? 0)%nat).
  all: apply Hadd; try apply column_clause_proper.
  split; [discriminate | now left].
Qed.

(** X10. [SqlUtils.buildWhereClause] never returns an empty predicate.  A
    record yields no clause exactly when each of its values is an operator
    object holding nothing but membership tests on operands that are no
    arrays; the predicate is then the always-true [1 = 1], with no
    parameter, and it is [1 = 1] in no other case. *)
Theorem buildWhereClause_never_empty
        (conditions : list (string * JsValue)) (db : DatabaseType) :
  fst (SqlUtils.buildWhereClause conditions db) <> EmptyString /\
  (Forall Spec.silent_entry conditions <->
   fst (SqlUtils.buildWhereClause conditions db) = "1 = 1") /\
  (Forall Spec.silent_entry conditions ->
   SqlUtils.buildWhereClause conditions db = ("1 = 1", [])).
Proof.
  unfold SqlUtils.buildWhereClause.
  destruct (fold_adds_clauses (SqlUtils.where_entry db) Spec.silent_entry
              (where_entry_adds db) conditions ([], []))
    as [[Hsilent E] | [Hloud (cs & Hne & Hgood & E)]].
  - rewrite E. cbn. split; [discriminate |]. split; [tauto | reflexivity].
  - destruct (fold_left (SqlUtils.where_entry db) conditions ([], []))
      as [clauses params0].
    cbn [fst app] in E. subst clauses.
    destruct cs as [| c cs]; [contradiction |].
    cbn [List.length Nat.ltb Nat.leb fst].
    inversion Hgood as [| ? ? Hc _]; subst.
    destruct (proper_concat c cs Hc) as [Hdiff Hnonempty].
    split; [now apply nonempty_true_iff |].
    split; [split; [contradiction | intros H; now apply Hdiff in H] | contradiction].
Qed.

Lemma buildWhereClause_never_empty_witness :
  SqlUtils.buildWhereClause
    [("a", JObj []); ("b", JObj [("$in", JNum 5); ("$nin", JStr "x")])] postgresql
  = ("1 = 1", []).
Proof.
  apply (proj2 (proj2 (buildWhereClause_never_empty
                         [("a", JObj []); ("b", JObj [("$in", JNum 5); ("$nin", JStr "x")])]
                         postgresql))).
  constructor; [exact (Forall_nil _) |].
  constructor; [| constructor].
  constructor; [split; [now left | reflexivity] |].
  constructor; [split; [now right | reflexivity] | constructor].
Defined.

(** *** sql.utils.ts: placeholders and names *)

Lemma number_placeholders_counts (i : nat) (sql0 : string) :
  count_char "?" (SqlUtils.number_placeholders i sql0) = 0 /\
  count_char "$" (SqlUtils.number_placeholders i sql0)
  = count_char "$" sql0 + count_char "?" sql0.
Proof.
  revert i. induction sql0 as [| c s IH]; intros i; [now split |].
  cbn [SqlUtils.number_placeholders].
  destruct (Ascii.eqb_spec c "?") as [-> | Hc].
  - destruct (IH (S i)) as [H1 H2].
    rewrite !count_append, H1, H2.
    rewrite (count_Z_to_string "?" (Z.of_nat i) eq_refl).
    rewrite (count_Z_to_string "$" (Z.of_nat i) eq_refl).
    cbn. split; lia.
  - destruct (IH i) as [H1 H2]. cbn [count_char]. rewrite H1, H2.
    apply Ascii.eqb_neq in Hc. rewrite Hc. split; [reflexivity | lia].
Qed.

(** X11. Under PostgreSQL [convertPlaceholders] leaves no question mark
    and adds one dollar marker for each; under the other dialects it
    returns the statement as it is. *)
Theorem convertPlaceholders_replaces_every_placeholder (sql0 : string) :
  Spec.placeholder_count (SqlUtils.convertPlaceholders sql0 postgresql) = 0 /\
  count_char "$" (SqlUtils.convertPlaceholders sql0 postgresql)
  = count_char "$" sql0 + Spec.placeholder_count sql0 /\
  SqlUtils.convertPlaceholders sql0 mysql = sql0 /\
  SqlUtils.convertPlaceholders sql0 sqlite = sql0.
Proof.
  unfold Spec.placeholder_count, SqlUtils.convertPlaceholders.
  destruct (number_placeholders_counts 1 sql0) as [H1 H2]. now repeat split.
Qed.

Lemma keep_chars_all (f : ascii -> bool) (s : string) :
  Spec.all_chars f (SqlUtils.keep_chars f s).
Proof.
  induction s as [| c s IH]; [exact I |]. cbn [SqlUtils.keep_chars].
  destruct (f c) eqn:E; [now split | exact IH].
Qed.

Lemma keep_chars_id (f : ascii -> bool) (s : string) :
  Spec.all_chars f s -> SqlUtils.keep_chars f s = s.
Proof.
  induction s as [| c s IH]; [reflexivity |]. intros [Hc Hs].
  cbn [SqlUtils.keep_chars]. now rewrite Hc, IH.
Qed.

Lemma sanitizeName_keep (s : string) :
  SqlUtils.sanitizeName s = SqlUtils.keep_chars SqlUtils.is_name_char s.
Proof. unfold SqlUtils.sanitizeName. now destruct s. Qed.

(** X12. [sanitizeName] returns only letters, digits and underscores,
    leaves a name made of such characters unchanged, and so changes
    nothing when applied twice. *)
Theorem sanitizeName_sound_idempotent (name0 : string) :
  Spec.all_chars SqlUtils.is_name_char (SqlUtils.sanitizeName name0) /\
  (Spec.all_chars SqlUtils.is_name_char name0 -> SqlUtils.sanitizeName name0 = name0) /\
  SqlUtils.sanitizeName (SqlUtils.sanitizeName name0) = SqlUtils.sanitizeName name0.
Proof.
  rewrite !sanitizeName_keep. split; [apply keep_chars_all |].
  split; [apply keep_chars_id |]. apply keep_chars_id, keep_chars_all.
Qed.

Lemma sanitizeName_sound_idempotent_witness :
  SqlUtils.sanitizeName "user_name1" = "user_name1".
Proof.
  apply (proj1 (proj2 (sanitizeName_sound_idempotent "user_name1"))).
  cbn. tauto.
Defined.

(** *** The statement builders *)

Lemma count_escaped_list (db : DatabaseType) (names : list string) :
  Forall Spec.plain_name names ->
  count_char "?" (String.concat ", " (map (esc db) names)) = 0.
Proof.
  intros H. rewrite count_concat by reflexivity. rewrite map_map.
  induction H as [| n names Hn _ IH]; [reflexivity |].
  cbn [map]. rewrite list_sum_cons, IH.
  pose proof (count_escapeIdentifier n (Some db) Hn) as He.
  unfold Spec.placeholder_count, esc in *. rewrite He. reflexivity.
Qed.

Lemma count_assignments (db : DatabaseType) (names : list string) :
  Forall Spec.plain_name names ->
  count_char "?" (assignments db names) = List.length names.
Proof.
  intros H. unfold assignments. rewrite count_concat by reflexivity. rewrite map_map.
  induction H as [| n names Hn _ IH]; [reflexivity |].
  cbn [map List.length]. rewrite list_sum_cons, IH, count_append.
  pose proof (count_escapeIdentifier n (Some db) Hn) as He.
  unfold Spec.placeholder_count, esc in *. rewrite He. reflexivity.
Qed.

Lemma count_order_by (ob : SqlUtils.OrderBy) :
  Spec.plain_order (Some ob) ->
  count_char "?" (SqlUtils.buildOrderByClause ob) = 0.
Proof.
  destruct ob as [directions | names]; cbn [Spec.plain_order SqlUtils.buildOrderByClause];
    intros H; rewrite count_concat by reflexivity; rewrite map_map.
  - induction H as [| fd ds [Hf Hd] _ IH]; [reflexivity |].
    cbn [map]. rewrite list_sum_cons, IH, !count_append.
    pose proof (count_escapeIdentifier (fst fd) None Hf) as He.
    unfold Spec.plain_name, Spec.placeholder_count in *. rewrite He, Hd. reflexivity.
  - induction H as [| n ns Hn _ IH]; [reflexivity |].
    cbn [map]. rewrite list_sum_cons, IH.
    pose proof (count_escapeIdentifier n None Hn) as He.
    unfold Spec.placeholder_count in *. rewrite He. reflexivity.
Qed.

Lemma count_limit_clause (l o : option Z) :
  count_char "?" (SqlUtils.buildLimitClause l o) = 0.
Proof.
  destruct l as [l |], o as [o |]; cbn [SqlUtils.buildLimitClause]; try reflexivity;
    rewrite ?count_append, ?(count_Z_to_string "?" _ eq_refl); reflexivity.
Qed.

Lemma where_part_balanced (db : DatabaseType) (w : option (list (string * JsValue)))
      (sql0 : string) (ps : list JsValue) :
  Spec.plain_record w ->
  let r := match w with
           | Some (e :: es) =>
               let '(wsql, wparams) := SqlUtils.buildWhereClause (e :: es) db in
               (sql0 ++ " WHERE " ++ wsql, (ps ++ wparams)%list)
           | _ => (sql0, ps)
           end in
  count_char "?" (fst r) + List.length ps = count_char "?" sql0 + List.length (snd r).
Proof.
  intros Hw. destruct w as [[| e es] |]; cbn [fst snd]; try lia.
  pose proof (where_clause_balanced (e :: es) db Hw) as Hb.
  destruct (SqlUtils.buildWhereClause (e :: es) db) as [wsql wparams].
  cbn [fst snd] in *. unfold Spec.placeholder_count in Hb.
  rewrite !count_append, length_app, Hb. cbn. lia.
Qed.

(** X13. A SELECT statement built from options whose names hold no
    question mark has as many placeholders as parameters. *)
Theorem buildSelectQuery_balanced (db : DatabaseType) (o : QueryOptions) :
  Spec.plain_query o ->
  Spec.placeholder_count (fst (buildSelectQuery db o))
  = List.length (snd (buildSelectQuery db o)).
Proof.
  intros (Ht & Hf & Hw & Ho & Hg & Hh).
  destruct o as [t fs w ob l off g h]. cbn [table fields where_ orderBy limit offset groupBy having] in *.
  unfold buildSelectQuery, Spec.placeholder_count.
  cbn [table fields where_ orderBy limit offset groupBy having]. cbv zeta.
  set (sql2 := (match fs with
                | Some (f :: fs0) => "SELECT " ++ String.concat ", " (map (esc db) (f :: fs0))
                | _ => "SELECT " ++ "*"
                end) ++ " FROM " ++ esc db t).
  assert (H2 : count_char "?" sql2 = 0).
  { unfold sql2. rewrite !count_append.
    assert (He : count_char "?" (esc db t) = 0)
      by apply (count_escapeIdentifier t (Some db) Ht).
    rewrite He.
    destruct fs as [[| f fs0] |];
      rewrite ?count_append, ?(count_escaped_list db _ Hf); reflexivity. }
  pose proof (where_part_balanced db w sql2 [] Hw) as H3. cbv zeta in H3.
  destruct (match w with
            | Some (e :: es) =>
                let '(wsql, wparams) := SqlUtils.buildWhereClause (e :: es) db in
                (sql2 ++ " WHERE " ++ wsql, ([] ++ wparams)%list)
            | _ => (sql2, [])
            end) as [sql3 params3] eqn:E3.
  assert (E3' : match w with
                | Some (e :: es) =>
                    let '(wsql, wparams) := SqlUtils.buildWhereClause (e :: es) db in
                    (sql2 ++ " WHERE " ++ wsql, wparams)
                | _ => (sql2, [])
                end = (sql3, params3)).
  { rewrite <- E3. destruct w as [[| e es] |]; reflexivity. }
  rewrite E3'. cbn [fst snd] in H3. rewrite H2 in H3.
  cbn [List.length] in H3.
  set (sql4 := match g with
               | Some (g0 :: gs) => sql3 ++ " GROUP BY " ++ String.concat ", " (map (esc db) (g0 :: gs))
               | _ => sql3
               end).
  assert (H4 : count_char "?" sql4 = count_char "?" sql3).
  { unfold sql4. destruct g as [[| g0 gs] |]; try reflexivity.
    rewrite !count_append, count_escaped_list by exact Hg. cbn. lia. }
  assert (H5' : forall r,
             r = match h with
                 | Some (e :: es) =>
                     let '(hsql, hparams) := SqlUtils.buildWhereClause (e :: es) db in
                     (sql4 ++ " HAVING " ++ hsql, (params3 ++ hparams)%list)
                 | _ => (sql4, params3)
                 end ->
             count_char "?" (fst r) + List.length params3
             = count_char "?" sql4 + List.length (snd r)).
  { intros r ->. destruct h as [[| e es] |]; cbn [fst snd]; try lia.
    pose proof (where_clause_balanced (e :: es) db Hh) as Hb.
    destruct (SqlUtils.buildWhereClause (e :: es) db) as [hsql hparams].
    cbn [fst snd] in *. unfold Spec.placeholder_count in Hb.
    rewrite !count_append, length_app, Hb. cbn. lia. }
  specialize (H5' _ eq_refl).
  destruct (match h with
            | Some (e :: es) =>
                let '(hsql, hparams) := SqlUtils.buildWhereClause (e :: es) db in
                (sql4 ++ " HAVING " ++ hsql, (params3 ++ hparams)%list)
            | _ => (sql4, params3)
            end) as [sql5 params5].
  cbn [fst snd] in *.
  set (sql6 := match ob with
               | Some ob0 =>
                   if nonempty (SqlUtils.buildOrderByClause ob0)
                   then sql5 ++ " ORDER BY " ++ SqlUtils.buildOrderByClause ob0
                   else sql5
               | None => sql5
               end).
  assert (H6 : count_char "?" sql6 = count_char "?" sql5).
  { unfold sql6. destruct ob as [ob0 |]; [| reflexivity].
    destruct (nonempty _); [| reflexivity].
    rewrite !count_append, (count_order_by ob0 Ho). cbn. lia. }
  clearbody sql6.
  destruct (nonempty (SqlUtils.buildLimitClause l off)); cbn [fst snd];
    rewrite ?count_append, ?count_limit_clause;
    try change (count_char "?" " ") with 0; lia.
Qed.

Lemma buildSelectQuery_balanced_witness :
  Spec.placeholder_count
    (fst (buildSelectQuery mysql
            {| table := "users"; fields := Some ["id"; "name"];
               where_ := Some [("age", JObj [("$gte", JNum 18)]); ("tags", JArr [JNum 1])];
               orderBy := Some (SqlUtils.OrderRecord [("name", "ASC")]);
               limit := Some 10%Z; offset := Some 5%Z;
               groupBy := Some ["name"];
               having := Some [("name", JStr "J")] |}))
  = 3.
Proof.
  rewrite buildSelectQuery_balanced; [reflexivity |].
  cbn. repeat split; repeat constructor.
Defined.

Lemma count_values (values : list JsValue) :
  count_char "?" (SqlUtils.qmarks values) = List.length values.
Proof. exact (count_placeholders values). Qed.

Lemma ok_statement_balanced (P : string -> list JsValue -> Prop)
      (x sql0 : string) (y ps : list JsValue) :
  P x y -> @Ok (string * list JsValue) (x, y) = Ok (sql0, ps) -> P sql0 ps.
Proof. intros H E. injection E as <- <-. exact H. Qed.

(** X14. [buildInsertQuery] raises exactly when there is no data; when the
    table and the columns hold no question mark, the statement it returns
    has as many placeholders as parameters, with or without the
    update-on-conflict part. *)
Theorem buildInsertQuery_raises_or_balanced
        (db : DatabaseType) (o : InsertOptions) :
  (buildInsertQuery db o = Throw <-> i_data o = None \/ i_data o = Some []) /\
  (Spec.plain_name (i_table o) -> Spec.plain_record (i_data o) ->
   Spec.plain_record (i_onDuplicateKeyUpdate o) ->
   forall sql0 ps,
     buildInsertQuery db o = Ok (sql0, ps) ->
     Spec.placeholder_count sql0 = List.length ps).
Proof.
  destruct o as [t data ign upd]. cbn [i_table i_data i_ignore i_onDuplicateKeyUpdate].
  unfold buildInsertQuery. cbn [i_table i_data i_ignore i_onDuplicateKeyUpdate].
  split.
  - destruct data as [[| e es] |].
    + split; [intros _; now right | reflexivity].
    + split; [| intros [H | H]; discriminate H].
      cbv zeta. destruct upd as [[| u us] |]; destruct db; discriminate.
    + split; [intros _; now left | reflexivity].
  - intros Ht Hd Hu sql0 ps. destruct data as [[| e es] |]; try discriminate.
    cbv zeta.
    assert (He : count_char "?" (esc db t) = 0)
      by apply (count_escapeIdentifier t (Some db) Ht).
    assert (Hf : count_char "?" (String.concat ", " (map (esc db) (map fst (e :: es)))) = 0).
    { apply count_escaped_list. cbn [Spec.plain_record] in Hd.
      now apply Forall_map. }
    pose proof (count_values (map snd (e :: es))) as Hv.
    assert (Hhead : forall ig : bool,
               count_char "?"
                 ((((if ig then "INSERT " ++ "IGNORE " else "INSERT ")
                    ++ "INTO " ++ esc db t ++ " (")
                   ++ String.concat ", " (map (esc db) (map fst (e :: es))))
                  ++ ") VALUES (" ++ SqlUtils.qmarks (map snd (e :: es)) ++ ")")
               = List.length (map snd (e :: es))).
    { intros ig. rewrite !count_append, He, Hf, Hv. destruct ig; cbn; lia. }
    specialize (Hhead ign). unfold Spec.placeholder_count.
    match type of Hhead with
    | count_char _ ?x = _ => set (sql4 := x) in *
    end.
    clearbody sql4.
    destruct upd as [[| u us] |].
    + destruct db;
        apply (ok_statement_balanced (fun x y => count_char "?" x = List.length y));
        rewrite ?count_append, Hhead; cbn; lia.
    + assert (Hup : count_char "?" (assignments db (map fst (u :: us)))
                    = List.length (map snd (u :: us))).
      { rewrite count_assignments; [now rewrite !length_map |].
        cbn [Spec.plain_record] in Hu. now apply Forall_map. }
      destruct db;
        apply (ok_statement_balanced (fun x y => count_char "?" x = List.length y));
        rewrite !count_append, Hhead, Hup, length_app; cbn; lia.
    + destruct db;
        apply (ok_statement_balanced (fun x y => count_char "?" x = List.length y));
        rewrite ?count_append, Hhead; cbn; lia.
Qed.

Lemma buildInsertQuery_raises_or_balanced_witness :
  buildInsertQuery mysql
    {| i_table := "users"; i_data := Some []; i_ignore := false;
       i_onDuplicateKeyUpdate := None |} = Throw /\
  Spec.placeholder_count
    "INSERT INTO `users` (`name`, `age`) VALUES (?, ?) ON DUPLICATE KEY UPDATE `age` = ?"
  = 3.
Proof.
  split.
  - apply (proj1 (buildInsertQuery_raises_or_balanced mysql _)). now right.
  - apply (proj2 (buildInsertQuery_raises_or_balanced mysql
                    {| i_table := "users";
                       i_data := Some [("name", JStr "J"); ("age", JNum 3)];
                       i_ignore := false;
                       i_onDuplicateKeyUpdate := Some [("age", JNum 4)] |}))
      with (ps := [JStr "J"; JNum 3; JNum 4]).
    + reflexivity.
    + repeat constructor.
    + repeat constructor.
    + reflexivity.
Defined.

Lemma count_limit_suffix (sql0 : string) (l : option Z) :
  count_char "?"
    (if limit_truthy l
     then sql0 ++ " LIMIT " ++ match l with
                               | Some x => Z_to_string x
                               | None => EmptyString
                               end
     else sql0)
  = count_char "?" sql0.
Proof.
  destruct (limit_truthy l); [| reflexivity].
  rewrite !count_append. destruct l as [x |];
    rewrite ?(count_Z_to_string "?" _ eq_refl); cbn; lia.
Qed.

(** X15. [buildUpdateQuery] raises exactly when there is no data; when the
    table, the columns and the where record hold no question mark, the
    statement has as many placeholders as parameters, the values of the
    data first. *)
Theorem buildUpdateQuery_raises_or_balanced
        (db : DatabaseType) (o : UpdateOptions) :
  (buildUpdateQuery db o = Throw <-> u_data o = None \/ u_data o = Some []) /\
  (Spec.plain_name (u_table o) -> Spec.plain_record (u_data o) ->
   Spec.plain_record (u_where o) ->
   forall sql0 ps,
     buildUpdateQuery db o = Ok (sql0, ps) ->
     Spec.placeholder_count sql0 = List.length ps /\
     exists rest,
       ps = (map snd (match u_data o with Some d => d | None => [] end) ++ rest)%list).
Proof.
  destruct o as [t data w l]. cbn [u_table u_data u_where u_limit].
  unfold buildUpdateQuery. cbn [u_table u_data u_where u_limit].
  split.
  - destruct data as [[| e es] |].
    + split; [intros _; now right | reflexivity].
    + split; [| intros [H | H]; discriminate H].
      cbv zeta.
      destruct (match w with
                | Some (w0 :: ws) =>
                    let '(wsql, wparams) := SqlUtils.buildWhereClause (w0 :: ws) db in
                    (_, _)
                | _ => _
                end); discriminate.
    + split; [intros _; now left | reflexivity].
  - intros Ht Hd Hw sql0 ps. destruct data as [[| e es] |]; try discriminate.
    cbv zeta.
    assert (He : count_char "?" (esc db t) = 0)
      by apply (count_escapeIdentifier t (Some db) Ht).
    assert (Ha : count_char "?" (assignments db (map fst (e :: es)))
                 = List.length (map snd (e :: es))).
    { rewrite count_assignments; [now rewrite !length_map |].
      cbn [Spec.plain_record] in Hd. now apply Forall_map. }
    set (sql1 := ("UPDATE " ++ esc db t ++ " SET ") ++ assignments db (map fst (e :: es))).
    assert (H1 : count_char "?" sql1 = List.length (map snd (e :: es))).
    { unfold sql1. rewrite !count_append, He, Ha. cbn. lia. }
    clearbody sql1.
    set (P := fun (x : string) (y : list JsValue) =>
                count_char "?" x = List.length y /\
                exists rest, y = (map snd (e :: es) ++ rest)%list).
    unfold Spec.placeholder_count.
    destruct w as [[| w0 ws] |].
    + destruct db; apply (ok_statement_balanced P); unfold P;
        rewrite ?count_limit_suffix;
        (split; [exact H1 | exists []; now rewrite app_nil_r]).
    + pose proof (where_clause_balanced (w0 :: ws) db Hw) as Hb.
      destruct (SqlUtils.buildWhereClause (w0 :: ws) db) as [wsql wparams].
      cbn [fst snd] in Hb. unfold Spec.placeholder_count in Hb.
      destruct db; apply (ok_statement_balanced P); unfold P;
        rewrite ?count_limit_suffix, !count_append, length_app, H1, Hb;
        (split; [cbn; lia | now exists wparams]).
    + destruct db; apply (ok_statement_balanced P); unfold P;
        rewrite ?count_limit_suffix;
        (split; [exact H1 | exists []; now rewrite app_nil_r]).
Qed.

Lemma buildUpdateQuery_raises_or_balanced_witness :
  buildUpdateQuery sqlite
    {| u_table := "users"; u_data := None; u_where := None; u_limit := None |}
  = Throw /\
  Spec.placeholder_count "UPDATE `users` SET `name` = ? WHERE `id` = ? LIMIT 5" = 2.
Proof.
  split.
  - apply (proj1 (buildUpdateQuery_raises_or_balanced sqlite _)). now left.
  - apply (proj2 (buildUpdateQuery_raises_or_balanced mysql
                    {| u_table := "users"; u_data := Some [("name", JStr "J")];
                       u_where := Some [("id", JNum 1)]; u_limit := Some 5%Z |}))
      with (ps := [JStr "J"; JNum 1]).
    + reflexivity.
    + repeat constructor.
    + repeat constructor.
    + reflexivity.
Defined.

(** X16. The DELETE and the COUNT statements built from names without
    question marks have as many placeholders as parameters.  A DELETE
    without where entries has no WHERE part and no parameter: its text is
    DELETE FROM and the table, then nothing, or, under MySQL with a
    non-zero limit, the LIMIT part. *)
Theorem buildDeleteQuery_buildCountQuery_balanced
        (db : DatabaseType) (d : DeleteOptions) (o : QueryOptions) :
  (Spec.plain_name (d_table d) -> Spec.plain_record (d_where d) ->
   Spec.placeholder_count (fst (buildDeleteQuery db d))
   = List.length (snd (buildDeleteQuery db d))) /\
  (Spec.plain_query o ->
   Spec.placeholder_count (fst (buildCountQuery db o))
   = List.length (snd (buildCountQuery db o))) /\
  (d_where d = None \/ d_where d = Some [] ->
   snd (buildDeleteQuery db d) = [] /\
   exists tail,
     fst (buildDeleteQuery db d)
     = "DELETE FROM " ++ SqlUtils.escapeIdentifier (d_table d) (Some db) ++ tail /\
     (tail = EmptyString \/
      exists l, db = mysql /\ d_limit d = Some l /\ l <> 0%Z /\
                tail = " LIMIT " ++ Z_to_string l)).
Proof.
  split; [| split].
  - destruct d as [t w l]. cbn [d_table d_where d_limit]. intros Ht Hw.
    unfold buildDeleteQuery, Spec.placeholder_count. cbn [d_table d_where d_limit].
    assert (He : count_char "?" (esc db t) = 0)
      by apply (count_escapeIdentifier t (Some db) Ht).
    pose proof (where_part_balanced db w ("DELETE FROM " ++ esc db t) [] Hw) as H.
    cbv zeta in H.
    destruct (match w with
              | Some (w0 :: ws) =>
                  let '(wsql, wparams) := SqlUtils.buildWhereClause (w0 :: ws) db in
                  (("DELETE FROM " ++ esc db t) ++ " WHERE " ++ wsql, ([] ++ wparams)%list)
              | _ => ("DELETE FROM " ++ esc db t, [])
              end) as [sql1 params1] eqn:E.
    assert (E' : match w with
                 | Some (w0 :: ws) =>
                     let '(wsql, wparams) := SqlUtils.buildWhereClause (w0 :: ws) db in
                     (("DELETE FROM " ++ esc db t) ++ " WHERE " ++ wsql, wparams)
                 | _ => ("DELETE FROM " ++ esc db t, [])
                 end = (sql1, params1)).
    { rewrite <- E. destruct w as [[| w0 ws] |]; reflexivity. }
    rewrite E'. cbn [fst snd] in *. rewrite count_append, He in H.
    destruct db; cbn [fst snd]; rewrite ?count_limit_suffix; cbn in H; lia.
  - destruct o as [t fs w ob l off g h].
    intros (Ht & _ & Hw & _ & Hg & Hh).
    cbn [table fields where_ orderBy limit offset groupBy having] in *.
    unfold buildCountQuery, Spec.placeholder_count.
    cbn [table fields where_ orderBy limit offset groupBy having]. cbv zeta.
    assert (He : count_char "?" (esc db t) = 0)
      by apply (count_escapeIdentifier t (Some db) Ht).
    set (sql1 := "SELECT COUNT(*) as count" ++ " FROM " ++ esc db t).
    assert (H1 : count_char "?" sql1 = 0).
    { unfold sql1. rewrite !count_append, He. reflexivity. }
    clearbody sql1.
    pose proof (where_part_balanced db w sql1 [] Hw) as H2. cbv zeta in H2.
    destruct (match w with
              | Some (e :: es) =>
                  let '(wsql, wparams) := SqlUtils.buildWhereClause (e :: es) db in
                  (sql1 ++ " WHERE " ++ wsql, ([] ++ wparams)%list)
              | _ => (sql1, [])
              end) as [sql2 params2] eqn:E.
    assert (E' : match w with
                 | Some (e :: es) =>
                     let '(wsql, wparams) := SqlUtils.buildWhereClause (e :: es) db in
                     (sql1 ++ " WHERE " ++ wsql, wparams)
                 | _ => (sql1, [])
                 end = (sql2, params2)).
    { rewrite <- E. destruct w as [[| e es] |]; reflexivity. }
    rewrite E'. cbn [fst snd] in H2. rewrite H1 in H2. cbn [List.length] in H2.
    set (sql3 := match g with
                 | Some (g0 :: gs) =>
                     sql2 ++ " GROUP BY " ++ String.concat ", " (map (esc db) (g0 :: gs))
                 | _ => sql2
                 end).
    assert (H3 : count_char "?" sql3 = count_char "?" sql2).
    { unfold sql3. destruct g as [[| g0 gs] |]; try reflexivity.
      rewrite !count_append, count_escaped_list by exact Hg. cbn. lia. }
    clearbody sql3.
    destruct h as [[| e es] |]; cbn [fst snd]; try lia.
    pose proof (where_clause_balanced (e :: es) db Hh) as Hb.
    destruct (SqlUtils.buildWhereClause (e :: es) db) as [hsql hparams].
    cbn [fst snd] in *. unfold Spec.placeholder_count in Hb.
    rewrite !count_append, length_app, Hb. cbn. lia.
  - destruct d as [t w l]. cbn [d_where d_table d_limit].
    unfold buildDeleteQuery, esc. cbn [d_table d_where d_limit].
    assert (Hnil : forall x : string, x = x ++ EmptyString)
      by (induction x; cbn; congruence).
    assert (Hassoc : forall x y z : string, (x ++ y) ++ z = x ++ y ++ z)
      by (induction x; intros; cbn; congruence).
    intros [-> | ->]; (split; [reflexivity |]); cbv zeta; cbn [fst];
      destruct db;
      try (exists EmptyString; split; [apply (Hnil ("DELETE FROM " ++ _)) | now left]).
    all: destruct l as [l |]; cbn [limit_truthy];
      try (exists EmptyString; split; [apply (Hnil ("DELETE FROM " ++ _)) | now left]).
    all: destruct (Z.eqb_spec l 0) as [-> | Hl]; cbn [negb];
      try (exists EmptyString; split; [apply (Hnil ("DELETE FROM " ++ _)) | now left]).
    all: exists (" LIMIT " ++ Z_to_string l);
      (split; [apply (Hassoc "DELETE FROM ") | right; exists l; auto]).
Qed.

Lemma buildDeleteQuery_buildCountQuery_balanced_witness :
  Spec.placeholder_count
    (fst (buildDeleteQuery mysql
            {| d_table := "users"; d_where := Some [("id", JArr [JNum 1; JNum 2])];
               d_limit := Some 3%Z |})) = 2 /\
  snd (buildDeleteQuery mysql
         {| d_table := "users"; d_where := Some []; d_limit := None |}) = [].
Proof.
  pose proof (buildDeleteQuery_buildCountQuery_balanced mysql
                {| d_table := "users"; d_where := Some [("id", JArr [JNum 1; JNum 2])];
                   d_limit := Some 3%Z |}
                {| table := "users"; fields := None; where_ := None; orderBy := None;
                   limit := None; offset := None; groupBy := None; having := None |})
    as (Hd & _ & _).
  pose proof (buildDeleteQuery_buildCountQuery_balanced mysql
                {| d_table := "users"; d_where := Some []; d_limit := None |}
                {| table := "users"; fields := None; where_ := None; orderBy := None;
                   limit := None; offset := None; groupBy := None; having := None |})
    as (_ & _ & He).
  split.
  - rewrite Hd; [reflexivity | reflexivity | repeat constructor].
  - apply He. now right.
Defined.

(** *** createUpdateQuery *)

Lemma spread_as_record (acc : list (string * JsValue)) (p : ParsedWhereClause) :
  acc = [] \/ (exists q, acc = as_record q) ->
  spread acc (as_record p) = as_record p.
Proof.
  intros [-> | [q ->]]; reflexivity.
Qed.

Lemma combine_where_all
      (db : DatabaseType) (ws : list WhereArg) (acc : list (string * JsValue)) :
  acc = [] \/ (exists q, acc = as_record q) ->
  Forall (fun w => exists c, parse db None w = Ok c) ws ->
  exists acc',
    combine_where db acc ws = Ok acc' /\
    (acc' = [] \/ exists q, acc' = as_record q).
Proof.
  intros Hacc Hws. revert acc Hacc.
  induction Hws as [| w ws [c Hc] _ IH]; intros acc Hacc.
  - exists acc. now split.
  - cbn [combine_where]. rewrite Hc. cbn [res_bind].
    rewrite (spread_as_record acc c Hacc). apply IH. right. now exists c.
Qed.

Lemma combine_where_app
      (db : DatabaseType) (ws1 ws2 : list WhereArg) (acc : list (string * JsValue)) :
  combine_where db acc (ws1 ++ ws2)
  = res_bind (combine_where db acc ws1) (fun acc' => combine_where db acc' ws2).
Proof.
  revert acc. induction ws1 as [| w ws1 IH]; intros acc; [reflexivity |].
  cbn [app combine_where]. destruct (parse db None w) as [c |]; [| reflexivity].
  cbn [res_bind]. apply IH.
Qed.

(** X17. [createUpdateQuery] raises when its three arrays differ in
    length.  When every where clause parses, only the last one reaches the
    statement and the filter: the parsed clauses are spread over one
    another and each overwrites the one before. *)
Theorem createUpdateQuery_keeps_last_where
        (db : DatabaseType) (updates : list (list (string * JsValue)))
        (ws : list WhereArg) (w : WhereArg) (p : ParsedWhereClause)
        (methods : list JsValue) (tableName : option string) :
  (List.length updates <> List.length (ws ++ [w])
   \/ List.length updates <> List.length methods ->
   createUpdateQuery db updates (ws ++ [w]) methods tableName = Throw) /\
  (List.length updates = List.length (ws ++ [w]) ->
   List.length updates = List.length methods ->
   Forall (fun x => exists c, parse db None x = Ok c) ws ->
   parse db None w = Ok p ->
   createUpdateQuery db updates (ws ++ [w]) methods tableName
   = res_bind
       (buildUpdateQuery db
          {| u_table := match tableName with
                        | Some t => if nonempty t then t else "default_table"
                        | None => "default_table"
                        end;
             u_data := Some (fold_left spread updates []);
             u_where := Some (as_record p);
             u_limit := None |})
       (fun result =>
          Ok {| uq_sql := fst result;
                uq_params := snd result;
                uq_filter := as_record p;
                uq_update := fold_left spread updates [] |})).
Proof.
  split.
  - intros H. unfold createUpdateQuery.
    destruct (Nat.eqb_spec (List.length updates) (List.length (ws ++ [w])));
      destruct (Nat.eqb_spec (List.length updates) (List.length methods));
      cbn [negb orb]; try reflexivity.
    destruct H; contradiction.
  - intros H1 H2 Hws Hw. unfold createUpdateQuery.
    rewrite (proj2 (Nat.eqb_eq _ _) H1), (proj2 (Nat.eqb_eq _ _) H2). cbn [negb orb].
    rewrite combine_where_app.
    destruct (combine_where_all db ws [] (or_introl eq_refl) Hws) as (acc & Hacc & Hshape).
    rewrite Hacc. cbn [res_bind combine_where]. rewrite Hw. cbn [res_bind].
    rewrite (spread_as_record acc p Hshape). reflexivity.
Qed.

Lemma createUpdateQuery_keeps_last_where_witness :
  createUpdateQuery mysql [[("name", JStr "J")]; [("age", JNum 30)]]
    [WBuilder (Some (Condition "id" "eq" (JNum 1)));
     WBuilder (Some (Condition "active" "eq" (JBool true)))]
    [JNum 0; JNum 1] None
  = createUpdateQuery mysql [[("name", JStr "J")]; [("age", JNum 30)]]
      [WBuilder (Some (Condition "other" "lt" (JNum 7)));
       WBuilder (Some (Condition "active" "eq" (JBool true)))]
      [JNum 0; JNum 1] None.
Proof.
  change [WBuilder (Some (Condition "id" "eq" (JNum 1)));
          WBuilder (Some (Condition "active" "eq" (JBool true)))]
    with ([WBuilder (Some (Condition "id" "eq" (JNum 1)))]
            ++ [WBuilder (Some (Condition "active" "eq" (JBool true)))])%list.
  change [WBuilder (Some (Condition "other" "lt" (JNum 7)));
          WBuilder (Some (Condition "active" "eq" (JBool true)))]
    with ([WBuilder (Some (Condition "other" "lt" (JNum 7)))]
            ++ [WBuilder (Some (Condition "active" "eq" (JBool true)))])%list.
  etransitivity; [| symmetry];
    (apply (proj2 (createUpdateQuery_keeps_last_where mysql
                     [[("name", JStr "J")]; [("age", JNum 30)]] _
                     (WBuilder (Some (Condition "active" "eq" (JBool true))))
                     {| sql := "WHERE `active` = ?"; params := [JBool true];
                        hasConditions := true |}
                     [JNum 0; JNum 1] None));
     [reflexivity | reflexivity
      | constructor; [eexists; reflexivity | constructor] | reflexivity]).
Defined.

(** *** convertSortToOrderBy *)

Lemma assoc_set_keys {A} (k : string) (v : A) (l : list (string * A)) (x : string) :
  In x (map fst (assoc_set k v l)) -> x = k \/ In x (map fst l).
Proof.
  induction l as [| [k0 v0] l IH]; cbn.
  - intros [<- | []]. now left.
  - destruct (String.eqb_spec k k0) as [-> | Hne]; cbn.
    + intros [<- | H]; [now left | right; now right].
    + intros [<- | H]; [right; now left |].
      destruct (IH H) as [-> | H']; [now left | right; now right].
Qed.

Lemma assoc_set_NoDup {A} (k : string) (v : A) (l : list (string * A)) :
  NoDup (map fst l) -> NoDup (map fst (assoc_set k v l)).
Proof.
  induction l as [| [k0 v0] l IH]; cbn; intros H.
  - constructor; [intros [] | constructor].
  - inversion H as [| ? ? Hnotin Hnodup]; subst.
    destruct (String.eqb_spec k k0) as [-> | Hne]; cbn.
    + now constructor.
    + constructor; [| now apply IH].
      intros Hin. apply assoc_set_keys in Hin. destruct Hin as [-> | Hin]; auto.
Qed.

(** X18. [convertSortToOrderBy] returns each field once, with the
    direction ASC or DESC, and only fields of the sort object whose value
    is the number 1 (ASC), the number -1 (DESC) or a string; every other
    entry is left out. *)
Theorem convertSortToOrderBy_directions
        (sort : JsValue) (field direction : string) :
  In (field, direction) (convertSortToOrderBy sort) ->
  (direction = "ASC" \/ direction = "DESC") /\
  NoDup (map fst (convertSortToOrderBy sort)) /\
  exists v, In (field, v) (entries sort) /\
            (v = JNum 1 /\ direction = "ASC"
             \/ v = JNum (-1) /\ direction = "DESC"
             \/ exists s, v = JStr s).
Proof.
  unfold convertSortToOrderBy.
  destruct (negb (truthy sort) || negb (is_object_type sort)); [intros [] |].
  set (step := fun (orderBy0 : list (string * string)) (fd : string * JsValue) => _).
  set (Inv := fun acc : list (string * string) =>
                NoDup (map fst acc) /\
                forall f d, In (f, d) acc ->
                  (d = "ASC" \/ d = "DESC") /\
                  exists v, In (f, v) (entries sort) /\
                            (v = JNum 1 /\ d = "ASC"
                             \/ v = JNum (-1) /\ d = "DESC"
                             \/ exists s, v = JStr s)).
  assert (Hfold : forall l acc, incl l (entries sort) -> Inv acc ->
                                Inv (fold_left step l acc)).
  { induction l as [| [f v] l IH]; intros acc Hincl Hacc; [exact Hacc |].
    cbn [fold_left]. apply IH; [eapply incl_cons_inv; eauto |].
    assert (Hf : In (f, v) (entries sort)) by (apply Hincl; now left).
    assert (Hset : forall d, (d = "ASC" \/ d = "DESC") ->
                     (v = JNum 1 /\ d = "ASC" \/ v = JNum (-1) /\ d = "DESC"
                      \/ exists s, v = JStr s) ->
                     Inv (assoc_set f d acc)).
    { intros d Hd Hv. destruct Hacc as [Hnd Hall]. split.
      - now apply assoc_set_NoDup.
      - intros f0 d0 Hin. apply in_assoc_set in Hin.
        destruct Hin as [[-> ->] | Hin]; [| now apply Hall].
        split; [exact Hd | now exists v]. }
    unfold step. cbn [fst snd].
    destruct v as [| | b | n | s | iso text | src | items | props]; try exact Hacc.
    - destruct (Z.eqb_spec n 1) as [-> | _]; [apply Hset; auto |].
      destruct (Z.eqb_spec n (-1)) as [-> | _]; [apply Hset; auto | exact Hacc].
    - destruct (String.eqb_spec (toUpperCase s) "ASC") as [Ha | _]; cbn [orb].
      + apply Hset; [now left | right; right; now exists s].
      + destruct (String.eqb_spec (toUpperCase s) "DESC") as [Hd | _];
          [| exact Hacc].
        apply Hset; [now right | right; right; now exists s]. }
  intros Hin.
  destruct (Hfold (entries sort) [] (incl_refl _)) as [Hnd Hall].
  { split; [constructor | intros ? ? []]. }
  destruct (Hall _ _ Hin) as [Hd Hv]. auto.
Qed.

Lemma convertSortToOrderBy_directions_witness :
  ("name" = "ASC" \/ "DESC" = "DESC") /\
  NoDup (map fst (convertSortToOrderBy
                    (JObj [("age", JNum 0); ("name", JStr "desc"); ("id", JNum 1)]))).
Proof.
  pose proof (convertSortToOrderBy_directions
                (JObj [("age", JNum 0); ("name", JStr "desc"); ("id", JNum 1)])
                "name" "DESC") as H.
  destruct H as (_ & Hnd & _); [cbn; now left |].
  split; [now right | exact Hnd].
Defined.

(** *** buildFindQuery, buildFindOneQuery *)

(** X19. A find-one statement always ends with the limit of one row, and
    its parameters are those of the criteria; the limit, offset, grouping
    and having of the options never reach it.  In a find statement an
    offset without a limit is dropped. *)
Theorem buildFindOneQuery_limits_to_one
        (db : DatabaseType) (collection : string)
        (criteria : option (list (string * JsValue))) (o : FindOptions)
        (l off : option Z) (g : option (list string))
        (h : option (list (string * JsValue))) :
  (exists head, fst (buildFindOneQuery db collection criteria (Some o))
                = head ++ " LIMIT 1") /\
  snd (buildFindOneQuery db collection criteria (Some o))
  = match criteria with
    | Some (e :: es) => snd (SqlUtils.buildWhereClause (e :: es) db)
    | _ => []
    end /\
  buildFindOneQuery db collection criteria
    (Some {| o_fields := o_fields o; o_orderBy := o_orderBy o; o_limit := l;
             o_offset := off; o_groupBy := g; o_having := h |})
  = buildFindOneQuery db collection criteria (Some o) /\
  buildFindQuery db collection criteria
    (Some {| o_fields := o_fields o; o_orderBy := o_orderBy o; o_limit := None;
             o_offset := off; o_groupBy := o_groupBy o; o_having := o_having o |})
  = buildFindQuery db collection criteria
      (Some {| o_fields := o_fields o; o_orderBy := o_orderBy o; o_limit := None;
               o_offset := None; o_groupBy := o_groupBy o; o_having := o_having o |}).
Proof.
  split; [| split; [| split]].
  - unfold buildFindOneQuery, buildSelectQuery.
    cbn [table fields where_ orderBy limit offset groupBy having].
    cbv zeta.
    destruct (match criteria with
              | Some (e :: es) =>
                  let '(wsql, wparams) := SqlUtils.buildWhereClause (e :: es) db in
                  (_ ++ " WHERE " ++ wsql, wparams)
              | _ => _
              end) as [sql3 params3].
    cbn [fst]. eexists. reflexivity.
  - unfold buildFindOneQuery, buildSelectQuery.
    cbn [table fields where_ orderBy limit offset groupBy having].
    cbv zeta. destruct criteria as [[| e es] |]; try reflexivity.
    destruct (SqlUtils.buildWhereClause (e :: es) db) as [wsql wparams].
    reflexivity.
  - reflexivity.
  - destruct off; reflexivity.
Qed.

(** *** validateMappings *)

Lemma flat_map_nil {A B} (f : A -> list B) (l : list A) :
  flat_map f l = [] <-> Forall (fun x => f x = []) l.
Proof.
  induction l as [| x l IH]; cbn.
  - split; [constructor | reflexivity].
  - split.
    + intros H. apply app_eq_nil in H. destruct H as [Hx Hl].
      constructor; [exact Hx | now apply IH].
    + intros H. inversion H as [| ? ? Hx Hl]; subst.
      rewrite Hx. cbn. now apply IH.
Qed.

Lemma filter_length_count_occ {A} (f : A -> string) (x : string) (l : list A) :
  List.length (filter (fun m => String.eqb (f m) x) l)
  = count_occ string_dec (map f l) x.
Proof.
  induction l as [| m l IH]; [reflexivity |].
  cbn [filter map]. destruct (String.eqb_spec (f m) x) as [E | E].
  - rewrite count_occ_cons_eq by exact E. cbn [List.length]. now rewrite IH.
  - rewrite count_occ_cons_neq by exact E. exact IH.
Qed.

Lemma mapping_errors_nil (all : Mappings) (dm : string * PropertyInfo) :
  mapping_errors all dm = [] <->
  name (snd dm) <> EmptyString /\ type (snd dm) <> EmptyString /\
  count_occ string_dec (map (fun m => name (snd m)) all) (name (snd dm)) <= 1.
Proof.
  unfold mapping_errors. cbv zeta.
  rewrite (filter_length_count_occ (fun m => name (snd m))).
  destruct (String.eqb_spec (name (snd dm)) EmptyString) as [En | En];
    destruct (String.eqb_spec (type (snd dm)) EmptyString) as [Et | Et];
    destruct (Nat.ltb_spec 1 (count_occ string_dec
                                (map (fun m => name (snd m)) all) (name (snd dm))))
      as [Ec | Ec];
    cbn; split; try discriminate; try (intros (? & ? & ?); congruence || lia).
  intros _. repeat split; auto.
Qed.

(** X20. [validateMappings] reports nothing exactly when every mapping has
    a database field name and a type and no two mappings share a database
    field name. *)
Theorem validateMappings_empty_iff (cfg : FieldMappingConfig) :
  validateMappings cfg = [] <->
  Forall (fun dm => name (snd dm) <> EmptyString /\ type (snd dm) <> EmptyString)
         (getFieldMappings cfg) /\
  NoDup (map (fun dm => name (snd dm)) (getFieldMappings cfg)).
Proof.
  unfold validateMappings. rewrite flat_map_nil.
  set (ms := getFieldMappings cfg). split.
  - intros H. split.
    + eapply Forall_impl; [| exact H]. intros dm Hdm.
      apply mapping_errors_nil in Hdm. tauto.
    + apply (NoDup_count_occ string_dec). intros x.
      destruct (in_dec string_dec x (map (fun dm => name (snd dm)) ms)) as [Hin | Hout].
      * apply in_map_iff in Hin. destruct Hin as (dm & <- & Hdm).
        rewrite Forall_forall in H. specialize (H dm Hdm).
        apply mapping_errors_nil in H. tauto.
      * apply (count_occ_not_In string_dec) in Hout. lia.
  - intros [Hall Hnd]. rewrite Forall_forall in *. intros dm Hdm.
    apply mapping_errors_nil. destruct (Hall dm Hdm) as [Hn Ht].
    repeat split; auto.
    now apply (NoDup_count_occ string_dec).
Qed.

Lemma validateMappings_empty_iff_witness :
  validateMappings
    {| modelClass := None;
       modelFieldMappings :=
         Some [("id", {| name := "user_id"; type := "INT"; transformer_to := None;
                         transformer_from := None; nullable := None |});
               ("key", {| name := "user_id"; type := "INT"; transformer_to := None;
                          transformer_from := None; nullable := None |})] |}
  <> [].
Proof.
  intros H. apply validateMappings_empty_iff in H. destruct H as [_ Hnd].
  cbn in Hnd. inversion Hnd as [| ? ? Hnotin _]; subst.
  apply Hnotin. now left.
Defined.

(** *** transformObjectToDatabase *)

Lemma toSql_bindable (v : JsValue) (db : DatabaseType) :
  Spec.bindable db (toSql v db).
Proof.
  destruct v as [| | b | n | s | iso text | src | items | props];
    destruct db; cbn; auto.
Qed.

Lemma transformToDatabase_bindable
      (cfg : FieldMappingConfig) (db : DatabaseType) (d : string) (v : JsValue) :
  Spec.bindable db (transformToDatabase cfg db d v).
Proof.
  unfold transformToDatabase.
  destruct (getFieldMapping cfg d) as [m | member |]; try apply toSql_bindable.
  destruct (transformer_to m); apply toSql_bindable.
Qed.

Lemma bindable_defined (db : DatabaseType) (v : JsValue) :
  Spec.bindable db v -> is_undefined v = false.
Proof. destruct v; cbn; auto; intros []. Qed.

Lemma assoc_assoc_set_eq {A} (k : string) (v : A) (l : list (string * A)) :
  assoc k (assoc_set k v l) = Some v.
Proof.
  induction l as [| [k0 v0] l IH]; cbn.
  - now rewrite String.eqb_refl.
  - destruct (String.eqb_spec k k0) as [-> | Hne]; cbn.
    + now rewrite String.eqb_refl.
    + destruct (String.eqb_spec k k0); [contradiction | exact IH].
Qed.

Lemma assoc_assoc_set_neq {A} (k k' : string) (v : A) (l : list (string * A)) :
  k <> k' -> assoc k (assoc_set k' v l) = assoc k l.
Proof.
  intros Hne. induction l as [| [k0 v0] l IH]; cbn.
  - destruct (String.eqb_spec k k'); [contradiction | reflexivity].
  - destruct (String.eqb_spec k' k0) as [-> | Hne0]; cbn.
    + destruct (String.eqb_spec k k0); [contradiction | reflexivity].
    + destruct (String.eqb_spec k k0); [reflexivity | exact IH].
Qed.

Lemma assoc_in {A} (k : string) (v : A) (l : list (string * A)) :
  assoc k l = Some v -> In (k, v) l.
Proof.
  induction l as [| [k0 v0] l IH]; cbn; [discriminate |].
  destruct (String.eqb_spec k k0) as [-> | Hne].
  - intros [= ->]. now left.
  - intros H. right. now apply IH.
Qed.

(** X21. Every value [transformObjectToDatabase] writes can be bound (the
    test for undefined in its loop never fails), and every mapping whose
    domain field the object has puts its column into the result.  The
    column [__proto__] is set apart: an assignment to that name creates no
    property. *)
Theorem transformObjectToDatabase_bindable_complete
        (cfg : FieldMappingConfig) (db : DatabaseType)
        (obj : list (string * JsValue)) :
  Forall (fun kv => Spec.bindable db (snd kv)) (transformObjectToDatabase cfg db obj) /\
  forall d m value,
    In (d, m) (getFieldMappings cfg) ->
    name m <> "__proto__" ->
    assoc d obj = Some value ->
    exists v, assoc (name m) (transformObjectToDatabase cfg db obj) = Some v /\
              Spec.bindable db v.
Proof.
  unfold transformObjectToDatabase.
  set (step := fun (databaseObject : list (string * JsValue))
                   (dm : string * PropertyInfo) => _).
  assert (Hstep_keeps : forall acc dm k, assoc k acc <> None ->
                                         assoc k (step acc dm) <> None).
  { intros acc [d m] k Hk. unfold step. cbn [fst snd].
    destruct (assoc d obj) as [value |]; [| exact Hk]. cbv zeta.
    destruct (negb _); [| exact Hk].
    destruct (String.eqb_spec k (name m)) as [-> | Hne].
    - now rewrite assoc_assoc_set_eq.
    - now rewrite assoc_assoc_set_neq. }
  assert (Hfold_keeps : forall l acc k, assoc k acc <> None ->
                                        assoc k (fold_left step l acc) <> None).
  { induction l as [| dm l IH]; intros acc k Hk; [exact Hk |].
    cbn [fold_left]. apply IH. now apply Hstep_keeps. }
  assert (Hbind : forall l acc,
             Forall (fun kv => Spec.bindable db (snd kv)) acc ->
             Forall (fun kv => Spec.bindable db (snd kv)) (fold_left step l acc)).
  { induction l as [| [d m] l IH]; intros acc Hacc; [exact Hacc |].
    cbn [fold_left]. apply IH. unfold step. cbn [fst snd].
    destruct (assoc d obj) as [value |]; [| exact Hacc]. cbv zeta.
    destruct (negb _); [| exact Hacc].
    rewrite Forall_forall in *. intros [k v] Hin. apply in_assoc_set in Hin.
    destruct Hin as [[-> ->] | Hin]; [| now apply Hacc].
    apply transformToDatabase_bindable. }
  assert (Hall : Forall (fun kv => Spec.bindable db (snd kv))
                        (fold_left step (getFieldMappings cfg) []))
    by (apply Hbind; constructor).
  split; [exact Hall |].
  intros d m value Hin _ Hd.
  assert (Hpresent : forall l acc, In (d, m) l ->
                                   assoc (name m) (fold_left step l acc) <> None).
  { induction l as [| dm l IH]; intros acc Hl; [destruct Hl |].
    destruct Hl as [-> | Hl].
    - cbn [fold_left]. apply Hfold_keeps. unfold step. cbn [fst snd].
      rewrite Hd. cbv zeta.
      rewrite (bindable_defined db _ (transformToDatabase_bindable cfg db d value)).
      cbn [negb]. now rewrite assoc_assoc_set_eq.
    - cbn [fold_left]. now apply IH. }
  specialize (Hpresent (getFieldMappings cfg) [] Hin).
  destruct (assoc (name m) (fold_left step (getFieldMappings cfg) [])) as [v |] eqn:Hv;
    [| contradiction].
  exists v. split; [reflexivity |].
  apply assoc_in in Hv. rewrite Forall_forall in Hall. exact (Hall _ Hv).
Qed.

Lemma transformObjectToDatabase_bindable_complete_witness :
  exists v,
    assoc "user_name"
      (transformObjectToDatabase
         {| modelClass := None;
            modelFieldMappings :=
              Some [("name", {| name := "user_name"; type := "VARCHAR";
                                transformer_to := Some (fun _ => JUndefined);
                                transformer_from := None; nullable := None |})] |}
         mysql [("name", JStr "J")]) = Some v /\
    Spec.bindable mysql v.
Proof.
  apply (proj2 (transformObjectToDatabase_bindable_complete
                  {| modelClass := None;
                     modelFieldMappings :=
                       Some [("name", {| name := "user_name"; type := "VARCHAR";
                                         transformer_to := Some (fun _ => JUndefined);
                                         transformer_from := None; nullable := None |})] |}
                  mysql [("name", JStr "J")])
           "name"
           {| name := "user_name"; type := "VARCHAR";
              transformer_to := Some (fun _ => JUndefined);
              transformer_from := None; nullable := None |}
           (JStr "J")).
  - now left.
  - discriminate.
  - reflexivity.
Defined.

(** *** arrayToString, stringToArray *)

Import SqlTransformers.

Lemma trim_end_idempotent (s : string) : trim_end (trim_end s) = trim_end s.
Proof.
  induction s as [| c rest IH]; [reflexivity |].
  cbn [trim_end].
  destruct (is_space c && (trim_end rest =? EmptyString)) eqn:E; [reflexivity |].
  cbn [trim_end]. rewrite IH, E. reflexivity.
Qed.

Lemma trim_start_head (c : ascii) (s : string) :
  is_space c = false -> trim_start (trim_end (String c s)) = trim_end (String c s).
Proof.
  intros Hc. cbn [trim_end]. rewrite Hc. cbn [andb trim_start]. now rewrite Hc.
Qed.

Lemma trim_start_shape (s : string) :
  trim_start s = EmptyString \/
  exists c rest, trim_start s = String c rest /\ is_space c = false.
Proof.
  induction s as [| c rest IH]; [now left |].
  cbn [trim_start]. destruct (is_space c) eqn:E; [exact IH |].
  right. now exists c, rest.
Qed.

Lemma trim_idempotent (s : string) : trim (trim s) = trim s.
Proof.
  unfold trim. destruct (trim_start_shape s) as [-> | (c & rest & -> & Hc)];
    [reflexivity |].
  rewrite (trim_start_head c rest Hc). apply trim_end_idempotent.
Qed.

Lemma free_of_trim_start (f : ascii -> bool) (s : string) :
  Spec.free_of f s -> Spec.free_of f (trim_start s).
Proof.
  induction s as [| c rest IH]; [trivial |].
  intros H. cbn [trim_start]. destruct (is_space c); [apply IH; apply H | exact H].
Qed.

Lemma free_of_trim_end (f : ascii -> bool) (s : string) :
  Spec.free_of f s -> Spec.free_of f (trim_end s).
Proof.
  induction s as [| c rest IH]; [trivial |].
  intros [Hc Hrest]. cbn [trim_end].
  destruct (is_space c && (trim_end rest =? EmptyString)); [exact I |].
  split; [exact Hc | now apply IH].
Qed.

Lemma split_on_free (sep : ascii) (s : string) :
  Forall (Spec.free_of (fun c => Ascii.eqb c sep)) (split_on sep s).
Proof.
  induction s as [| c rest IH]; [repeat constructor |].
  cbn [split_on]. destruct (Ascii.eqb c sep) eqn:E.
  - constructor; [exact I | exact IH].
  - destruct (split_on sep rest) as [| x xs].
    + repeat constructor. exact E.
    + inversion IH as [| ? ? Hx Hxs]; subst.
      constructor; [| exact Hxs]. split; [exact E | exact Hx].
Qed.

Lemma split_on_single (sep : ascii) (s : string) :
  Spec.free_of (fun c => Ascii.eqb c sep) s -> split_on sep s = [s].
Proof.
  induction s as [| c rest IH]; [reflexivity |].
  intros [Hc Hrest]. cbn [split_on]. rewrite Hc, (IH Hrest). reflexivity.
Qed.

Lemma split_on_append (sep : ascii) (x rest : string) :
  Spec.free_of (fun c => Ascii.eqb c sep) x ->
  split_on sep (x ++ String sep rest) = x :: split_on sep rest.
Proof.
  induction x as [| c x IH]; intros H.
  - cbn [append split_on]. now rewrite Ascii.eqb_refl.
  - destruct H as [Hc Hx]. cbn [append split_on]. rewrite Hc, (IH Hx). reflexivity.
Qed.

Lemma split_on_concat (sep : ascii) (x : string) (xs : list string) :
  Forall (Spec.free_of (fun c => Ascii.eqb c sep)) (x :: xs) ->
  split_on sep (String.concat (String sep EmptyString) (x :: xs)) = x :: xs.
Proof.
  revert x. induction xs as [| y ys IH]; intros x H.
  - inversion H; subst. cbn [String.concat]. now apply split_on_single.
  - inversion H as [| ? ? Hx Hrest]; subst.
    change (String.concat (String sep EmptyString) (x :: y :: ys))
      with (x ++ String sep (String.concat (String sep EmptyString) (y :: ys))).
    rewrite (split_on_append sep x _ Hx), (IH y Hrest). reflexivity.
Qed.

Lemma join_of_strings (xs : list string) :
  arrayToString (JArr (map JStr xs)) = String.concat "," xs.
Proof.
  unfold arrayToString. cbn [isArray negb ToString]. rewrite map_map.
  f_equal. induction xs as [| x xs IH]; [reflexivity |].
  cbn [map]. now rewrite IH.
Qed.

Lemma clean_items_kept (l : list string) :
  Forall Spec.clean_item l ->
  filter (fun item => (0 <? String.length item)%nat) (map trim l) = l.
Proof.
  induction 1 as [| a l (Hne & _ & Htrim) _ IH]; [reflexivity |].
  cbn [map filter]. rewrite Htrim.
  destruct a as [| c a]; [contradiction |].
  change (String c a :: filter (fun item => (0 <? String.length item)%nat) (map trim l)
          = String c a :: l).
  now rewrite IH.
Qed.

(** X22. Every item [stringToArray] returns is non-empty, holds no comma
    and has no white space at either end; and a list of such items joined
    by [arrayToString] is read back unchanged. *)
Theorem stringToArray_clean_and_inverse (value : JsValue) (xs : list string) :
  Forall Spec.clean_item (stringToArray value) /\
  (Forall Spec.clean_item xs ->
   stringToArray (JStr (arrayToString (JArr (map JStr xs)))) = xs).
Proof.
  split.
  - destruct value as [| | b | n | s | iso text | src | items | props];
      try constructor.
    unfold stringToArray. rewrite Forall_forall. intros item Hin.
    apply filter_In in Hin. destruct Hin as [Hin Hlen].
    apply in_map_iff in Hin. destruct Hin as (raw & <- & Hraw).
    pose proof (split_on_free "," s) as Hfree. rewrite Forall_forall in Hfree.
    repeat split.
    + intros E. rewrite E in Hlen. discriminate.
    + unfold trim. apply free_of_trim_end, free_of_trim_start, Hfree, Hraw.
    + apply trim_idempotent.
  - intros Hxs. rewrite join_of_strings. unfold stringToArray.
    destruct xs as [| x xs]; [reflexivity |].
    rewrite split_on_concat
      by (eapply Forall_impl; [| exact Hxs]; intros a Ha; apply Ha).
    now apply clean_items_kept.
Qed.

Lemma stringToArray_clean_and_inverse_witness :
  stringToArray (JStr (arrayToString (JArr (map JStr ["red"; "dark blue"]))))
  = ["red"; "dark blue"].
Proof.
  apply (proj2 (stringToArray_clean_and_inverse JNull ["red"; "dark blue"])).
  repeat constructor; discriminate.
Defined.
